(** * JaDoK card game (webjadok.py): zones, damage, the ASP and scoring

    A shallow embedding of the rules engine in [webjadok.py].  Python
    objects are references: a card is an index into a heap of card records,
    and every zone is a list of such indices, so that aliasing (the same
    card object held by two lists) is visible in the model.

    Conventions.
    - Numeric card attributes are integers ([Z]); the catalog is taken as
      already parsed.
    - [GameState] is built by [main] with exactly two names, so the list
      [self.players] is the pair [player0], [player1] and a player is
      identified by [P0] or [P1].
    - Console output is recorded as a list of events, only for the messages
      that a property below observes.
    - A line read by [input()] is a token: [Num z], the decimal numeral of
      [z], or [Word s], any line that [int] rejects, stripped and
      lower-cased.  Reading past the end of the input raises [EOFError], as
      Python does, so every prompt loop is a total function of the input. *)

From stdpp Require Import base numbers list strings gmap.

Open Scope string_scope.
Open Scope list_scope.
Open Scope Z_scope.

(** ** Python list primitives on references *)

Abbreviation CardId := nat.

(** [x in l] *)
Definition py_in (x : CardId) (l : list CardId) : bool :=
  existsb (Nat.eqb x) l.

(** [l.remove(x)]: drops the first occurrence.  Every call in the source
    that is modelled here is guarded by [x in l]; on an absent element the
    list is returned as it is. *)
Fixpoint py_remove (x : CardId) (l : list CardId) : list CardId :=
  match l with
  | [] => []
  | y :: l' => if Nat.eqb x y then l' else y :: py_remove x l'
  end.

(** [l.pop()]: the last element and the remaining prefix. *)
Definition py_pop {A} (l : list A) : option (list A * A) :=
  match last l with
  | Some x => Some (removelast l, x)
  | None => None
  end.

(** [l.pop(i)] for an index already checked to be in range. *)
Definition py_pop_at {A} (i : nat) (l : list A) : option (list A * A) :=
  match l !! i with
  | Some x => Some (take i l ++ drop (S i) l, x)
  | None => None
  end.

(** Number of references to [x] held by [l]. *)
Definition refs_in (x : CardId) (l : list CardId) : nat :=
  length (filter (fun y => x = y) l).

(** ** Cards *)

Inductive pid := P0 | P1.

#[global] Instance pid_eq_dec : EqDecision pid.
Proof. solve_decision. Defined.

Module Card.

Record t := mk {
  name : string;
  character_class : string;
  damage_bonus : Z;
  attack_type : string;
  special_ability_trigger : bool;
  attack_value : Z;
  action_point : Z;
  initial_action_point : Z;
  damage_points : Z;
  sub_class : string;
  cast_ability : string;
  special_ability : string;
  is_a_character : bool;
  is_face_down : bool;
  is_wall_card : bool;
  invulnerable_to_magic_ranged : bool;
  has_attacked : bool;
  player : option pid
}.

(** [Card.__init__] with [is_wall_card] and [initial_action_point] left
    at their defaults, as in every call of the source. *)
Definition init (name character_class : string) (damage_bonus : Z)
    (attack_type : string) (special_ability_trigger : bool)
    (attack_value action_point damage_points : Z)
    (sub_class cast_ability special_ability : string)
    (is_a_character : bool) : t :=
  {| name := name;
     character_class := character_class;
     damage_bonus := damage_bonus;
     attack_type := attack_type;
     special_ability_trigger := special_ability_trigger;
     attack_value := attack_value;
     action_point :=
       if bool_decide (name = "Jack of Clubs") || bool_decide (name = "Jack of Diamonds")
       then 2 else action_point;
     initial_action_point := action_point;
     damage_points := damage_points;
     sub_class := sub_class;
     cast_ability := cast_ability;
     special_ability := special_ability;
     is_a_character := is_a_character;
     is_face_down := true;
     is_wall_card := false;
     invulnerable_to_magic_ranged := false;
     has_attacked := false;
     player := None |}.

Definition with_damage_points (v : Z) (c : t) : t :=
  mk (name c) (character_class c) (damage_bonus c) (attack_type c)
     (special_ability_trigger c) (attack_value c) (action_point c)
     (initial_action_point c) v (sub_class c) (cast_ability c)
     (special_ability c) (is_a_character c) (is_face_down c)
     (is_wall_card c) (invulnerable_to_magic_ranged c) (has_attacked c)
     (player c).

Definition with_action_point (v : Z) (c : t) : t :=
  mk (name c) (character_class c) (damage_bonus c) (attack_type c)
     (special_ability_trigger c) (attack_value c) v
     (initial_action_point c) (damage_points c) (sub_class c)
     (cast_ability c) (special_ability c) (is_a_character c)
     (is_face_down c) (is_wall_card c) (invulnerable_to_magic_ranged c)
     (has_attacked c) (player c).

Definition with_is_face_down (v : bool) (c : t) : t :=
  mk (name c) (character_class c) (damage_bonus c) (attack_type c)
     (special_ability_trigger c) (attack_value c) (action_point c)
     (initial_action_point c) (damage_points c) (sub_class c)
     (cast_ability c) (special_ability c) (is_a_character c) v
     (is_wall_card c) (invulnerable_to_magic_ranged c) (has_attacked c)
     (player c).

(** [set_player] *)
Definition with_player (v : option pid) (c : t) : t :=
  mk (name c) (character_class c) (damage_bonus c) (attack_type c)
     (special_ability_trigger c) (attack_value c) (action_point c)
     (initial_action_point c) (damage_points c) (sub_class c)
     (cast_ability c) (special_ability c) (is_a_character c)
     (is_face_down c) (is_wall_card c) (invulnerable_to_magic_ranged c)
     (has_attacked c) v.

(** [is_trap] *)
Definition is_trap (c : t) : bool := bool_decide (name c = "7").

End Card.

(** ** Players and the game state *)

Module Player.

Record t := mk {
  name : string;
  hand : list CardId;
  wall : list CardId;
  battlement_zone : list CardId;
  field_zone : list CardId;
  discard_pile : list CardId
}.

(** [Player.__init__] *)
Definition init (name : string) : t := mk name [] [] [] [] [].

Definition with_hand (v : list CardId) (p : t) : t :=
  mk (name p) v (wall p) (battlement_zone p) (field_zone p) (discard_pile p).
Definition with_wall (v : list CardId) (p : t) : t :=
  mk (name p) (hand p) v (battlement_zone p) (field_zone p) (discard_pile p).
Definition with_battlement_zone (v : list CardId) (p : t) : t :=
  mk (name p) (hand p) (wall p) v (field_zone p) (discard_pile p).
Definition with_field_zone (v : list CardId) (p : t) : t :=
  mk (name p) (hand p) (wall p) (battlement_zone p) v (discard_pile p).
Definition with_discard_pile (v : list CardId) (p : t) : t :=
  mk (name p) (hand p) (wall p) (battlement_zone p) (field_zone p) v.

End Player.

(** Messages of the source that the properties below observe. *)
Inductive Event :=
  | EvDestroyed (c : CardId)          (* "<card> is destroyed." *)
  | EvDiscards (p : pid) (c : CardId) (* "<player> discards <card>." *)
  | EvNotInHand (c : CardId)          (* "Error: Card <card> not in hand." *)
  | EvPlacedInWall (p : pid)          (* "<player> places a card face-down in the wall zone." *)
  | EvWallFull                        (* "Wall zone is full. Card moved to discard pile." *)
  | EvNoActionPoints (c : CardId)     (* "<card> has no action points left." *)
  | EvNoTarget                        (* "No valid target selected." *)
  | EvInsufficientSource              (* "Insufficient source of damage for the attack." *)
  | EvNoRanged.                       (* "No ranged characters with action points ..." *)

#[global] Instance Event_eq_dec : EqDecision Event.
Proof. solve_decision. Defined.

Record GameState := mkGS {
  heap : list Card.t;
  player0 : Player.t;
  player1 : Player.t;
  decks : gmap string (list CardId);
  out : list Event
}.

Definition get_player (w : GameState) (p : pid) : Player.t :=
  match p with P0 => player0 w | P1 => player1 w end.

Definition upd_player (p : pid) (f : Player.t -> Player.t) (w : GameState) : GameState :=
  match p with
  | P0 => mkGS (heap w) (f (player0 w)) (player1 w) (decks w) (out w)
  | P1 => mkGS (heap w) (player0 w) (f (player1 w)) (decks w) (out w)
  end.

Definition upd_card (c : CardId) (f : Card.t -> Card.t) (w : GameState) : GameState :=
  mkGS (alter f c (heap w)) (player0 w) (player1 w) (decks w) (out w).

Definition emit (e : Event) (w : GameState) : GameState :=
  mkGS (heap w) (player0 w) (player1 w) (decks w) (out w ++ [e]).

(** [GameState.opponent]: [next(p for p in self.players if p != player)].
    The argument may be [None] (a card whose [player] was never set), and
    then the first player is returned. *)
Definition opponent (p : option pid) : pid :=
  match p with
  | Some P0 => P1
  | Some P1 => P0
  | None => P0
  end.

(** ** Player operations *)

(** [Player.discard_card] *)
Definition discard_card (p : pid) (card : CardId) (w : GameState) : GameState :=
  if py_in card (Player.hand (get_player w p)) then
    let w1 := upd_player p (fun pl => Player.with_hand (py_remove card (Player.hand pl)) pl) w in
    let w2 := upd_player p (fun pl => Player.with_discard_pile (Player.discard_pile pl ++ [card]) pl) w1 in
    emit (EvDiscards p card) w2
  else
    emit (EvNotInHand card) w.

(** [Player.place_card_in_wall] *)
Definition place_card_in_wall (p : pid) (card : CardId) (w : GameState) : GameState :=
  if (length (Player.wall (get_player w p)) <? 14)%nat then
    let w1 := upd_player p (fun pl => Player.with_wall (Player.wall pl ++ [card]) pl) w in
    let w2 := upd_card card (Card.with_is_face_down true) w1 in
    emit (EvPlacedInWall p) w2
  else
    let w1 := upd_player p (fun pl => Player.with_discard_pile (Player.discard_pile pl ++ [card]) pl) w in
    emit EvWallFull w1.

(** The wall capacity as a property of a state. *)
Definition wall_bounded (w : GameState) : Prop :=
  forall p, (length (Player.wall (get_player w p)) <= 14)%nat.

(** Any sequence of wall placements, by either player. *)
Definition place_cards (l : list (pid * CardId)) (w : GameState) : GameState :=
  fold_left (fun w pc => place_card_in_wall (fst pc) (snd pc) w) l w.

(** ** Reading the heap *)

Module Blank.
(** The record read through a reference that no object answers to.
    Python has no such reference; the default only makes [get_card]
    total. *)
Definition card : Card.t := Card.init "" "" 0 "" false 0 0 0 "" "" "" false.
End Blank.

Definition get_card (w : GameState) (c : CardId) : Card.t :=
  default Blank.card (heap w !! c).

(** The board: everything of a state but its console output. *)
Definition same_board (w w' : GameState) : Prop :=
  heap w = heap w' /\ player0 w = player0 w' /\ player1 w = player1 w' /\
  decks w = decks w'.

(** ** Card damage *)

(** [Card.destroy_card] *)
Definition destroy_card (c : CardId) (w : GameState) : GameState :=
  let w1 := emit (EvDestroyed c) w in
  match Card.player (get_card w1 c) with
  | Some p =>
      let w2 := upd_player p (fun pl => Player.with_discard_pile (Player.discard_pile pl ++ [c]) pl) w1 in
      if py_in c (Player.field_zone (get_player w2 p)) then
        upd_player p (fun pl => Player.with_field_zone (py_remove c (Player.field_zone pl)) pl) w2
      else w2
  | None => w1
  end.

(** [Card.take_damage] *)
Definition take_damage (c : CardId) (damage : Z) (w : GameState) : GameState :=
  let w1 := upd_card c (fun cd => Card.with_damage_points (Card.damage_points cd - damage) cd) w in
  if Card.damage_points (get_card w1 c) <=? 0 then destroy_card c w1 else w1.

(** A sequence of [take_damage] calls on one card. *)
Definition take_damages (c : CardId) (damages : list Z) (w : GameState) : GameState :=
  fold_left (fun w d => take_damage c d w) damages w.

(** The damage points after each call of such a sequence, starting from
    [dp]. *)
Fixpoint running_points (dp : Z) (damages : list Z) : list Z :=
  match damages with
  | [] => []
  | d :: damages' => (dp - d) :: running_points (dp - d) damages'
  end.

Definition sum_Z (l : list Z) : Z := foldr Z.add 0 l.

(** How many times the destruction routine of [c] has run. *)
Definition destroyed_count (c : CardId) (w : GameState) : nat :=
  length (filter (fun e => e = EvDestroyed c) (out w)).

(** ** Input and exceptions *)

(** A line of standard input: [Num z] is the decimal numeral of [z],
    [Word s] any line that [int] rejects, stripped and lower-cased. *)
Inductive Inp := Num (z : Z) | Word (s : string).

Inductive Exn := AttributeError | EOFError.

Inductive Res (S A : Type) :=
  | Ok (a : A) (s : S)
  | Raise (e : Exn) (s : S).
Arguments Ok {S A} a s.
Arguments Raise {S A} e s.

(** The loop [while True: try: i = int(input()) ... if 0 <= i < n: return i]
    shared by the target prompts: lines are read until one is an index in
    range; [None] when the input ends first. *)
Fixpoint choose_index (n : nat) (ins : list Inp) : option (nat * list Inp) :=
  match ins with
  | [] => None
  | Num z :: rest =>
      if (0 <=? z) && (z <? Z.of_nat n) then Some (Z.to_nat z, rest)
      else choose_index n rest
  | Word _ :: rest => choose_index n rest
  end.

(** [RoundManager.get_yes_no_input] *)
Fixpoint get_yes_no_input (ins : list Inp) : option (bool * list Inp) :=
  match ins with
  | [] => None
  | Word s :: rest =>
      if bool_decide (s = "yes") then Some (true, rest)
      else if bool_decide (s = "no") then Some (false, rest)
      else get_yes_no_input rest
  | Num _ :: rest => get_yes_no_input rest
  end.

(** ** Melee *)

(** [RoundManager.apply_damage_to_target] *)
Definition apply_damage_to_target (attacking_card target : CardId) (w : GameState) : GameState :=
  let damage := Card.attack_value (get_card w attacking_card) in
  let target_damage_points := Card.damage_points (get_card w target) - damage in
  let w1 := upd_card target (Card.with_damage_points target_damage_points) w in
  if Card.damage_points (get_card w1 target) <=? 0 then
    let w2 := emit (EvDestroyed target) w1 in
    let target_player := opponent (Card.player (get_card w2 attacking_card)) in
    let w3 := upd_player target_player
                (fun pl => Player.with_discard_pile (Player.discard_pile pl ++ [target]) pl) w2 in
    if py_in target (Player.field_zone (get_player w3 target_player)) then
      upd_player target_player
        (fun pl => Player.with_field_zone (py_remove target (Player.field_zone pl)) pl) w3
    else w3
  else w1.

(** The targets offered by [select_melee_target]: the opponent's field
    zone, or the opponent's wall when the field zone is empty. *)
Definition available_targets (w : GameState) (attacking_player : pid) : list CardId :=
  let opp := get_player w (opponent (Some attacking_player)) in
  Player.field_zone opp ++
  (match Player.field_zone opp with [] => Player.wall opp | _ => [] end).

(** [RoundManager.select_melee_target] *)
Definition select_melee_target (attacking_player : pid) (w : GameState)
    (ins : list Inp) : Res GameState (option CardId * list Inp) :=
  let targets := available_targets w attacking_player in
  match targets with
  | [] => Ok (None, ins) w
  | _ =>
      match choose_index (length targets) ins with
      | Some (i, rest) => Ok (targets !! i, rest) w
      | None => Raise EOFError w
      end
  end.

(** [RoundManager.perform_selected_melee_action] *)
Definition perform_selected_melee_action (attacking_player : pid)
    (selected_card : CardId) (w : GameState) (ins : list Inp)
    : Res GameState (list Inp) :=
  if Card.action_point (get_card w selected_card) <=? 0 then
    Ok ins (emit (EvNoActionPoints selected_card) w)
  else
    match select_melee_target attacking_player w ins with
    | Raise e w1 => Raise e w1
    | Ok (None, rest) w1 => Ok rest (emit EvNoTarget w1)
    | Ok (Some target, rest) w1 =>
        let w2 := apply_damage_to_target selected_card target w1 in
        Ok rest (upd_card selected_card
                   (fun cd => Card.with_action_point (Card.action_point cd - 1) cd) w2)
    end.

(** ** Ranged *)

(** The card name that [check_source_of_damage] looks for, by sub-class. *)
Definition damage_source (sub_class : string) : option string :=
  if bool_decide (sub_class ∈ ["2"; "3"; "Jack"]) then Some "Ammo"
  else if bool_decide (sub_class ∈ ["8"; "9"; "Queen"]) then Some "Magic"
  else None.

(** [RoundManager.check_source_of_damage] *)
Definition check_source_of_damage (card : CardId) (p : pid) (w : GameState)
    : bool * GameState :=
  match damage_source (Card.sub_class (get_card w card)) with
  | None => (false, w)
  | Some src =>
      match find (fun h => bool_decide (Card.name (get_card w h) = src))
                 (Player.hand (get_player w p)) with
      | Some hand_card =>
          let w1 := upd_player p (fun pl => Player.with_hand (py_remove hand_card (Player.hand pl)) pl) w in
          (true, upd_player p (fun pl => Player.with_discard_pile (Player.discard_pile pl ++ [hand_card]) pl) w1)
      | None => (false, w)
      end
  end.

(** The resource a ranged attacker needs, in the words of the
    specification: Ammo for the close sub-classes, Magic for the others. *)
Definition required_source (sub_class : string) : string :=
  if bool_decide (sub_class ∈ ["2"; "3"; "Jack"]) then "Ammo" else "Magic".

(** The player holds a card of that name in hand. *)
Definition holds_source (w : GameState) (p : pid) (src : string) : Prop :=
  exists h, h ∈ Player.hand (get_player w p) /\ Card.name (get_card w h) = src.

(** [RoundManager.perform_selected_ranged_action].  [Card] has no method
    [is_joker] and [RoundManager] no method [handle_fz_ranged_attack], so
    both branches raise [AttributeError] at their first call. *)
Definition perform_selected_ranged_action (p : pid) (selected_card : CardId)
    (w : GameState) : Res GameState unit :=
  if py_in selected_card (Player.battlement_zone (get_player w p)) then
    Raise AttributeError w
  else if py_in selected_card (Player.field_zone (get_player w p)) then
    Raise AttributeError w
  else
    Ok tt (upd_card selected_card
             (fun cd => Card.with_action_point (Card.action_point cd - 1) cd) w).

(** The characters offered by [handle_ranged_actions]. *)
Definition ranged_characters (w : GameState) (p : pid) : list CardId :=
  filter (fun c => Card.attack_type (get_card w c) = "Ranged" /\
                   0 < Card.action_point (get_card w c))
         (Player.field_zone (get_player w p) ++ Player.battlement_zone (get_player w p)).

(** The loop of [RoundManager.handle_ranged_actions]; [taken] is
    [ranged_actions_taken]. *)
Fixpoint handle_ranged_loop (p : pid) (taken : bool) (w : GameState)
    (ins : list Inp) {struct ins} : Res GameState (list Inp) :=
  match ranged_characters w p with
  | [] => Ok ins (if taken then w else emit EvNoRanged w)
  | _ =>
      match ins with
      | [] => Raise EOFError w
      | Word s :: rest =>
          if bool_decide (s = "pass") then Ok rest w
          else handle_ranged_loop p taken w rest
      | Num z :: rest =>
          if (0 <=? z) && (z <? Z.of_nat (length (ranged_characters w p))) then
            match ranged_characters w p !! Z.to_nat z with
            | Some selected_card =>
                match check_source_of_damage selected_card p w with
                | (true, w1) =>
                    match perform_selected_ranged_action p selected_card w1 with
                    | Ok _ w2 => handle_ranged_loop p true w2 rest
                    | Raise e w2 => Raise e w2
                    end
                | (false, w1) =>
                    handle_ranged_loop p taken (emit EvInsufficientSource w1) rest
                end
            | None => handle_ranged_loop p taken w rest
            end
          else handle_ranged_loop p taken w rest
      end
  end.

(** [RoundManager.handle_ranged_actions] *)
Definition handle_ranged_actions (p : pid) (w : GameState) (ins : list Inp)
    : Res GameState (list Inp) :=
  handle_ranged_loop p false w ins.

(** ** Joker damage (RoundManager) *)

Inductive ZoneName := Hand | Wall | Battlement | Field | Discard.

#[global] Instance ZoneName_eq_dec : EqDecision ZoneName.
Proof. solve_decision. Defined.

(** A zone is a list object owned by a player; passing it to a method
    passes the reference, modelled by the owner and the attribute name. *)
Definition zone_get (w : GameState) (p : pid) (z : ZoneName) : list CardId :=
  match z with
  | Hand => Player.hand (get_player w p)
  | Wall => Player.wall (get_player w p)
  | Battlement => Player.battlement_zone (get_player w p)
  | Field => Player.field_zone (get_player w p)
  | Discard => Player.discard_pile (get_player w p)
  end.

Definition zone_set (p : pid) (z : ZoneName) (v : list CardId) (w : GameState) : GameState :=
  match z with
  | Hand => upd_player p (Player.with_hand v) w
  | Wall => upd_player p (Player.with_wall v) w
  | Battlement => upd_player p (Player.with_battlement_zone v) w
  | Field => upd_player p (Player.with_field_zone v) w
  | Discard => upd_player p (Player.with_discard_pile v) w
  end.

(** [RoundManager.calculate_joker_damage]: the loop over the acting
    player's field zone, [total] being [total_damage]. *)
Fixpoint calculate_joker_damage_loop (cards : list CardId) (total : Z)
    (w : GameState) (ins : list Inp) : Res GameState (Z * list Inp) :=
  match cards with
  | [] => Ok (total, ins) w
  | card :: cards' =>
      match get_yes_no_input ins with
      | None => Raise EOFError w
      | Some (true, rest) =>
          calculate_joker_damage_loop cards' (total + 1)
            (upd_card card (fun cd => Card.with_action_point (Card.action_point cd - 1) cd) w)
            rest
      | Some (false, rest) => calculate_joker_damage_loop cards' total w rest
      end
  end.

Definition calculate_joker_damage (p : pid) (w : GameState) (ins : list Inp)
    : Res GameState (Z * list Inp) :=
  calculate_joker_damage_loop (Player.field_zone (get_player w p)) 2 w ins.

(** What the expression [zone.name] evaluates to in the first line of the
    loop of [assign_damage_to_zone]; [None] stands for [AttributeError].
    Every zone is a plain Python list, which has no attribute [name]. *)
Definition list_name_attribute : option string := None.

(** [RoundManager.assign_damage_to_zone], the [while damage > 0 and zone]
    loop, by recursion on [damage].  [zone_name] is the value of
    [zone.name].  The flag [is_wall] only selects a message and is left
    out. *)
Fixpoint assign_damage_to_zone (zone_name : option string) (p : pid)
    (z : ZoneName) (damage : nat) (w : GameState) (ins : list Inp)
    : Res GameState (list Inp) :=
  match damage with
  | O => Ok ins w
  | S damage' =>
      match zone_get w p z with
      | [] => Ok ins w
      | zone =>
          match zone_name with
          | None => Raise AttributeError w
          | Some _ =>
              match choose_index (length zone) ins with
              | None => Raise EOFError w
              | Some (index_choice, rest) =>
                  match zone !! index_choice with
                  | None => Ok rest w
                  | Some target_card =>
                      let w1 := upd_card target_card
                                  (fun cd => Card.with_damage_points
                                               (Z.max (Card.damage_points cd - 1) 0) cd) w in
                      let w2 := if Card.damage_points (get_card w1 target_card) <=? 0
                                then zone_set p z (py_remove target_card (zone_get w1 p z)) w1
                                else w1 in
                      assign_damage_to_zone zone_name p z damage' w2 rest
                  end
              end
          end
      end
  end.

(** [RoundManager.handle_joker_attack] for a given value of [zone.name].
    [total_damage] is passed by value and never reassigned, so both guards
    [if total_damage > 0] test the full total. *)
Definition handle_joker_attack_with (zone_name : option string) (p : pid)
    (w : GameState) (ins : list Inp) : Res GameState (list Inp) :=
  let opp := opponent (Some p) in
  match calculate_joker_damage p w ins with
  | Raise e w1 => Raise e w1
  | Ok (total_damage, ins1) w1 =>
      match assign_damage_to_zone zone_name opp Field (Z.to_nat total_damage) w1 ins1 with
      | Raise e w2 => Raise e w2
      | Ok ins2 w2 =>
          match (if 0 <? total_damage
                 then assign_damage_to_zone zone_name opp Wall (Z.to_nat total_damage) w2 ins2
                 else Ok ins2 w2) with
          | Raise e w3 => Raise e w3
          | Ok ins3 w3 =>
              if 0 <? total_damage
              then assign_damage_to_zone zone_name opp Battlement (Z.to_nat total_damage) w3 ins3
              else Ok ins3 w3
          end
      end
  end.

(** [RoundManager.handle_joker_attack] as the source runs it. *)
Definition handle_joker_attack (p : pid) (w : GameState) (ins : list Inp)
    : Res GameState (list Inp) :=
  handle_joker_attack_with list_name_attribute p w ins.

(** ** The Action Sequence Pile *)

(** The round manager: the game state, the pile, and a ghost record of the
    pairs handed to [resolve_asp_card], in call order (the first message of
    that method). *)
Record Game := mkGame {
  gs : GameState;
  asp : list (pid * CardId);
  resolved : list (pid * CardId)
}.

Definition other (p : pid) : pid := match p with P0 => P1 | P1 => P0 end.

Inductive AspAction := ActCard (card : CardId) | ActToken | ActStats.

(** [Player.choose_action_for_asp]: lines are read until one is an index
    into the hand, whose card is popped and returned, or one of the words
    ['token'] and ['stats']. *)
Fixpoint choose_action_for_asp (p : pid) (w : GameState) (ins : list Inp)
    : Res GameState (AspAction * list Inp) :=
  match ins with
  | [] => Raise EOFError w
  | Num z :: rest =>
      if (0 <=? z) && (z <? Z.of_nat (length (Player.hand (get_player w p)))) then
        match py_pop_at (Z.to_nat z) (Player.hand (get_player w p)) with
        | Some (hand', card) =>
            Ok (ActCard card, rest) (upd_player p (Player.with_hand hand') w)
        | None => choose_action_for_asp p w rest
        end
      else choose_action_for_asp p w rest
  | Word s :: rest =>
      if bool_decide (s = "token") then Ok (ActToken, rest) w
      else if bool_decide (s = "stats") then Ok (ActStats, rest) w
      else choose_action_for_asp p w rest
  end.

(** The placement loop of [RoundManager.handle_asp_actions] with
    [Player.choose_action_for_asp] inlined; [turn] is the player whose
    prompt is open.  An index in range commits that hand card, ['stats']
    passes the turn, ['token'] ends placement, anything else prompts the
    same player again. *)
Fixpoint asp_placement (turn : pid) (g : Game) (ins : list Inp)
    : Res Game (list Inp) :=
  match ins with
  | [] => Raise EOFError g
  | Num z :: rest =>
      if (0 <=? z) && (z <? Z.of_nat (length (Player.hand (get_player (gs g) turn)))) then
        match py_pop_at (Z.to_nat z) (Player.hand (get_player (gs g) turn)) with
        | Some (hand', card) =>
            asp_placement (other turn)
              (mkGame (upd_player turn (Player.with_hand hand') (gs g))
                      (asp g ++ [(turn, card)]) (resolved g))
              rest
        | None => asp_placement turn g rest
        end
      else asp_placement turn g rest
  | Word s :: rest =>
      if bool_decide (s = "token") then Ok rest g
      else if bool_decide (s = "stats") then asp_placement (other turn) g rest
      else asp_placement turn g rest
  end.

(** The placement sequence of a run of the placement loop: the pairs
    (player, card) that the successive calls of [choose_action_for_asp]
    return with the action ['card'], in the order of the calls, up to the
    token or the end of the input.  It is read off the hands and the lines
    typed; the pile plays no part in it. *)
Fixpoint placement_sequence (turn : pid) (w : GameState) (ins : list Inp)
    : list (pid * CardId) :=
  match ins with
  | [] => []
  | Num z :: rest =>
      if (0 <=? z) && (z <? Z.of_nat (length (Player.hand (get_player w turn)))) then
        match py_pop_at (Z.to_nat z) (Player.hand (get_player w turn)) with
        | Some (hand', card) =>
            (turn, card)
            :: placement_sequence (other turn) (upd_player turn (Player.with_hand hand') w) rest
        | None => placement_sequence turn w rest
        end
      else placement_sequence turn w rest
  | Word s :: rest =>
      if bool_decide (s = "token") then []
      else if bool_decide (s = "stats") then placement_sequence (other turn) w rest
      else placement_sequence turn w rest
  end.

Inductive AspChoice := Reveal | DiscardIt | PlaceInWall.

(** [RoundManager.get_asp_card_choice] *)
Fixpoint get_asp_card_choice (ins : list Inp) : option (AspChoice * list Inp) :=
  match ins with
  | [] => None
  | Num 1 :: rest => Some (Reveal, rest)
  | Num 2 :: rest => Some (DiscardIt, rest)
  | Num 3 :: rest => Some (PlaceInWall, rest)
  | _ :: rest => get_asp_card_choice rest
  end.

(** [RoundManager.handle_trap_card]: [resolve_melee_trap] and
    [resolve_ranged_trap] are not defined anywhere, so reaching either call
    raises [AttributeError]. *)
Definition handle_trap_card (p : pid) (card : CardId) (w : GameState) : Res GameState unit :=
  if bool_decide (Card.attack_type (get_card w card) = "melee") then Raise AttributeError w
  else if bool_decide (Card.attack_type (get_card w card) = "ranged") then Raise AttributeError w
  else Ok tt w.

Section ASP.

(** [Player.reveal_and_resolve_card] and everything below it (abilities,
    the player-side Joker) are kept abstract.  No method reachable from
    it mentions the pile, hence its type: it sees the game state only. *)
Variable reveal_and_resolve_card :
  pid -> CardId -> GameState -> list Inp -> Res GameState (list Inp).

Definition with_gs (g : Game) (w : GameState) : Game :=
  mkGame w (asp g) (resolved g).

(** [RoundManager.resolve_asp_card] *)
Definition resolve_asp_card (p : pid) (card : CardId) (g : Game) (ins : list Inp)
    : Res Game (list Inp) :=
  let g1 := mkGame (gs g) (asp g) (resolved g ++ [(p, card)]) in
  if Card.is_trap (get_card (gs g1) card) then
    match handle_trap_card p card (gs g1) with
    | Ok _ w => Ok ins (with_gs g1 w)
    | Raise e w => Raise e (with_gs g1 w)
    end
  else
    match get_asp_card_choice ins with
    | None => Raise EOFError g1
    | Some (Reveal, rest) =>
        match reveal_and_resolve_card p card (gs g1) rest with
        | Ok rest' w => Ok rest' (with_gs g1 w)
        | Raise e w => Raise e (with_gs g1 w)
        end
    | Some (DiscardIt, rest) => Ok rest (with_gs g1 (discard_card p card (gs g1)))
    | Some (PlaceInWall, rest) => Ok rest (with_gs g1 (place_card_in_wall p card (gs g1)))
    end.

(** [RoundManager.resolve_asp]: [while self.asp: player, card = self.asp.pop(); ...].
    [fuel] bounds the number of iterations. *)
Fixpoint resolve_asp_loop (fuel : nat) (g : Game) (ins : list Inp)
    : Res Game (list Inp) :=
  match py_pop (asp g) with
  | None => Ok ins g
  | Some (asp', (p, card)) =>
      match fuel with
      | O => Ok ins g
      | S fuel' =>
          match resolve_asp_card p card (mkGame (gs g) asp' (resolved g)) ins with
          | Ok ins' g' => resolve_asp_loop fuel' g' ins'
          | Raise e g' => Raise e g'
          end
      end
  end.

Definition resolve_asp (g : Game) (ins : list Inp) : Res Game (list Inp) :=
  resolve_asp_loop (length (asp g)) g ins.

(** [RoundManager.handle_asp_actions] *)
Definition handle_asp_actions (g : Game) (ins : list Inp) : Res Game (list Inp) :=
  match asp_placement P0 g ins with
  | Ok rest g1 => resolve_asp g1 rest
  | Raise e g1 => Raise e g1
  end.

End ASP.

(** ** Decks and the initial deal *)

(** A row of the card catalog. *)
Record Row := mkRow {
  row_card_name : string;
  row_character_class : string;
  row_damage_bonus : Z;
  row_attack_type : string;
  row_special_ability_trigger : bool;
  row_attack_value : Z;
  row_action_point : Z;
  row_damage_points : Z;
  row_sub_class : string;
  row_cast_ability : string;
  row_special_ability : string;
  row_is_a_character : bool
}.

Definition card_of_row (r : Row) : Card.t :=
  Card.init (row_card_name r) (row_character_class r) (row_damage_bonus r)
    (row_attack_type r) (row_special_ability_trigger r) (row_attack_value r)
    (row_action_point r) (row_damage_points r) (row_sub_class r)
    (row_cast_ability r) (row_special_ability r) (row_is_a_character r).

(** [Deck.create_joker_card] *)
Definition create_joker_card : Card.t :=
  Card.init "Joker" "-" 0 "Ranged" true 2 0 1 "-" "Uber Damage"
    "Deals unblockable, ravage, preternatural, ranged damage equal to 2 plus the characters' bonus damage for each Action Point off that Character"
    false.

(** [Deck.load_cards_from_csv]: one new card object per row. *)
Definition load_cards_from_csv (rows : list Row) (h : list Card.t)
    : list Card.t * list CardId :=
  (h ++ map card_of_row rows, seq (length h) (length rows)).

(** [Deck.draw]: [None] when the deck is empty. *)
Definition Deck_draw (cards : list CardId) : option (list CardId * CardId) :=
  py_pop cards.

(** [[deck.draw() for _ in range(n)]]: the cards drawn, in order, and the
    rest of the deck; [None] when the deck runs out, in which case the
    source puts [None] into the hand. *)
Fixpoint draw_n (n : nat) (cards : list CardId) : option (list CardId * list CardId) :=
  match n with
  | O => Some ([], cards)
  | S k =>
      match Deck_draw cards with
      | None => None
      | Some (cards', c) =>
          match draw_n k cards' with
          | Some (drawn, rest) => Some (c :: drawn, rest)
          | None => None
          end
      end
  end.

Definition with_decks (d : gmap string (list CardId)) (w : GameState) : GameState :=
  mkGS (heap w) (player0 w) (player1 w) d (out w).

(** The body of the loop of [GameState.assign_initial_cards]. *)
Definition deal_initial (p : pid) (w : GameState) : option GameState :=
  let key := Player.name (get_player w p) in
  match decks w !! key with
  | None => None
  | Some deck =>
      match draw_n 20 deck with
      | None => None
      | Some (drawn, rest) =>
          let w1 := with_decks (<[key := rest]> (decks w)) w in
          let w2 := upd_player p (Player.with_hand drawn) w1 in
          let w3 := upd_player p (fun pl => Player.with_wall (take 10 (Player.hand pl)) pl) w2 in
          Some (upd_player p (fun pl => Player.with_hand (drop 10 (Player.hand pl)) pl) w3)
      end
  end.

(** [GameState.assign_initial_cards] *)
Definition assign_initial_cards (w : GameState) : option GameState :=
  match deal_initial P0 w with
  | Some w1 => deal_initial P1 w1
  | None => None
  end.

Section Decks.

(** [random.shuffle]: the [k]-th call rearranges its list in some way. *)
Variable shuffle : nat -> list CardId -> list CardId.

(** [Deck.__init__], as the [k]-th deck built: the list of catalog cards
    is doubled by [* 2], which repeats the references, and the one Joker
    object is appended twice. *)
Definition Deck_init (k : nat) (rows : list Row) (h : list Card.t)
    : list Card.t * list CardId :=
  let '(h1, loaded) := load_cards_from_csv rows h in
  let cards := loaded ++ loaded in
  let joker := length h1 in
  let h2 := h1 ++ [create_joker_card] in
  (h2, shuffle k ((cards ++ [joker]) ++ [joker])).

(** The state built by [GameState.__init__] before the initial deal: one
    deck per player, stored under the player's name. *)
Definition GameState_fresh (rows : list Row) (name0 name1 : string) : GameState :=
  let '(h1, deck0) := Deck_init 0 rows [] in
  let '(h2, deck1) := Deck_init 1 rows h1 in
  mkGS h2 (Player.init name0) (Player.init name1)
       (<[name1 := deck1]> (<[name0 := deck0]> ∅)) [].

(** [GameState.__init__] *)
Definition GameState_init (rows : list Row) (name0 name1 : string) : option GameState :=
  assign_initial_cards (GameState_fresh rows name0 name1).

End Decks.

(** ** Scoring *)

(** [GameState.calculate_points] *)
Definition calculate_points (p : pid) (w : GameState) : Z :=
  2 * Z.of_nat (length (filter (fun c => Card.is_a_character (get_card w c) = true)
                               (Player.field_zone (get_player w p))))
  + 2 * Z.of_nat (length (filter (fun c => Card.is_trap (get_card w c) = true)
                                 (Player.wall (get_player w p)))).

(** Python's [max(xs, key=f)] on a non-empty sequence [x :: xs]: the first
    element whose key is maximal. *)
Fixpoint py_max_by {A} (key : A -> Z) (x : A) (xs : list A) : A :=
  match xs with
  | [] => x
  | y :: xs' => py_max_by key (if key x <? key y then y else x) xs'
  end.

(** [GameState.determine_winner] *)
Definition determine_winner (w : GameState) : pid * Z :=
  let winner := py_max_by (fun p => calculate_points p w) P0 [P1] in
  (winner, calculate_points winner w).

(** The score in the words of the specification: twice the characters in
    the own field zone plus twice the trap-rank cards lying face-down in
    the own wall. *)
Definition spec_score (p : pid) (w : GameState) : Z :=
  2 * Z.of_nat (length (filter (fun c => Card.is_a_character (get_card w c) = true)
                               (Player.field_zone (get_player w p))))
  + 2 * Z.of_nat (length (filter (fun c => Card.is_trap (get_card w c) = true /\
                                           Card.is_face_down (get_card w c) = true)
                                 (Player.wall (get_player w p)))).

(** Every card object lies face-down.  [flip_card] is never called and
    the only assignment to [is_face_down] writes [True]. *)
Definition all_face_down (w : GameState) : Prop :=
  Forall (fun cd => Card.is_face_down cd = true) (heap w).

(** ** Who holds a card *)

Inductive Container :=
  | InZone (p : pid) (z : ZoneName)
  | InDeck (p : pid).

#[global] Instance Container_eq_dec : EqDecision Container.
Proof. solve_decision. Defined.

Definition all_containers : list Container :=
  flat_map (fun p => [InZone p Hand; InZone p Wall; InZone p Battlement;
                      InZone p Field; InZone p Discard; InDeck p]) [P0; P1].

Definition contents (w : GameState) (k : Container) : list CardId :=
  match k with
  | InZone p z => zone_get w p z
  | InDeck p => default [] (decks w !! Player.name (get_player w p))
  end.

(** The containers that reference [c], and the total number of references. *)
Definition holders (c : CardId) (w : GameState) : list Container :=
  filter (fun k => c ∈ contents w k) all_containers.

Definition references (c : CardId) (w : GameState) : nat :=
  sum_list (map (fun k => refs_in c (contents w k)) all_containers).

(** ** Example states *)

Module C1_example.
(** A character with 3 damage points lying in the field zone of the
    player it belongs to. *)
Definition victim : Card.t :=
  Card.with_player (Some P0) (Card.init "King of Hearts" "Warrior" 0 "Melee" false 2 1 3 "King" "-" "-" true).
Definition w : GameState :=
  mkGS [victim] (Player.mk "Player1" [] [] [] [0%nat] []) (Player.init "Player2") ∅ [].
End C1_example.

Module C2_example.
(** Player 1 attacks with a melee character (attack value 2, one action
    point) out of the field zone; player 2 has an empty field zone and a
    single 1-point card in the wall.  As everywhere in the program, no
    card has had [set_player] called on it. *)
Definition attacker : Card.t :=
  Card.init "King of Spades" "Warrior" 0 "Melee" false 2 1 3 "King" "-" "-" true.
Definition wall_card : Card.t :=
  Card.init "4" "-" 0 "-" false 0 0 1 "-" "Instant block" "-" false.
Definition w : GameState :=
  mkGS [attacker; wall_card]
       (Player.mk "Player1" [] [] [] [0%nat] [])
       (Player.mk "Player2" [] [1%nat] [] [] []) ∅ [].

(** The same with a 1-point character in player 2's field zone. *)
Definition field_card : Card.t :=
  Card.init "2 of Hearts" "Marksman" 0 "Ranged" false 1 1 1 "2" "-" "-" true.
Definition w_field : GameState :=
  mkGS [attacker; field_card]
       (Player.mk "Player1" [] [] [] [0%nat] [])
       (Player.mk "Player2" [] [] [] [1%nat] []) ∅ [].

(** A character owned (through [set_player]) by player 1 and standing in
    that player's battlement zone. *)
Definition guard : Card.t :=
  Card.with_player (Some P0) (Card.init "Queen of Clubs" "Mage" 0 "Ranged" false 1 1 2 "Queen" "-" "-" true).
Definition w_guard : GameState :=
  mkGS [guard] (Player.mk "Player1" [] [] [0%nat] [] []) (Player.init "Player2") ∅ [].
End C2_example.

Module C6_example.
(** An attacker with one action point facing an opponent whose field
    zone and wall are both empty. *)
Definition w_no_target : GameState :=
  mkGS [C2_example.attacker]
       (Player.mk "Player1" [] [] [] [0%nat] []) (Player.init "Player2") ∅ [].
End C6_example.

Module C7_example.
(** A ranged character of sub-class Jack with one action point in the
    battlement zone; the hand holds a single card, which is not Ammo. *)
Definition archer : Card.t :=
  Card.init "Jack of Hearts" "Marksman" 0 "Ranged" false 1 1 2 "Jack" "-" "-" true.
Definition four : Card.t :=
  Card.init "4" "-" 0 "-" false 0 0 1 "-" "Instant block" "-" false.
Definition w : GameState :=
  mkGS [archer; four]
       (Player.mk "Player1" [1%nat] [] [0%nat] [] []) (Player.init "Player2") ∅ [].
End C7_example.

Module C4_example.
(** Player 1 resolves the Joker with one character in the field zone;
    player 2 has one 5-point card in each of field zone, wall and
    battlement zone. *)
Definition five (name : string) : Card.t :=
  Card.init name "Warrior" 0 "Melee" false 1 1 5 "King" "-" "-" true.
Definition w : GameState :=
  mkGS [C2_example.attacker; five "King of Hearts"; five "King of Clubs";
        five "King of Diamonds"]
       (Player.mk "Player1" [] [] [] [0%nat] [])
       (Player.mk "Player2" [] [2%nat] [3%nat] [1%nat] []) ∅ [].

(** One "yes" to spend the attacker's action point, then index 0 at
    every target prompt. *)
Definition ins : list Inp := Word "yes" :: repeat (Num 0) 9.

Definition points (r : Res GameState (list Inp)) : list Z :=
  match r with
  | Ok _ w' | Raise _ w' => map (fun c => Card.damage_points (get_card w' c)) [1%nat; 2%nat; 3%nat]
  end.
End C4_example.

Module C3_example.
(** Three plain cards A, B, C (references 0, 1, 2): player 1 holds A and
    C, player 2 holds B. *)
Definition plain (name : string) : Card.t :=
  Card.init name "-" 0 "-" false 0 0 1 "-" "-" "-" false.
Definition g : Game :=
  mkGame (mkGS [plain "4"; plain "5"; plain "6"]
               (Player.mk "Player1" [0%nat; 2%nat] [] [] [] [])
               (Player.mk "Player2" [1%nat] [] [] [] []) ∅ [])
         [] [].

(** Player 1 commits A, player 2 commits B, player 1 commits C, player 2
    places the token; each card is then placed in the wall (choice 3). *)
Definition ins : list Inp :=
  [Num 0; Num 0; Num 0; Word "token"; Num 3; Num 3; Num 3].

(** A stand-in for the abstract reveal step; it is not reached here. *)
Definition no_reveal (p : pid) (c : CardId) (w : GameState) (ins : list Inp)
    : Res GameState (list Inp) := Ok ins w.
End C3_example.

Module C8_example.
(** A catalog of 52 rows, decks left in construction order. *)
Definition row : Row := mkRow "5" "-" 0 "-" false 0 0 1 "-" "-" "-" false.
Definition rows : list Row := repeat row 52.
Definition no_shuffle (k : nat) (l : list CardId) : list CardId := l.
End C8_example.

Module C9_example.
(** Player 1 has two characters in the field zone; player 2 has one
    character there and one trap-rank card in the wall. *)
Definition seven : Card.t :=
  Card.init "7" "-" 0 "-" false 0 0 1 "-" "-" "Trap" false.
Definition w : GameState :=
  mkGS [C2_example.attacker; C2_example.field_card; C7_example.archer; seven]
       (Player.mk "Player1" [] [] [] [0%nat; 1%nat] [])
       (Player.mk "Player2" [] [3%nat] [] [2%nat] []) ∅ [].
(** The same with a second trap in player 2's wall. *)
Definition w' : GameState :=
  mkGS [C2_example.attacker; C2_example.field_card; C7_example.archer; seven; seven]
       (Player.mk "Player1" [] [] [] [0%nat; 1%nat] [])
       (Player.mk "Player2" [] [3%nat; 4%nat] [] [2%nat] []) ∅ [].
End C9_example.

Module C5_example.
(** Player 1's wall holds 13 cards; two more cards wait to be placed. *)
Definition w : GameState :=
  mkGS (repeat (C3_example.plain "5") 15)
       (Player.mk "Player1" [] (seq 0 13) [] [] [])
       (Player.init "Player2") ∅ [].
Definition placements : list (pid * CardId) := [(P0, 13%nat); (P0, 14%nat)].
End C5_example.


(** * Further operations *)

(** ** Drawing *)

(** [Player.draw_card]: a missing deck ([KeyError], caught in the method)
    and an empty deck both leave the state as it is. *)
Definition draw_card (p : pid) (w : GameState) : GameState :=
  let key := Player.name (get_player w p) in
  match decks w !! key with
  | None => w
  | Some deck =>
      match Deck_draw deck with
      | None => w
      | Some (deck', card) =>
          upd_player p (fun pl => Player.with_hand (Player.hand pl ++ [card]) pl)
            (with_decks (<[key := deck']> (decks w)) w)
      end
  end.

(** [for _ in range(n): self.draw_card()] *)
Fixpoint draw_cards (n : nat) (p : pid) (w : GameState) : GameState :=
  match n with
  | O => w
  | S n' => draw_cards n' p (draw_card p w)
  end.

(** ** Moving destroyed cards *)

(** [Player.remove_from_zone_and_discard] *)
Definition remove_from_zone_and_discard (p : pid) (card : CardId) (w : GameState) : GameState :=
  let w1 :=
    if py_in card (Player.field_zone (get_player w p)) then
      upd_player p (fun pl => Player.with_field_zone (py_remove card (Player.field_zone pl)) pl) w
    else if py_in card (Player.battlement_zone (get_player w p)) then
      upd_player p (fun pl => Player.with_battlement_zone (py_remove card (Player.battlement_zone pl)) pl) w
    else w in
  upd_player p (fun pl => Player.with_discard_pile (Player.discard_pile pl ++ [card]) pl) w1.

(** The loop [for card in zone[:]: if <dead>: zone.remove(card);
    discard_pile.append(card)]: [copy] is what is left of the copy being
    iterated, [zone] and [discard] the live lists. *)
Fixpoint sweep (dead : CardId -> bool) (copy zone discard : list CardId)
    : list CardId * list CardId :=
  match copy with
  | [] => (zone, discard)
  | card :: copy' =>
      if dead card then sweep dead copy' (py_remove card zone) (discard ++ [card])
      else sweep dead copy' zone discard
  end.

(** One zone of one player swept into that player's discard pile. *)
Definition sweep_zone (dead : CardId -> bool) (p : pid) (z : ZoneName) (w : GameState) : GameState :=
  let '(zone', discard') := sweep dead (zone_get w p z) (zone_get w p z) (zone_get w p Discard) in
  zone_set p Discard discard' (zone_set p z zone' w).

(** [Player.remove_destroyed_characters]: field zone, then battlement
    zone. *)
Definition remove_destroyed_characters (p : pid) (w : GameState) : GameState :=
  let dead := fun c => Card.damage_points (get_card w c) <=? 0 in
  sweep_zone dead p Battlement (sweep_zone dead p Field w).

(** The module-level [check_and_handle_zero_damage_points]: for each
    player, battlement zone then field zone, characters only. *)
Definition check_and_handle_zero_damage_points (w : GameState) : GameState :=
  let dead := fun c => Card.is_a_character (get_card w c) &&
                       (Card.damage_points (get_card w c) <=? 0) in
  let sweep_player := fun p w => sweep_zone dead p Field (sweep_zone dead p Battlement w) in
  sweep_player P1 (sweep_player P0 w).

(** ** Joker damage on the player side *)

(** [Player.damage_wall]: the loop [while damage > 0 and wall], by
    recursion on [damage].  Both branches of the trap test discard the
    card. *)
Fixpoint damage_wall_loop (target : pid) (damage : nat) (w : GameState) : GameState :=
  match damage with
  | O => w
  | S damage' =>
      match Player.wall (get_player w target) with
      | [] => w
      | damaged_card :: wall' =>
          let w1 := upd_player target (Player.with_wall wall') w in
          let w2 :=
            if negb (Card.is_trap (get_card w1 damaged_card) &&
                     bool_decide (Card.special_ability (get_card w1 damaged_card) = "Trap"))
            then upd_player target
                   (fun pl => Player.with_discard_pile (Player.discard_pile pl ++ [damaged_card]) pl) w1
            else upd_player target
                   (fun pl => Player.with_discard_pile (Player.discard_pile pl ++ [damaged_card]) pl) w1 in
          damage_wall_loop target damage' w2
      end
  end.

Definition damage_wall (target : pid) (damage : Z) (w : GameState) : GameState :=
  damage_wall_loop target (Z.to_nat damage) w.

(** [Player.damage_characters]: the loop [while damage > 0 and characters].
    Nothing in its body assigns to [damage]. *)
Fixpoint damage_characters (target : pid) (z : ZoneName) (damage : Z)
    (w : GameState) (ins : list Inp) : Res GameState (list Inp) :=
  if damage <=? 0 then Ok ins w
  else
    match zone_get w target z with
    | [] => Ok ins w
    | characters =>
        match ins with
        | [] => Raise EOFError w
        | Word _ :: rest => damage_characters target z damage w rest
        | Num index_choice :: rest =>
            if (0 <=? index_choice) && (index_choice <? Z.of_nat (length characters)) then
              match py_pop_at (Z.to_nat index_choice) characters with
              | None => damage_characters target z damage w rest
              | Some (characters', character) =>
                  let w1 := upd_card character
                              (fun cd => Card.with_damage_points (Card.damage_points cd - 1) cd) w in
                  if Card.damage_points (get_card w1 character) <=? 0 then
                    let w2 := upd_player target
                                (fun pl => Player.with_discard_pile
                                             (Player.discard_pile pl ++ [character]) pl) w1 in
                    damage_characters target z damage
                      (zone_set target z
                         (default [] (fst <$> py_pop_at (Z.to_nat index_choice) (zone_get w2 target z)))
                         w2)
                      rest
                  else damage_characters target z damage w1 rest
              end
            else damage_characters target z damage w rest
        end
    end.

Module X_draw_example.
(** Player 1 owns a deck of three cards and holds one card. *)
Definition w : GameState :=
  mkGS (repeat (C3_example.plain "5") 4)
       (Player.mk "Player1" [3%nat] [] [] [] [])
       (Player.init "Player2") {["Player1" := [0%nat; 1%nat; 2%nat]]} [].
End X_draw_example.

Module X_sweep_example.
(** Player 1's field zone holds a destroyed card (reference 0, damage
    points 0) twice and a healthy card once. *)
Definition dead_card : Card.t :=
  Card.init "3 of Clubs" "Marksman" 0 "Ranged" false 1 1 0 "3" "-" "-" true.
Definition w : GameState :=
  mkGS [dead_card; C2_example.attacker]
       (Player.mk "Player1" [] [] [] [0%nat; 1%nat; 0%nat] [])
       (Player.init "Player2") ∅ [].
End X_sweep_example.

Module X_joker_example.
(** Player 2's battlement zone holds two 1-point characters. *)
Definition weak (name : string) : Card.t :=
  Card.init name "Marksman" 0 "Ranged" false 1 1 1 "2" "-" "-" true.
Definition w : GameState :=
  mkGS [weak "2 of Hearts"; weak "2 of Spades"]
       (Player.init "Player1")
       (Player.mk "Player2" [] [] [0%nat; 1%nat] [] []) ∅ [].
End X_joker_example.

(** ** Movement *)

(** The outcome of a step that may fail on a list index. *)
Inductive MoveResult :=
  | Moved (w : GameState)
  | MoveIndexError (w : GameState).

(** [sorted(indices, reverse=True)] *)
Fixpoint insert_desc (i : nat) (l : list nat) : list nat :=
  match l with
  | [] => [i]
  | j :: l' => if (j <=? i)%nat then i :: l else j :: insert_desc i l'
  end.

Definition sort_desc (l : list nat) : list nat := foldr insert_desc [] l.

(** The loop [for idx in sorted(indices, reverse=True)] of
    [handle_player_movement]: [pop(idx)] raises [IndexError] when [idx]
    is no longer an index of the battlement zone. *)
Fixpoint move_loop (p : pid) (idxs : list nat) (w : GameState) : MoveResult :=
  match idxs with
  | [] => Moved w
  | idx :: idxs' =>
      match py_pop_at idx (Player.battlement_zone (get_player w p)) with
      | None => MoveIndexError w
      | Some (bz', card_to_move) =>
          let w1 := upd_player p (Player.with_battlement_zone bz') w in
          move_loop p idxs'
            (upd_player p (fun pl => Player.with_field_zone
                                       (Player.field_zone pl ++ [card_to_move]) pl) w1)
      end
  end.

(** [RoundManager.handle_player_movement], given the list [indices] that
    the comprehension [[int(idx) for idx in line.split() if idx.isdigit()]]
    builds from the line typed.  No line is read when the battlement zone
    is empty. *)
Definition handle_player_movement (p : pid) (indices : list nat) (w : GameState) : MoveResult :=
  match Player.battlement_zone (get_player w p) with
  | [] => Moved w
  | bz =>
      if forallb (fun idx => (idx <? length bz)%nat) indices
      then move_loop p (sort_desc indices) w
      else Moved w
  end.

(** A list of indices in strictly descending order. *)
Fixpoint strictly_desc (l : list nat) : Prop :=
  match l with
  | [] => True
  | i :: l' => Forall (fun j => (j < i)%nat) l' /\ strictly_desc l'
  end.

Definition move_state (r : MoveResult) : GameState :=
  match r with Moved w | MoveIndexError w => w end.

Module X_move_example.
(** Three characters in player 1's battlement zone. *)
Definition w : GameState :=
  mkGS (repeat C2_example.attacker 3)
       (Player.mk "Player1" [] [] [0%nat; 1%nat; 2%nat] [] [])
       (Player.init "Player2") ∅ [].
End X_move_example.

(** ** Action points *)

(** The cards of a player's field zone followed by the battlement zone:
    [self.field_zone + self.battlement_zone]. *)
Definition field_and_battlement (w : GameState) (p : pid) : list CardId :=
  Player.field_zone (get_player w p) ++ Player.battlement_zone (get_player w p).

(** The body shared by the loops that write action points: a character
    gets the value [points] computes from its record, any other card is
    skipped. *)
Definition set_points (points : Card.t -> Z) (w : GameState) (card : CardId) : GameState :=
  if Card.is_a_character (get_card w card)
  then upd_card card (Card.with_action_point (points (get_card w card))) w
  else w.

(** The round baseline written by [reset_action_points]. *)
Definition baseline (cd : Card.t) : Z :=
  if bool_decide (Card.name cd ∈ ["Jack of Clubs"; "Jack of Diamonds"]) then 2 else 1.

(** [RoundManager.reset_action_points]: for each player, battlement zone
    then field zone. *)
Definition reset_action_points (w : GameState) : GameState :=
  fold_left
    (fun w p =>
       fold_left
         (fun w z => fold_left (set_points baseline) (zone_get w p z) w)
         [Battlement; Field] w)
    [P0; P1] w.

(** [RoundManager.restore_action_points]: for each player, field zone
    followed by battlement zone. *)
Definition restore_action_points (w : GameState) : GameState :=
  fold_left
    (fun w p => fold_left (set_points Card.initial_action_point) (field_and_battlement w p) w)
    [P0; P1] w.

(** [Player.calculate_unused_action_points] *)
Definition calculate_unused_action_points (p : pid) (w : GameState) : Z :=
  fold_left
    (fun total_points card =>
       let action_point := Card.action_point (get_card w card) in
       if 0 <? action_point then total_points + action_point else total_points)
    (field_and_battlement w p) 0.

(** [RoundManager.calculate_total_action_points] *)
Definition calculate_total_action_points (p : pid) (w : GameState) : Z :=
  fold_left (fun total card => total + Card.action_point (get_card w card))
            (field_and_battlement w p) 0.

(** [Player.can_perform_action] *)
Definition can_perform_action (p : pid) (w : GameState) : bool :=
  existsb (fun card => 0 <? Card.action_point (get_card w card)) (field_and_battlement w p).

(** [Player.remove_action_point] *)
Definition remove_action_point (p : pid) (w : GameState) : GameState :=
  match List.filter (fun card => 0 <? Card.action_point (get_card w card))
                    (field_and_battlement w p) with
  | [] => w
  | chosen_card :: _ =>
      upd_card chosen_card (fun cd => Card.with_action_point (Card.action_point cd - 1) cd) w
  end.

(** ** Refortify *)

(** [Player.has_card] *)
Definition has_card (p : pid) (card_name : string) (w : GameState) : bool :=
  existsb (fun card => bool_decide (Card.name (get_card w card) = card_name))
          (Player.hand (get_player w p)).

(** What [handle_place_card_action] does with the line it reads. *)
Definition place_line (p : pid) (line : Inp) (w : GameState) : GameState :=
  match line with
  | Num card_index =>
      if (0 <=? card_index) && (card_index <? Z.of_nat (length (Player.hand (get_player w p)))) then
        match py_pop_at (Z.to_nat card_index) (Player.hand (get_player w p)) with
        | Some (hand', selected_card) =>
            place_card_in_wall p selected_card (upd_player p (Player.with_hand hand') w)
        | None => w
        end
      else w
  | Word _ => w
  end.

(** [RoundManager.handle_place_card_action] (and the identical
    [Player.handle_place_card_action]): no line is read from an empty
    hand. *)
Definition handle_place_card_action (p : pid) (w : GameState) (ins : list Inp)
    : Res GameState (list Inp) :=
  match Player.hand (get_player w p) with
  | [] => Ok ins w
  | _ =>
      match ins with
      | [] => Raise EOFError w
      | line :: rest => Ok rest (place_line p line w)
      end
  end.

(** The loop of [RoundManager.refortify_phase]; [budget] is
    [unused_action_points].  ['draw'] with a card named Ten in hand calls
    [discard_specific_card], which reads [card.rank], an attribute no card
    has; ['discard'] calls [discard_card_from_hand], whose body is empty;
    ['reset trap'] does nothing.  The ['place'] branch is
    [handle_place_card_action] written out, so that the recursion is on
    the input. *)
Fixpoint refortify_loop (p : pid) (budget : Z) (w : GameState) (ins : list Inp)
    : Res GameState (list Inp) :=
  if budget <=? 0 then Ok ins w
  else
    match ins with
    | [] => Raise EOFError w
    | Num _ :: rest => refortify_loop p budget w rest
    | Word command :: rest =>
        if bool_decide (command ∈ ["draw"; "place"; "discard"; "reset trap"]) then
          if bool_decide (command = "draw") && has_card p "Ten" w then
            Raise AttributeError w
          else if bool_decide (command = "place") then
            match Player.hand (get_player w p) with
            | [] => refortify_loop p (budget - 1) w rest
            | _ =>
                match rest with
                | [] => Raise EOFError w
                | line :: rest' => refortify_loop p (budget - 1) (place_line p line w) rest'
                end
            end
          else refortify_loop p (budget - 1) w rest
        else if bool_decide (command = "zone state") then refortify_loop p budget w rest
        else if bool_decide (command = "continue") then Ok rest w
        else refortify_loop p budget w rest
    end.

(** [RoundManager.refortify_phase] *)
Definition refortify_phase (p : pid) (w : GameState) (ins : list Inp)
    : Res GameState (list Inp) :=
  refortify_loop p (calculate_unused_action_points p w) w ins.

(** The state a result carries, whether it returned or raised. *)
Definition res_state {A} (r : Res GameState A) : GameState :=
  match r with Ok _ w | Raise _ w => w end.

Module X_points_example.
(** Player 1's field zone: a Two-Eyed Jack listed with one action point in
    the catalog, and an ordinary character; the battlement zone holds a
    non-character card. *)
Definition jack_row : Row :=
  mkRow "Jack of Clubs" "Rogue" 0 "Ranged" false 1 1 2 "Jack" "-" "-" true.
Definition w : GameState :=
  mkGS [card_of_row jack_row; C2_example.attacker; C3_example.plain "4"]
       (Player.mk "Player1" [] [] [2%nat] [0%nat; 1%nat] [])
       (Player.init "Player2") ∅ [].
End X_points_example.

(** What a refortify phase may change for player [p]: hand cards may have
    gone to the wall or the discard pile and may have been laid face-down;
    nothing else differs. *)
Definition placed_only (p : pid) (w w' : GameState) : Prop :=
  Permutation (Player.hand (get_player w' p) ++ Player.wall (get_player w' p)
               ++ Player.discard_pile (get_player w' p))
              (Player.hand (get_player w p) ++ Player.wall (get_player w p)
               ++ Player.discard_pile (get_player w p)) /\
  (length (Player.hand (get_player w' p)) <= length (Player.hand (get_player w p)))%nat /\
  Player.battlement_zone (get_player w' p) = Player.battlement_zone (get_player w p) /\
  Player.field_zone (get_player w' p) = Player.field_zone (get_player w p) /\
  get_player w' (other p) = get_player w (other p) /\
  decks w' = decks w /\
  (forall c, Card.with_is_face_down true (get_card w' c)
             = Card.with_is_face_down true (get_card w c)).

Module X_refortify_example.
(** Player 1 has three unused action points on the field and three cards
    in hand, none of them named Ten. *)
Definition w : GameState :=
  mkGS [card_of_row X_points_example.jack_row; C2_example.attacker;
        C3_example.plain "4"; C3_example.plain "5"; C3_example.plain "6"]
       (Player.mk "Player1" [2%nat; 3%nat; 4%nat] [] [] [0%nat; 1%nat] [])
       (Player.init "Player2") ∅ [].
Definition ins : list Inp :=
  [Word "place"; Num 0; Word "discard"; Word "place"; Num 1; Word "place"; Num 0].
End X_refortify_example.

(** ** Targeted damage on the player side *)

(** [Player.select_target_and_deal_damage]: the prompt loop is
    [choose_index]; damage points are integers, so the conversion of the
    source is the identity. *)
Definition select_target_and_deal_damage (self : pid) (damage_amount : Z)
    (w : GameState) (ins : list Inp) : Res GameState (list Inp) :=
  let opp := opponent (Some self) in
  match Player.field_zone (get_player w opp) with
  | [] => Ok ins w
  | _ =>
      match choose_index (length (Player.field_zone (get_player w opp))) ins with
      | None => Raise EOFError w
      | Some (index_choice, rest) =>
          match Player.field_zone (get_player w opp) !! index_choice with
          | None => Ok rest w
          | Some target_card =>
              let w1 := upd_card target_card
                          (fun cd => Card.with_damage_points
                                       (Card.damage_points cd - damage_amount) cd) w in
              if Card.damage_points (get_card w1 target_card) <=? 0 then
                Ok rest
                   (upd_player opp
                      (fun pl => Player.with_discard_pile
                                   (Player.discard_pile pl ++ [target_card]) pl)
                      (upd_player opp
                         (fun pl => Player.with_field_zone
                                      (py_remove target_card (Player.field_zone pl)) pl)
                         w1))
              else Ok rest w1
          end
      end
  end.

(** Two states that differ at most in the damage points of their cards. *)
Definition same_but_damage_points (w w' : GameState) : Prop :=
  forall c, Card.with_damage_points 0 (get_card w' c)
            = Card.with_damage_points 0 (get_card w c).

(** What one call of [select_target_and_deal_damage] guarantees. *)
Definition targeted (self : pid) (damage_amount : Z) (w : GameState)
    (r : Res GameState (list Inp)) : Prop :=
  let opp := opponent (Some self) in
  let w' := res_state r in
  Permutation (Player.field_zone (get_player w' opp) ++ Player.discard_pile (get_player w' opp))
              (Player.field_zone (get_player w opp) ++ Player.discard_pile (get_player w opp)) /\
  get_player w' self = get_player w self /\
  Player.hand (get_player w' opp) = Player.hand (get_player w opp) /\
  Player.wall (get_player w' opp) = Player.wall (get_player w opp) /\
  Player.battlement_zone (get_player w' opp) = Player.battlement_zone (get_player w opp) /\
  decks w' = decks w /\
  same_but_damage_points w w' /\
  (w' = w \/
   exists target,
     target ∈ Player.field_zone (get_player w opp) /\
     (forall c, c <> target -> get_card w' c = get_card w c) /\
     ((target < length (heap w))%nat ->
      Card.damage_points (get_card w' target)
      = Card.damage_points (get_card w target) - damage_amount) /\
     (if Card.damage_points (get_card w' target) <=? 0
      then S (length (Player.field_zone (get_player w' opp)))
           = length (Player.field_zone (get_player w opp)) /\
           Player.discard_pile (get_player w' opp)
           = Player.discard_pile (get_player w opp) ++ [target]
      else get_player w' opp = get_player w opp)).

Module X_target_example.
(** Player 2's field zone holds a 3-point character and a 1-point
    character; player 1 types a word, an index out of range, then 1. *)
Definition w : GameState :=
  mkGS [C2_example.attacker; C2_example.field_card]
       (Player.mk "Player1" [] [] [] [] [])
       (Player.mk "Player2" [] [] [] [0%nat; 1%nat] []) ∅ [].
Definition ins : list Inp := [Word "x"; Num 7; Num 1; Num 0].
End X_target_example.

(** ** The Joker on the player side *)

(** [Player.choose_bonus_damage_zone] *)
Fixpoint choose_bonus_damage_zone (ins : list Inp) : option (string * list Inp) :=
  match ins with
  | [] => None
  | Word choice :: rest =>
      if bool_decide (choice = "bz") then Some ("battlement_zone", rest)
      else if bool_decide (choice = "fz") then Some ("field_zone", rest)
      else choose_bonus_damage_zone rest
  | Num _ :: rest => choose_bonus_damage_zone rest
  end.

(** [Player.choose_target_zone] *)
Definition choose_target_zone (self : pid) (bonus_damage_zone : string) (w : GameState)
    : string :=
  let field_zone := Player.field_zone (get_player w (opponent (Some self))) in
  if bool_decide (bonus_damage_zone = "bz") then
    match field_zone with [] => "wall" | _ => "field_zone" end
  else
    match field_zone with [] => "battlement_zone" | _ => "wall" end.

(** [getattr(player, name)] for the five card lists of a player; the other
    attributes of a player are not lists of cards and are left out. *)
Definition player_list_attribute (name : string) : option ZoneName :=
  if bool_decide (name = "hand") then Some Hand
  else if bool_decide (name = "wall") then Some Wall
  else if bool_decide (name = "battlement_zone") then Some Battlement
  else if bool_decide (name = "field_zone") then Some Field
  else if bool_decide (name = "discard_pile") then Some Discard
  else None.

(** [Player.apply_joker_damage]; [None] for a [target_zone] that names no
    card list. *)
Definition apply_joker_damage (self : pid) (target_zone : string) (total_damage : Z)
    (w : GameState) (ins : list Inp) : option (Res GameState (list Inp)) :=
  let target_player := opponent (Some self) in
  if bool_decide (target_zone = "wall") then
    Some (Ok ins (damage_wall target_player total_damage w))
  else
    match player_list_attribute target_zone with
    | Some z => Some (damage_characters target_player z total_damage w ins)
    | None => None
    end.

Module X_player_joker_example.
(** Player 2 has one character in the field zone, one in the battlement
    zone and a wall of one card; player 1 asks for the field zone. *)
Definition w : GameState :=
  mkGS [C2_example.attacker; C2_example.field_card; C2_example.wall_card]
       (Player.mk "Player1" [] [] [] [] [])
       (Player.mk "Player2" [] [2%nat] [1%nat] [0%nat] []) ∅ [].
Definition ins : list Inp := [Word "joker"; Word "fz"; Num 0].
End X_player_joker_example.

(** ** Cast abilities *)

(** Python's [sub in s] on strings. *)
Fixpoint py_str_in (sub s : string) : bool :=
  String.prefix sub s ||
  match s with
  | EmptyString => false
  | String _ s' => py_str_in sub s'
  end.

(** [Player.handle_draw_two_cards_ability]: one line is read, and anything
    but [self] designates the opponent. *)
Definition handle_draw_two_cards_ability (self : pid) (w : GameState) (ins : list Inp)
    : Res GameState (list Inp) :=
  match ins with
  | [] => Raise EOFError w
  | choice :: rest =>
      let target_player :=
        match choice with
        | Word s => if bool_decide (s = "self") then self else opponent (Some self)
        | Num _ => opponent (Some self)
        end in
      Ok rest (draw_card target_player (draw_card target_player w))
  end.

(** [Player.handle_heavy_armor_block] only prints. *)
Definition handle_heavy_armor_block (w : GameState) (ins : list Inp)
    : Res GameState (list Inp) :=
  Ok ins w.

(** [Player.handle_uber_damage]: [Player] has no method [select_target]. *)
Definition handle_uber_damage (w : GameState) (ins : list Inp)
    : Res GameState (list Inp) :=
  Raise AttributeError w.

(** [Player.execute_ability_based_on_text]: the handlers of four of the
    abilities are not defined in [Player], so looking them up raises
    [AttributeError]. *)
Definition execute_ability_based_on_text (self : pid) (ability_text : string)
    (w : GameState) (ins : list Inp) : Res GameState (list Inp) :=
  if py_str_in "Draws 2 Cards" ability_text then handle_draw_two_cards_ability self w ins
  else if py_str_in "Heavy armor block" ability_text then handle_heavy_armor_block w ins
  else if py_str_in "Ammo dealing" ability_text then Raise AttributeError w
  else if py_str_in "Magical Block or Damage" ability_text then Raise AttributeError w
  else if py_str_in "Instant block" ability_text then Raise AttributeError w
  else if py_str_in "Armor Block or Damage" ability_text then Raise AttributeError w
  else if py_str_in "Uber Damage" ability_text then handle_uber_damage w ins
  else Ok ins w.

(** [Player.resolve_non_character_card_ability] *)
Definition resolve_non_character_card_ability (self : pid) (card : CardId)
    (w : GameState) (ins : list Inp) : Res GameState (list Inp) :=
  execute_ability_based_on_text self (Card.cast_ability (get_card w card)) w ins.

(** All that drawing can change: cards are appended to hands. *)
Definition only_hands_grow (n : nat) (w w' : GameState) : Prop :=
  heap w' = heap w /\
  forall p,
    Player.hand (get_player w p) `prefix_of` Player.hand (get_player w' p) /\
    (length (Player.hand (get_player w' p)) <= length (Player.hand (get_player w p)) + n)%nat /\
    Player.name (get_player w' p) = Player.name (get_player w p) /\
    Player.wall (get_player w' p) = Player.wall (get_player w p) /\
    Player.battlement_zone (get_player w' p) = Player.battlement_zone (get_player w p) /\
    Player.field_zone (get_player w' p) = Player.field_zone (get_player w p) /\
    Player.discard_pile (get_player w' p) = Player.discard_pile (get_player w p).

Module X_ability_example.
(** A card that draws, the Joker, and a deck of three cards for
    player 2. *)
Definition drawer : Card.t :=
  Card.init "3" "-" 0 "-" false 0 0 1 "-" "Draws 2 Cards" "-" false.
Definition w : GameState :=
  mkGS [drawer; create_joker_card; C2_example.wall_card]
       (Player.mk "Player1" [0%nat; 1%nat] [] [] [] [])
       (Player.init "Player2") {["Player2" := [2%nat; 2%nat; 2%nat]]} [].
End X_ability_example.

(** ** Special abilities of characters *)

(** The loop of [Player.retribution_effect],
    [for opponent_card in opponent.field_zone: if opponent_card.has_attacked:
    opponent.field_zone.remove(opponent_card); ...], which removes from the
    list it iterates over.  A Python list iterator keeps an index [i] into
    the live list and stops when [i] is past its end; the index advances
    also after a removal.  [fuel] bounds the number of iterations. *)
Fixpoint retribution_loop (fuel : nat) (i : nat) (opp : pid) (w : GameState) : GameState :=
  match fuel with
  | O => w
  | S fuel' =>
      match Player.field_zone (get_player w opp) !! i with
      | None => w
      | Some opponent_card =>
          if Card.has_attacked (get_card w opponent_card) then
            retribution_loop fuel' (S i) opp
              (upd_player opp
                 (fun pl => Player.with_discard_pile
                              (Player.discard_pile pl ++ [opponent_card]) pl)
                 (upd_player opp
                    (fun pl => Player.with_field_zone
                                 (py_remove opponent_card (Player.field_zone pl)) pl)
                    w))
          else retribution_loop fuel' (S i) opp w
      end
  end.

(** [Player.retribution_effect]: the list never grows, so its initial
    length is fuel enough. *)
Definition retribution_effect (self : pid) (card : CardId) (w : GameState) : GameState :=
  if bool_decide (Card.name (get_card w card) = "Ace of Spades") then
    let opp := opponent (Some self) in
    retribution_loop (length (Player.field_zone (get_player w opp))) 0 opp w
  else w.

(** [Player.invulnerability_to_magic_ranged] *)
Definition invulnerability_to_magic_ranged (card : CardId) (w : GameState) : GameState :=
  if bool_decide (Card.name (get_card w card) = "Ace of Hearts") then
    upd_card card
      (fun c => Card.mk (Card.name c) (Card.character_class c) (Card.damage_bonus c)
                  (Card.attack_type c) (Card.special_ability_trigger c) (Card.attack_value c)
                  (Card.action_point c) (Card.initial_action_point c) (Card.damage_points c)
                  (Card.sub_class c) (Card.cast_ability c) (Card.special_ability c)
                  (Card.is_a_character c) (Card.is_face_down c) (Card.is_wall_card c)
                  true (Card.has_attacked c) (Card.player c))
      w
  else w.

(** [Player.execute_special_ability]: the dictionary is walked in
    insertion order and the first description found in the card's text
    selects the action. *)
Definition execute_special_ability (self : pid) (card : CardId) (w : GameState) : GameState :=
  let text := Card.special_ability (get_card w card) in
  if py_str_in "not destroyed by magic/ranged damage" text then
    invulnerability_to_magic_ranged card w
  else if py_str_in "destroys any character that used a successful melee attack" text then
    retribution_effect self card w
  else w.

(** [Player.activate_special_ability] *)
Definition activate_special_ability (self : pid) (card : CardId) (w : GameState) : GameState :=
  if bool_decide (Card.special_ability (get_card w card) <> "-") then
    execute_special_ability self card w
  else w.

(** [Player.choose_zone_for_character]; the zone stands for the attribute
    name returned. *)
Fixpoint choose_zone_for_character (ins : list Inp) : option (ZoneName * list Inp) :=
  match ins with
  | [] => None
  | Word choice :: rest =>
      if bool_decide (choice = "bz") then Some (Battlement, rest)
      else if bool_decide (choice = "fz") then Some (Field, rest)
      else choose_zone_for_character rest
  | Num _ :: rest => choose_zone_for_character rest
  end.

(** [Player.resolve_character_card] *)
Definition resolve_character_card (self : pid) (card : CardId) (w : GameState)
    (ins : list Inp) : Res GameState (list Inp) :=
  match choose_zone_for_character ins with
  | None => Raise EOFError w
  | Some (zone, rest) =>
      let w1 := zone_set self zone (zone_get w self zone ++ [card]) w in
      if Card.special_ability_trigger (get_card w1 card) then
        Ok rest (activate_special_ability self card w1)
      else Ok rest w1
  end.

(** What the special ability of [card], played by [self], may do to the
    board. *)
Definition special_ability_effect (self : pid) (card : CardId) (w w' : GameState) : Prop :=
  let opp := opponent (Some self) in
  get_player w' self = get_player w self /\
  Permutation (Player.field_zone (get_player w' opp) ++ Player.discard_pile (get_player w' opp))
              (Player.field_zone (get_player w opp) ++ Player.discard_pile (get_player w opp)) /\
  Player.hand (get_player w' opp) = Player.hand (get_player w opp) /\
  Player.wall (get_player w' opp) = Player.wall (get_player w opp) /\
  Player.battlement_zone (get_player w' opp) = Player.battlement_zone (get_player w opp) /\
  decks w' = decks w /\
  (forall c, c <> card -> get_card w' c = get_card w c) /\
  (Card.name (get_card w card) <> "Ace of Spades" -> get_player w' opp = get_player w opp) /\
  (Card.name (get_card w card) <> "Ace of Hearts" -> heap w' = heap w).

Module X_retribution_example.
(** Player 1 plays the Ace of Spades against three characters that have
    all attacked. *)
Definition ace : Card.t :=
  Card.init "Ace of Spades" "Warrior" 0 "Melee" true 1 1 1 "Ace" "-"
    "destroys any character that used a successful melee attack" true.
Definition attacked (c : Card.t) : Card.t :=
  Card.mk (Card.name c) (Card.character_class c) (Card.damage_bonus c)
    (Card.attack_type c) (Card.special_ability_trigger c) (Card.attack_value c)
    (Card.action_point c) (Card.initial_action_point c) (Card.damage_points c)
    (Card.sub_class c) (Card.cast_ability c) (Card.special_ability c)
    (Card.is_a_character c) (Card.is_face_down c) (Card.is_wall_card c)
    (Card.invulnerable_to_magic_ranged c) true (Card.player c).
Definition w : GameState :=
  mkGS [ace; attacked C2_example.attacker; attacked C2_example.field_card;
        attacked C2_example.attacker]
       (Player.mk "Player1" [] [] [] [0%nat] [])
       (Player.mk "Player2" [] [] [] [1%nat; 2%nat; 3%nat] []) ∅ [].
End X_retribution_example.

(** ** End of the game *)

(** [GameState.check_game_end_conditions]: a player with no card in hand,
    field zone and wall, or a deck that has run out. *)
Definition check_game_end_conditions (w : GameState) : bool :=
  existsb (fun p =>
             (length (Player.hand (get_player w p)) =? 0)%nat &&
             (length (Player.field_zone (get_player w p)) =? 0)%nat &&
             (length (Player.wall (get_player w p)) =? 0)%nat) [P0; P1]
  || bool_decide (map_Exists (fun _ cards => cards = []) (decks w)).

Module X_end_example.
(** Both players hold cards and own a non-empty deck. *)
Definition w : GameState :=
  mkGS (repeat (C3_example.plain "5") 6)
       (Player.mk "Player1" [0%nat] [] [] [] [])
       (Player.mk "Player2" [] [1%nat] [] [] [])
       (<["Player2" := [4%nat; 5%nat]]> {["Player1" := [2%nat; 3%nat]]}) [].
End X_end_example.

(** ** The melee phase *)

(** The characters offered by [handle_melee_actions]. *)
Definition melee_characters (player : pid) (w : GameState) : list CardId :=
  filter (fun card => bool_decide (Card.attack_type (get_card w card) = "Melee")
                      && (0 <? Card.action_point (get_card w card)) = true)
         (Player.field_zone (get_player w player)).

(** The loop of [RoundManager.handle_melee_actions].  An action reads its
    own lines, so the recursion is on [fuel]; [None] only when the fuel
    runs out.  The flag [melee_actions_taken] selects a message and is left
    out. *)
Fixpoint handle_melee_loop (fuel : nat) (player : pid) (w : GameState) (ins : list Inp)
    : option (Res GameState (list Inp)) :=
  match fuel with
  | O => None
  | S fuel' =>
      match melee_characters player w with
      | [] => Some (Ok ins w)
      | _ =>
          match ins with
          | [] => Some (Raise EOFError w)
          | Word choice :: rest =>
              if bool_decide (choice = "pass") then Some (Ok rest w)
              else handle_melee_loop fuel' player w rest
          | Num index_choice :: rest =>
              if (0 <=? index_choice)
                 && (index_choice <? Z.of_nat (length (melee_characters player w))) then
                match melee_characters player w !! Z.to_nat index_choice with
                | Some selected_card =>
                    match perform_selected_melee_action player selected_card w rest with
                    | Ok rest' w' => handle_melee_loop fuel' player w' rest'
                    | Raise e w' => Some (Raise e w')
                    end
                | None => handle_melee_loop fuel' player w rest
                end
              else handle_melee_loop fuel' player w rest
          end
      end
  end.

(** [RoundManager.handle_melee_actions]: every turn of the loop reads a
    line, so one unit of fuel per line, and one more, is enough. *)
Definition handle_melee_actions (player : pid) (w : GameState) (ins : list Inp)
    : option (Res GameState (list Inp)) :=
  handle_melee_loop (S (length ins)) player w ins.

(** What a melee phase of [player] may have changed between [w] and
    [w']. *)
Definition melee_inv (player : pid) (w w' : GameState) : Prop :=
  (forall c,
     Card.action_point (get_card w' c) <= Card.action_point (get_card w c) /\
     (0 <= Card.action_point (get_card w c) -> 0 <= Card.action_point (get_card w' c)) /\
     Card.attack_type (get_card w' c) = Card.attack_type (get_card w c)) /\
  (forall c,
     Card.action_point (get_card w' c) <> Card.action_point (get_card w c) ->
     c ∈ Player.field_zone (get_player w player) /\
     Card.attack_type (get_card w c) = "Melee") /\
  (forall q c, c ∈ Player.field_zone (get_player w' q) ->
               c ∈ Player.field_zone (get_player w q)) /\
  (forall q,
     Player.hand (get_player w' q) = Player.hand (get_player w q) /\
     Player.wall (get_player w' q) = Player.wall (get_player w q) /\
     Player.battlement_zone (get_player w' q) = Player.battlement_zone (get_player w q)) /\
  decks w' = decks w.

Module X_melee_example.
(** On the board of [C2_example.w_field] player 1 selects the only melee
    character and the only target, and types one line too many. *)
Definition ins : list Inp := [Num 0; Num 0; Word "again"].
End X_melee_example.

(** * Properties *)

(** ** Python list primitives *)

Lemma py_in_spec (x : CardId) (l : list CardId) : py_in x l = true <-> x ∈ l.
Proof.
  unfold py_in. induction l as [|y l IH]; simpl.
  - split; [discriminate | intros H; inversion H].
  - rewrite orb_true_iff, IH, elem_of_cons, Nat.eqb_eq. tauto.
Qed.

Lemma py_in_false (x : CardId) (l : list CardId) : py_in x l = false <-> x ∉ l.
Proof.
  rewrite <- py_in_spec. destruct (py_in x l); split; congruence.
Qed.

Lemma refs_in_cons (x y : CardId) (l : list CardId) :
  refs_in x (y :: l) = ((if decide (x = y) then 1 else 0) + refs_in x l)%nat.
Proof.
  unfold refs_in. rewrite filter_cons. destruct (decide (x = y)); reflexivity.
Qed.

Lemma refs_in_app (x : CardId) (l1 l2 : list CardId) :
  refs_in x (l1 ++ l2) = (refs_in x l1 + refs_in x l2)%nat.
Proof. unfold refs_in. rewrite filter_app, length_app. reflexivity. Qed.

Lemma refs_in_pos (x : CardId) (l : list CardId) : x ∈ l <-> (0 < refs_in x l)%nat.
Proof.
  induction l as [|y l IH].
  - split; [intros H; inversion H | cbn; lia].
  - rewrite refs_in_cons, elem_of_cons, IH.
    destruct (decide (x = y)); split; intros; try lia; tauto.
Qed.

Lemma py_remove_length (x : CardId) (l : list CardId) :
  x ∈ l -> S (length (py_remove x l)) = length l.
Proof.
  induction l as [|y l IH]; intros H; [inversion H|].
  simpl. destruct (Nat.eqb_spec x y) as [->|Hne]; [reflexivity|].
  simpl. f_equal. apply IH. apply elem_of_cons in H as [H|H]; [congruence|assumption].
Qed.

Lemma py_remove_refs_same (x : CardId) (l : list CardId) :
  x ∈ l -> S (refs_in x (py_remove x l)) = refs_in x l.
Proof.
  induction l as [|y l IH]; intros H; [inversion H|].
  simpl. destruct (Nat.eqb_spec x y) as [->|Hne].
  - rewrite refs_in_cons. rewrite decide_True by reflexivity. reflexivity.
  - rewrite !refs_in_cons. rewrite decide_False by assumption. simpl.
    apply IH. apply elem_of_cons in H as [H|H]; [congruence|assumption].
Qed.

Lemma py_remove_refs_other (x c : CardId) (l : list CardId) :
  c <> x -> refs_in c (py_remove x l) = refs_in c l.
Proof.
  intros Hne. induction l as [|y l IH]; [reflexivity|].
  simpl. destruct (Nat.eqb_spec x y) as [->|Hxy].
  - rewrite refs_in_cons. rewrite decide_False by assumption. reflexivity.
  - rewrite !refs_in_cons, IH. reflexivity.
Qed.

Lemma py_remove_absent (x : CardId) (l : list CardId) : x ∉ l -> py_remove x l = l.
Proof.
  induction l as [|y l IH]; intros H; [reflexivity|].
  apply not_elem_of_cons in H as [Hne Hl].
  simpl. destruct (Nat.eqb_spec x y); [congruence|]. f_equal. auto.
Qed.

(** ** State accessors *)

Lemma get_player_upd_same p f w : get_player (upd_player p f w) p = f (get_player w p).
Proof. destruct p; reflexivity. Qed.

Lemma get_player_upd_other p q f w :
  p <> q -> get_player (upd_player p f w) q = get_player w q.
Proof. destruct p, q; intros H; try reflexivity; congruence. Qed.

Lemma get_card_upd_same c f w cd :
  heap w !! c = Some cd -> get_card (upd_card c f w) c = f cd.
Proof.
  intros H. unfold get_card, upd_card. simpl.
  rewrite list_lookup_alter_eq, H. reflexivity.
Qed.

Lemma get_card_upd_other c c' f w :
  c <> c' -> get_card (upd_card c f w) c' = get_card w c'.
Proof.
  intros H. unfold get_card, upd_card. simpl.
  rewrite list_lookup_alter_ne by assumption. reflexivity.
Qed.

(** ** C10: discarding from the hand *)

(** C10.  [discard_card] with a card held in the hand removes one
    reference to that card from the hand (the first one) and appends the
    card to the same player's discard pile, touching nothing else; with a
    card that is not in the hand it only reports "not in hand": the result
    is the old state with that message added, so no zone changes and no
    exception is possible (the operation is a total function). *)
Theorem discard_card_spec (p : pid) (card : CardId) (w : GameState) :
  let pl := get_player w p in
  let w' := discard_card p card w in
  let pl' := get_player w' p in
  if py_in card (Player.hand pl) then
    Player.hand pl' = py_remove card (Player.hand pl) /\
    S (length (Player.hand pl')) = length (Player.hand pl) /\
    S (refs_in card (Player.hand pl')) = refs_in card (Player.hand pl) /\
    (forall c, c <> card -> refs_in c (Player.hand pl') = refs_in c (Player.hand pl)) /\
    Player.discard_pile pl' = Player.discard_pile pl ++ [card] /\
    Player.wall pl' = Player.wall pl /\
    Player.battlement_zone pl' = Player.battlement_zone pl /\
    Player.field_zone pl' = Player.field_zone pl /\
    get_player w' (other p) = get_player w (other p) /\
    heap w' = heap w /\ decks w' = decks w /\
    out w' = out w ++ [EvDiscards p card]
  else
    w' = emit (EvNotInHand card) w /\ same_board w w'.
Proof.
  intros pl w' pl'. subst pl w' pl'. unfold discard_card.
  destruct (py_in card (Player.hand (get_player w p))) eqn:Hin.
  - apply py_in_spec in Hin.
    destruct p; simpl;
      (repeat split;
       [ apply py_remove_length; exact Hin
       | apply py_remove_refs_same; exact Hin
       | intros c Hc; apply py_remove_refs_other; exact Hc ]).
  - split; [reflexivity|]. repeat split.
Qed.

(** ** C5: the wall holds at most 14 cards *)

Lemma place_card_in_wall_bounded p card w :
  wall_bounded w -> wall_bounded (place_card_in_wall p card w).
Proof.
  intros Hb q. unfold place_card_in_wall.
  destruct (Nat.ltb_spec (length (Player.wall (get_player w p))) 14) as [Hlt|Hge].
  - destruct p, q; simpl in *; rewrite ?length_app; simpl;
      try apply (Hb P0); try apply (Hb P1); lia.
  - destruct p, q; simpl; try apply (Hb P0); apply (Hb P1).
Qed.

(** C5.  [place_card_in_wall] on a wall of fewer than 14 cards appends the
    card to the wall and leaves it face-down, the discard pile unchanged;
    on a wall of 14 or more it leaves the wall alone and appends the card
    to the same player's discard pile, reporting "wall full" (a total
    function: no error, no rejection).  Hence a wall of at most 14 cards
    stays so under any sequence of placements by either player. *)
Theorem place_card_in_wall_spec (p : pid) (card : CardId) (w : GameState) :
  let pl := get_player w p in
  let w' := place_card_in_wall p card w in
  let pl' := get_player w' p in
  (if (length (Player.wall pl) <? 14)%nat then
     Player.wall pl' = Player.wall pl ++ [card] /\
     Player.discard_pile pl' = Player.discard_pile pl /\
     heap w' = alter (Card.with_is_face_down true) card (heap w) /\
     (forall cd, heap w !! card = Some cd -> Card.is_face_down (get_card w' card) = true) /\
     out w' = out w ++ [EvPlacedInWall p]
   else
     Player.wall pl' = Player.wall pl /\
     Player.discard_pile pl' = Player.discard_pile pl ++ [card] /\
     heap w' = heap w /\
     out w' = out w ++ [EvWallFull]) /\
  Player.hand pl' = Player.hand pl /\
  Player.battlement_zone pl' = Player.battlement_zone pl /\
  Player.field_zone pl' = Player.field_zone pl /\
  get_player w' (other p) = get_player w (other p) /\
  (forall l, wall_bounded w -> wall_bounded (place_cards l w)).
Proof.
  intros pl w' pl'. subst pl w' pl'. split; [|repeat split].
  - unfold place_card_in_wall.
    destruct (length (Player.wall (get_player w p)) <? 14)%nat eqn:Hlt.
    + destruct p; simpl; repeat split;
        intros cd Hcd; unfold get_card; simpl;
        rewrite list_lookup_alter_eq, Hcd; reflexivity.
    + destruct p; simpl; repeat split.
  - unfold place_card_in_wall.
    destruct (length (Player.wall (get_player w p)) <? 14)%nat; destruct p; reflexivity.
  - unfold place_card_in_wall.
    destruct (length (Player.wall (get_player w p)) <? 14)%nat; destruct p; reflexivity.
  - unfold place_card_in_wall.
    destruct (length (Player.wall (get_player w p)) <? 14)%nat; destruct p; reflexivity.
  - unfold place_card_in_wall.
    destruct (length (Player.wall (get_player w p)) <? 14)%nat; destruct p; reflexivity.
  - intros l. revert w. induction l as [|[q c] l IH]; intros w Hb; [exact Hb|].
    simpl. apply IH. apply place_card_in_wall_bounded. exact Hb.
Qed.

(** ** C1: damage applied to a card *)

Lemma destroy_card_heap c w : heap (destroy_card c w) = heap w.
Proof.
  unfold destroy_card.
  destruct (Card.player (get_card (emit (EvDestroyed c) w) c)) as [p|]; [|reflexivity].
  match goal with |- context [if ?b then _ else _] => destruct b end;
    destruct p; reflexivity.
Qed.

Lemma destroy_card_out c w : out (destroy_card c w) = out w ++ [EvDestroyed c].
Proof.
  unfold destroy_card.
  destruct (Card.player (get_card (emit (EvDestroyed c) w) c)) as [p|]; [|reflexivity].
  match goal with |- context [if ?b then _ else _] => destruct b end;
    destruct p; reflexivity.
Qed.

Lemma take_damage_step c cd d w :
  heap w !! c = Some cd ->
  heap (take_damage c d w) !! c
    = Some (Card.with_damage_points (Card.damage_points cd - d) cd) /\
  out (take_damage c d w)
    = out w ++ (if Card.damage_points cd - d <=? 0 then [EvDestroyed c] else []).
Proof.
  intros H. unfold take_damage.
  rewrite (get_card_upd_same c _ w cd H). simpl.
  destruct (Card.damage_points cd - d <=? 0).
  - rewrite destroy_card_heap, destroy_card_out. simpl.
    rewrite list_lookup_alter_eq, H. split; reflexivity.
  - simpl. rewrite list_lookup_alter_eq, H, app_nil_r. split; reflexivity.
Qed.

Lemma destroyed_count_app c w l :
  length (filter (fun e => e = EvDestroyed c) (out w ++ l))
  = (destroyed_count c w + length (filter (fun e => e = EvDestroyed c) l))%nat.
Proof. unfold destroyed_count. rewrite filter_app, length_app. reflexivity. Qed.

Lemma destroyed_events_count c (rs : list Z) :
  length (filter (fun e => e = EvDestroyed c)
            (flat_map (fun r => if r <=? 0 then [EvDestroyed c] else []) rs))
  = length (filter (fun r => r <= 0) rs).
Proof.
  induction rs as [|r rs IH]; [reflexivity|].
  simpl. rewrite filter_app, length_app, IH, filter_cons.
  destruct (Z.leb_spec r 0).
  - rewrite decide_True by lia. rewrite filter_cons, decide_True by reflexivity.
    reflexivity.
  - rewrite decide_False by lia. reflexivity.
Qed.

(** C1 (amended).  [take_damage] subtracts without clamping: after any
    sequence of applications the damage points are the initial points minus
    the total damage, whatever its sign.  The destruction routine runs at
    exactly those applications that leave the points at 0 or below: never
    before the first such application, at it, and again at every later one
    that leaves the points at 0 or below. *)
Theorem take_damages_spec (c : CardId) (cd : Card.t) (damages : list Z) (w : GameState) :
  heap w !! c = Some cd ->
  let w' := take_damages c damages w in
  let points := running_points (Card.damage_points cd) damages in
  Card.damage_points (get_card w' c) = Card.damage_points cd - sum_Z damages /\
  out w' = out w ++ flat_map (fun r => if r <=? 0 then [EvDestroyed c] else []) points /\
  destroyed_count c w'
    = (destroyed_count c w + length (filter (fun r : Z => (r <= 0)%Z) points))%nat.
Proof.
  intros H. cbv zeta.
  assert (Hmain :
    heap (take_damages c damages w) !! c
      = Some (Card.with_damage_points (Card.damage_points cd - sum_Z damages) cd) /\
    out (take_damages c damages w)
      = out w ++ flat_map (fun r => if r <=? 0 then [EvDestroyed c] else [])
                   (running_points (Card.damage_points cd) damages)).
  { revert w cd H. induction damages as [|d ds IH]; intros w cd H.
    - simpl. rewrite Z.sub_0_r, app_nil_r. destruct cd; split; [exact H|reflexivity].
    - simpl. destruct (take_damage_step c cd d w H) as [Hh Ho].
      destruct (IH _ _ Hh) as [IHh IHo]. unfold take_damages in *.
      split.
      + rewrite IHh. f_equal. unfold Card.with_damage_points, sum_Z. simpl.
        f_equal. lia.
      + rewrite IHo, Ho. simpl. rewrite <- app_assoc. reflexivity. }
  destruct Hmain as [Hh Ho]. split; [|split].
  - unfold get_card. rewrite Hh. reflexivity.
  - exact Ho.
  - unfold destroyed_count at 1. rewrite Ho, destroyed_count_app, destroyed_events_count.
    reflexivity.
Qed.

(** A 3-point card hit for 5 and then for 1: the points go through -2 to
    -3, the destruction routine runs at both hits, and the card is
    appended to the discard pile twice. *)
Lemma take_damages_witness :
  heap C1_example.w !! 0%nat = Some C1_example.victim /\
  Card.damage_points (get_card (take_damages 0 [5; 1] C1_example.w) 0) = -3 /\
  destroyed_count 0 (take_damages 0 [5; 1] C1_example.w) = 2%nat.
Proof.
  split; [reflexivity|].
  pose proof (take_damages_spec 0 C1_example.victim [5; 1] C1_example.w eq_refl) as H.
  cbv zeta in H. destruct H as (H1 & _ & H3).
  split; [exact H1 | exact H3].
Defined.

(** The claim as stated fails: points below zero, destruction run twice. *)
Lemma take_damage_counterexample :
  let w' := take_damages 0 [5; 1] C1_example.w in
  Card.damage_points (get_card w' 0) = -3 /\
  destroyed_count 0 w' = 2%nat /\
  Player.discard_pile (player0 w') = [0%nat; 0%nat] /\
  ~ (0 <= Card.damage_points (get_card w' 0) /\ destroyed_count 0 w' = 1%nat).
Proof.
  vm_compute. repeat split; intros [H _]; apply H; reflexivity.
Qed.

(** ** C2: one container per card *)

(** C2 (violated by the code).  A melee attack that destroys a card of
    the opponent's wall: before the attack the card is held by that wall
    alone; after [apply_damage_to_target] it is still in the wall and also
    in a discard pile, so two containers reference it.  The discard pile
    is the attacker's own, since [opponent] is asked for the opponent of
    the attacking card's [player], which is [None].  The same attack on a
    field-zone card leaves it in the opponent's field zone and in the
    attacker's discard pile. *)
Theorem apply_damage_to_target_duplicates :
  holders 1 C2_example.w = [InZone P1 Wall] /\
  perform_selected_melee_action P0 0 C2_example.w [Num 0]
    = Ok [] (upd_card 0 (fun cd => Card.with_action_point (Card.action_point cd - 1) cd)
               (apply_damage_to_target 0 1 C2_example.w)) /\
  holders 1 (apply_damage_to_target 0 1 C2_example.w)
    = [InZone P0 Discard; InZone P1 Wall] /\
  references 1 (apply_damage_to_target 0 1 C2_example.w) = 2%nat /\
  holders 1 C2_example.w_field = [InZone P1 Field] /\
  holders 1 (apply_damage_to_target 0 1 C2_example.w_field)
    = [InZone P0 Discard; InZone P1 Field].
Proof. vm_compute. repeat split. Qed.

(** [destroy_card] on a card of the battlement zone appends it to the
    discard pile and leaves it in the battlement zone. *)
Lemma destroy_card_duplicates :
  holders 0 C2_example.w_guard = [InZone P0 Battlement] /\
  holders 0 (destroy_card 0 C2_example.w_guard)
    = [InZone P0 Battlement; InZone P0 Discard].
Proof. vm_compute. repeat split. Qed.

(** ** C6: action points spent by a melee attack *)

Lemma apply_damage_to_target_heap a t w :
  heap (apply_damage_to_target a t w)
  = alter (Card.with_damage_points
             (Card.damage_points (get_card w t) - Card.attack_value (get_card w a))) t (heap w).
Proof.
  unfold apply_damage_to_target.
  repeat match goal with |- context [if ?b then _ else _] => destruct b end;
    try reflexivity;
    match goal with |- context [opponent ?o] => destruct (opponent o) end; reflexivity.
Qed.

Lemma apply_damage_to_target_action_point a t w x :
  Card.action_point (get_card (apply_damage_to_target a t w) x)
  = Card.action_point (get_card w x).
Proof.
  unfold get_card at 1. rewrite apply_damage_to_target_heap.
  destruct (decide (t = x)) as [->|Hne].
  - rewrite list_lookup_alter_eq. unfold get_card at 3.
    destruct (heap w !! x); reflexivity.
  - rewrite list_lookup_alter_ne by assumption. reflexivity.
Qed.

Lemma same_board_emit e w : same_board w (emit e w).
Proof. repeat split. Qed.

(** C6 (amended).  A melee attack by a card with action points > 0 that
    reaches a target (whether the target survives or is destroyed) costs
    the attacker exactly one action point and changes no other card's
    action points.  When the opponent has neither a field-zone card nor a
    wall card the attack ends with "no valid target", and when the card has
    action points <= 0 it ends with "no action points left": in both cases
    no action point is deducted and the board is unchanged. *)
Theorem perform_selected_melee_action_spec
    (p : pid) (c : CardId) (cd : Card.t) (w : GameState) (ins : list Inp) :
  heap w !! c = Some cd ->
  let targets := available_targets w p in
  (Card.action_point cd <= 0 ->
     perform_selected_melee_action p c w ins = Ok ins (emit (EvNoActionPoints c) w)) /\
  (0 < Card.action_point cd -> targets = [] ->
     perform_selected_melee_action p c w ins = Ok ins (emit EvNoTarget w)) /\
  (0 < Card.action_point cd ->
   forall i rest target,
     choose_index (length targets) ins = Some (i, rest) ->
     targets !! i = Some target ->
     exists w',
       perform_selected_melee_action p c w ins = Ok rest w' /\
       w' = upd_card c (fun cd => Card.with_action_point (Card.action_point cd - 1) cd)
              (apply_damage_to_target c target w) /\
       Card.action_point (get_card w' c) = Card.action_point cd - 1 /\
       (forall c', c' <> c ->
          Card.action_point (get_card w' c') = Card.action_point (get_card w c'))).
Proof.
  intros H targets. subst targets.
  assert (Hget : get_card w c = cd) by (unfold get_card; rewrite H; reflexivity).
  unfold perform_selected_melee_action, select_melee_target. rewrite Hget.
  split; [|split].
  - intros Hle. destruct (Z.leb_spec (Card.action_point cd) 0); [reflexivity|lia].
  - intros Hpos Hnil. destruct (Z.leb_spec (Card.action_point cd) 0); [lia|].
    rewrite Hnil. reflexivity.
  - intros Hpos i rest target Hidx Htgt.
    destruct (Z.leb_spec (Card.action_point cd) 0); [lia|].
    destruct (available_targets w p) as [|t0 ts] eqn:Hts; [discriminate Htgt|].
    rewrite Hidx, Htgt. eexists. split; [reflexivity|]. split; [reflexivity|]. split.
    + unfold get_card at 1. unfold upd_card at 1. cbn [heap].
      rewrite list_lookup_alter_eq.
      pose proof (apply_damage_to_target_action_point c target w c) as Hap.
      unfold get_card at 1 in Hap. rewrite Hget in Hap.
      destruct (heap (apply_damage_to_target c target w) !! c) as [cd'|] eqn:Hc'.
      * simpl in *. rewrite Hap. reflexivity.
      * exfalso. rewrite apply_damage_to_target_heap in Hc'.
        apply lookup_ge_None in Hc'. rewrite length_alter in Hc'.
        apply lookup_lt_Some in H. lia.
    + intros c' Hne. rewrite get_card_upd_other by congruence.
      apply apply_damage_to_target_action_point.
Qed.

(** The attack of the wall example: one action point before, none after. *)
Lemma perform_selected_melee_action_witness :
  heap C2_example.w !! 0%nat = Some C2_example.attacker /\
  exists w', perform_selected_melee_action P0 0 C2_example.w [Num 0] = Ok [] w' /\
    Card.action_point (get_card w' 0) = 0.
Proof.
  split; [reflexivity|].
  destruct (perform_selected_melee_action_spec P0 0 C2_example.attacker
              C2_example.w [Num 0] eq_refl) as (_ & _ & Hhit).
  destruct (Hhit ltac:(reflexivity) 0%nat [] 1%nat eq_refl eq_refl)
    as (w' & Hrun & _ & Hap & _).
  exists w'. split; [exact Hrun | exact Hap].
Defined.

(** With no valid target available the attacker keeps its action point,
    where the claim has one deducted. *)
Lemma melee_no_target_counterexample :
  available_targets C6_example.w_no_target P0 = [] /\
  Card.action_point (get_card C6_example.w_no_target 0) = 1 /\
  exists w', perform_selected_melee_action P0 0 C6_example.w_no_target [Num 0]
             = Ok [Num 0] w' /\
    Card.action_point (get_card w' 0) = 1 /\
    ~ (Card.action_point (get_card w' 0)
       = Card.action_point (get_card C6_example.w_no_target 0) - 1).
Proof.
  split; [reflexivity|]. split; [reflexivity|].
  eexists. split; [vm_compute; reflexivity|].
  split; [reflexivity|]. vm_compute. discriminate.
Qed.

(** ** C7: a ranged attack without its damage source *)

Lemma find_source_none (w : GameState) (p : pid) (src : string) :
  ~ holds_source w p src ->
  find (fun h => bool_decide (Card.name (get_card w h) = src))
       (Player.hand (get_player w p)) = None.
Proof.
  intros Hno.
  destruct (find _ _) as [h|] eqn:Hf; [|reflexivity].
  apply find_some in Hf as [Hin Hname]. exfalso. apply Hno.
  exists h. split.
  - apply list_elem_of_In. exact Hin.
  - apply bool_decide_eq_true in Hname. exact Hname.
Qed.

Lemma check_source_blocked (card : CardId) (p : pid) (w : GameState) :
  ~ holds_source w p (required_source (Card.sub_class (get_card w card))) ->
  check_source_of_damage card p w = (false, w).
Proof.
  unfold required_source, check_source_of_damage, damage_source. intros Hno.
  destruct (bool_decide (Card.sub_class (get_card w card) ∈ ["2"; "3"; "Jack"])).
  - rewrite (find_source_none _ _ _ Hno). reflexivity.
  - destruct (bool_decide (Card.sub_class (get_card w card) ∈ ["8"; "9"; "Queen"])).
    + rewrite (find_source_none _ _ _ Hno). reflexivity.
    + reflexivity.
Qed.

Lemma handle_ranged_loop_unfold p taken w ins :
  handle_ranged_loop p taken w ins =
  match ranged_characters w p with
  | [] => Ok ins (if taken then w else emit EvNoRanged w)
  | _ =>
      match ins with
      | [] => Raise EOFError w
      | Word s :: rest =>
          if bool_decide (s = "pass") then Ok rest w
          else handle_ranged_loop p taken w rest
      | Num z :: rest =>
          if (0 <=? z) && (z <? Z.of_nat (length (ranged_characters w p))) then
            match ranged_characters w p !! Z.to_nat z with
            | Some selected_card =>
                match check_source_of_damage selected_card p w with
                | (true, w1) =>
                    match perform_selected_ranged_action p selected_card w1 with
                    | Ok _ w2 => handle_ranged_loop p true w2 rest
                    | Raise e w2 => Raise e w2
                    end
                | (false, w1) =>
                    handle_ranged_loop p taken (emit EvInsufficientSource w1) rest
                end
            | None => handle_ranged_loop p taken w rest
            end
          else handle_ranged_loop p taken w rest
      end
  end.
Proof. destruct ins; reflexivity. Qed.

(** C7.  When the attacking player's hand holds no card named after the
    source the selected ranged character needs (Ammo for the sub-classes
    2, 3 and Jack, Magic for the others), [check_source_of_damage] answers
    [False] and leaves the state as it is, and choosing that character in
    [handle_ranged_actions] only reports "insufficient source of damage"
    before the next prompt: [perform_selected_ranged_action] is not
    reached, so no damage is dealt, the character keeps its action point
    and the hand is intact. *)
Theorem ranged_attack_blocked (p : pid) (card : CardId) (w : GameState) :
  ~ holds_source w p (required_source (Card.sub_class (get_card w card))) ->
  check_source_of_damage card p w = (false, w) /\
  (forall taken z rest,
     0 <= z ->
     ranged_characters w p !! Z.to_nat z = Some card ->
     handle_ranged_loop p taken w (Num z :: rest)
     = handle_ranged_loop p taken (emit EvInsufficientSource w) rest) /\
  same_board w (emit EvInsufficientSource w) /\
  Card.action_point (get_card (emit EvInsufficientSource w) card)
  = Card.action_point (get_card w card) /\
  Player.hand (get_player (emit EvInsufficientSource w) p) = Player.hand (get_player w p).
Proof.
  intros Hno. pose proof (check_source_blocked card p w Hno) as Hchk.
  split; [exact Hchk|]. split; [|split; [apply same_board_emit|split; [reflexivity|]]].
  - intros taken z rest Hz Hsel.
    rewrite handle_ranged_loop_unfold.
    pose proof (lookup_lt_Some _ _ _ Hsel) as Hlt.
    destruct (ranged_characters w p) as [|c0 cs] eqn:Hrc; [simpl in Hlt; lia|].
    replace ((0 <=? z) && (z <? Z.of_nat (length (c0 :: cs)))) with true.
    + rewrite Hsel, Hchk. reflexivity.
    + symmetry. apply andb_true_iff. split; [apply Z.leb_le; lia | apply Z.ltb_lt; lia].
  - destruct p; reflexivity.
Qed.

(** A Jack-class archer whose player holds no Ammo: selecting it twice
    changes nothing on the board. *)
Lemma ranged_attack_blocked_witness :
  ~ holds_source C7_example.w P0
      (required_source (Card.sub_class (get_card C7_example.w 0))) /\
  check_source_of_damage 0 P0 C7_example.w = (false, C7_example.w) /\
  handle_ranged_loop P0 false C7_example.w [Num 0; Word "pass"]
  = handle_ranged_loop P0 false (emit EvInsufficientSource C7_example.w) [Word "pass"].
Proof.
  assert (Hno : ~ holds_source C7_example.w P0
                  (required_source (Card.sub_class (get_card C7_example.w 0)))).
  { intros (h & Hin & Hname). apply list_elem_of_In in Hin.
    destruct Hin as [<-|[]]. vm_compute in Hname. discriminate Hname. }
  split; [exact Hno|].
  destruct (ranged_attack_blocked P0 0 C7_example.w Hno) as (Hchk & Hloop & _).
  split; [exact Hchk|].
  apply (Hloop false 0 [Word "pass"]); [lia | reflexivity].
Defined.

(** A player holding neither Ammo nor Magic cannot change the board in the
    ranged phase, whatever is typed; the phase then ends normally or at
    the end of the input. *)
Lemma ranged_phase_without_sources (p : pid) (ins : list Inp) :
  forall taken w,
    ~ holds_source w p "Ammo" -> ~ holds_source w p "Magic" ->
    match handle_ranged_loop p taken w ins with
    | Ok _ w' => same_board w w'
    | Raise e w' => e = EOFError /\ same_board w w'
    end.
Proof.
  assert (Hblocked : forall w card, ~ holds_source w p "Ammo" -> ~ holds_source w p "Magic" ->
            check_source_of_damage card p w = (false, w)).
  { intros w card HA HM. apply check_source_blocked. unfold required_source.
    destruct (bool_decide _); assumption. }
  assert (Hrefl : forall w, same_board w w) by (intros; repeat split).
  induction ins as [|i ins IH]; intros taken w HA HM; rewrite handle_ranged_loop_unfold.
  - destruct (ranged_characters w p); [destruct taken; repeat split|]. split; [reflexivity|auto].
  - destruct (ranged_characters w p) as [|c0 cs] eqn:Hrc; [destruct taken; repeat split|].
    destruct i as [z|s].
    + destruct ((0 <=? z) && (z <? Z.of_nat (length (c0 :: cs)))); [|apply IH; assumption].
      destruct ((c0 :: cs) !! Z.to_nat z) as [sel|]; [|apply IH; assumption].
      rewrite (Hblocked w sel HA HM).
      specialize (IH taken (emit EvInsufficientSource w)).
      assert (HA' : ~ holds_source (emit EvInsufficientSource w) p "Ammo")
        by (intros (h & Hin & Hn); apply HA; exists h; destruct p; split; assumption).
      assert (HM' : ~ holds_source (emit EvInsufficientSource w) p "Magic")
        by (intros (h & Hin & Hn); apply HM; exists h; destruct p; split; assumption).
      specialize (IH HA' HM').
      destruct (handle_ranged_loop p taken (emit EvInsufficientSource w) ins) as [a w'|e w'].
      * destruct IH as (?&?&?&?). repeat split; assumption.
      * destruct IH as (He&?&?&?&?). repeat split; assumption.
    + destruct (bool_decide (s = "pass")); [apply Hrefl | apply IH; assumption].
Qed.

(** ** C4: Joker damage *)

(** With [zone.name] raising, the loop of [assign_damage_to_zone] fails at
    its first iteration and otherwise does nothing. *)
Lemma assign_damage_to_zone_as_run p z damage w ins :
  assign_damage_to_zone list_name_attribute p z damage w ins
  = match damage, zone_get w p z with
    | O, _ | _, [] => Ok ins w
    | _, _ => Raise AttributeError w
    end.
Proof. destruct damage; simpl; destruct (zone_get w p z); reflexivity. Qed.

Lemma calculate_joker_damage_loop_frame cards :
  forall total w ins,
    match calculate_joker_damage_loop cards total w ins with
    | Ok (total', _) w' =>
        total <= total' <= total + Z.of_nat (length cards) /\
        player0 w' = player0 w /\ player1 w' = player1 w /\
        forall c, Card.damage_points (get_card w' c) = Card.damage_points (get_card w c)
    | Raise _ w' =>
        player0 w' = player0 w /\ player1 w' = player1 w /\
        forall c, Card.damage_points (get_card w' c) = Card.damage_points (get_card w c)
    end.
Proof.
  induction cards as [|card cards IH]; intros total w ins; simpl.
  - repeat split; lia.
  - destruct (get_yes_no_input ins) as [[[|] rest]|]; [| |repeat split].
    + specialize (IH (total + 1)
        (upd_card card (fun cd => Card.with_action_point (Card.action_point cd - 1) cd) w) rest).
      assert (Hdp : forall c,
        Card.damage_points (get_card (upd_card card
           (fun cd => Card.with_action_point (Card.action_point cd - 1) cd) w) c)
        = Card.damage_points (get_card w c)).
      { intros c. unfold get_card, upd_card. simpl.
        destruct (decide (card = c)) as [->|Hne].
        - rewrite list_lookup_alter_eq. destruct (heap w !! c); reflexivity.
        - rewrite list_lookup_alter_ne by assumption. reflexivity. }
      destruct (calculate_joker_damage_loop cards (total + 1) _ rest) as [[t' r'] w'|e w'].
      * destruct IH as (Ht & H0 & H1 & Hc). repeat split; try assumption; try lia.
        intros c. rewrite Hc. apply Hdp.
      * destruct IH as (H0 & H1 & Hc). repeat split; try assumption.
        intros c. rewrite Hc. apply Hdp.
    + specialize (IH total w rest).
      destruct (calculate_joker_damage_loop cards total w rest) as [[t' r'] w'|e w'].
      * destruct IH as (Ht & H0 & H1 & Hc). repeat split; try assumption; lia.
      * exact IH.
Qed.

(** As the source runs it, the Joker attack never deals a point of damage
    and never moves a card: whatever the input, every zone and every
    card's damage points are as before, and the attack ends in
    [AttributeError] as soon as one of the opponent's three zones holds a
    card. *)
Lemma handle_joker_attack_deals_nothing p w ins :
  match handle_joker_attack p w ins with
  | Ok _ w' =>
      (player0 w' = player0 w /\ player1 w' = player1 w /\
       forall c, Card.damage_points (get_card w' c) = Card.damage_points (get_card w c)) /\
      zone_get w (opponent (Some p)) Field = [] /\
      zone_get w (opponent (Some p)) Wall = [] /\
      zone_get w (opponent (Some p)) Battlement = []
  | Raise _ w' =>
      player0 w' = player0 w /\ player1 w' = player1 w /\
      forall c, Card.damage_points (get_card w' c) = Card.damage_points (get_card w c)
  end.
Proof.
  unfold handle_joker_attack, handle_joker_attack_with, calculate_joker_damage.
  pose proof (calculate_joker_damage_loop_frame
                (Player.field_zone (get_player w p)) 2 w ins) as Hc.
  destruct (calculate_joker_damage_loop _ 2 w ins) as [[total ins1] w1|e w1]; [|exact Hc].
  destruct Hc as (Ht & H0 & H1 & Hdp).
  assert (Hpos : (0 <? total) = true) by (apply Z.ltb_lt; lia).
  assert (Hz : forall q z, zone_get w1 q z = zone_get w q z).
  { intros q z. unfold zone_get, get_player. destruct q, z; congruence. }
  rewrite Hpos, !assign_damage_to_zone_as_run.
  destruct (Z.to_nat total) as [|n] eqn:Hn; [lia|].
  rewrite !Hz.
  destruct (zone_get w (opponent (Some p)) Field) eqn:HF; [|auto].
  rewrite assign_damage_to_zone_as_run, Hz.
  destruct (zone_get w (opponent (Some p)) Wall) eqn:HW; [|auto].
  rewrite assign_damage_to_zone_as_run, Hz.
  destruct (zone_get w (opponent (Some p)) Battlement) eqn:HB; [|auto].
  auto.
Qed.

(** C4 (violated by the code).  A Joker attack of total 3 (base 2 plus one
    action point spent) against an opponent with a 5-point card in each
    zone.  As the source runs it, the first line of the damage loop
    evaluates [zone.name] on a list and raises [AttributeError]: the total
    is computed and the action point spent, but no point of damage is
    dealt.  With that line out of the way, the total is dealt in full to
    the field zone, again in full to the wall and again in full to the
    battlement zone (9 points for a total of 3), because the remaining
    damage is never handed back to [handle_joker_attack]. *)
Theorem handle_joker_attack_diverges :
  calculate_joker_damage P0 C4_example.w C4_example.ins
    = Ok (3, repeat (Num 0) 9)
         (upd_card 0 (fun cd => Card.with_action_point (Card.action_point cd - 1) cd)
            C4_example.w) /\
  handle_joker_attack P0 C4_example.w C4_example.ins
    = Raise AttributeError
        (upd_card 0 (fun cd => Card.with_action_point (Card.action_point cd - 1) cd)
           C4_example.w) /\
  C4_example.points (handle_joker_attack P0 C4_example.w C4_example.ins) = [5; 5; 5] /\
  C4_example.points
    (handle_joker_attack_with (Some "field_zone") P0 C4_example.w C4_example.ins)
    = [2; 2; 2].
Proof. vm_compute. repeat split. Qed.

(** ** C3: the Action Sequence Pile is resolved last-in, first-out *)

Lemma py_pop_nil {A} : py_pop (@nil A) = None.
Proof. reflexivity. Qed.

Lemma py_pop_snoc {A} (l : list A) (x : A) : py_pop (l ++ [x]) = Some (l, x).
Proof. unfold py_pop. rewrite last_snoc, removelast_last. reflexivity. Qed.

Lemma snoc_cases {A} (l : list A) : l = [] \/ exists l' x, l = l' ++ [x].
Proof.
  induction l as [|x l' _] using rev_ind; [left; reflexivity|right; eauto].
Qed.

(** The placement loop is the loop over [choose_action_for_asp] that
    appends each card answered to the end of the pile. *)
Lemma asp_placement_choose (ins : list Inp) :
  forall turn g,
    asp_placement turn g ins =
    match choose_action_for_asp turn (gs g) ins with
    | Ok (ActCard card, rest) w' =>
        asp_placement (other turn) (mkGame w' (asp g ++ [(turn, card)]) (resolved g)) rest
    | Ok (ActStats, rest) _ => asp_placement (other turn) g rest
    | Ok (ActToken, rest) _ => Ok rest g
    | Raise e _ => Raise e g
    end.
Proof.
  induction ins as [|i ins IH]; intros turn g; [reflexivity|].
  destruct i as [z|s]; cbn [asp_placement choose_action_for_asp].
  - destruct ((0 <=? z) && _); [|apply IH].
    destruct (py_pop_at _ _) as [[hand' card]|]; [reflexivity|apply IH].
  - destruct (bool_decide (s = "token")); [reflexivity|].
    destruct (bool_decide (s = "stats")); [reflexivity|apply IH].
Qed.

(** The placement sequence lists the cards answered by the successive
    calls of [choose_action_for_asp], in the order of the calls. *)
Lemma placement_sequence_choose (ins : list Inp) :
  forall turn w,
    placement_sequence turn w ins =
    match choose_action_for_asp turn w ins with
    | Ok (ActCard card, rest) w' => (turn, card) :: placement_sequence (other turn) w' rest
    | Ok (ActStats, rest) w' => placement_sequence (other turn) w' rest
    | Ok (ActToken, _) _ => []
    | Raise _ _ => []
    end.
Proof.
  induction ins as [|i ins IH]; intros turn w; [reflexivity|].
  destruct i as [z|s]; cbn [placement_sequence choose_action_for_asp].
  - destruct ((0 <=? z) && _); [|apply IH].
    destruct (py_pop_at _ _) as [[hand' card]|]; [reflexivity|apply IH].
  - destruct (bool_decide (s = "token")); [reflexivity|].
    destruct (bool_decide (s = "stats")); [reflexivity|apply IH].
Qed.

(** What placement hands over to resolution: the pile it found, followed
    by the placement sequence in its order. *)
Lemma asp_placement_sequence (ins : list Inp) :
  forall turn g,
    match asp_placement turn g ins with
    | Ok _ g1 | Raise _ g1 =>
        asp g1 = asp g ++ placement_sequence turn (gs g) ins /\ resolved g1 = resolved g
    end.
Proof.
  induction ins as [|i ins IH]; intros turn g; simpl.
  - rewrite app_nil_r. split; reflexivity.
  - destruct i as [z|s].
    + destruct ((0 <=? z) && _); [|apply IH].
      destruct (py_pop_at _ _) as [[hand' card]|]; [|apply IH].
      match goal with |- context [asp_placement ?t ?g' ins] =>
        specialize (IH t g'); destruct (asp_placement t g' ins) as [a g1|e g1] end;
        simpl in IH; destruct IH as [Ha Hr]; rewrite Ha, <- app_assoc; split;
        solve [reflexivity | exact Hr].
    + destruct (bool_decide (s = "token")).
      * rewrite app_nil_r. split; reflexivity.
      * destruct (bool_decide (s = "stats")); apply IH.
Qed.

(** One line that is an index into the hand commits the card standing
    there and passes the turn. *)
Lemma asp_placement_commit turn g (i : nat) card rest :
  Player.hand (get_player (gs g) turn) !! i = Some card ->
  asp_placement turn g (Num (Z.of_nat i) :: rest)
  = asp_placement (other turn)
      (mkGame (upd_player turn
                 (Player.with_hand (take i (Player.hand (get_player (gs g) turn))
                                    ++ drop (S i) (Player.hand (get_player (gs g) turn))))
                 (gs g))
              (asp g ++ [(turn, card)]) (resolved g))
      rest.
Proof.
  intros Hi. cbn [asp_placement].
  assert (Hlt : (i < length (Player.hand (get_player (gs g) turn)))%nat)
    by (apply lookup_lt_is_Some_1; eexists; exact Hi).
  replace ((0 <=? Z.of_nat i)
           && (Z.of_nat i <? Z.of_nat (length (Player.hand (get_player (gs g) turn)))))
    with true
    by (symmetry; apply andb_true_iff; split; [apply Z.leb_le|apply Z.ltb_lt]; lia).
  rewrite Nat2Z.id. unfold py_pop_at. rewrite Hi. reflexivity.
Qed.

Section ASP_properties.

Variable reveal : pid -> CardId -> GameState -> list Inp -> Res GameState (list Inp).

Lemma resolve_asp_card_frame p card g ins :
  match resolve_asp_card reveal p card g ins with
  | Ok _ g' | Raise _ g' =>
      asp g' = asp g /\ resolved g' = resolved g ++ [(p, card)]
  end.
Proof.
  unfold resolve_asp_card, handle_trap_card. simpl.
  destruct (Card.is_trap (get_card (gs g) card)).
  - repeat (match goal with |- context [if ?b then _ else _] => destruct b end);
      simpl; split; reflexivity.
  - destruct (get_asp_card_choice ins) as [[[| |] rest]|]; simpl;
      try (split; reflexivity).
    destruct (reveal p card (gs g) rest); simpl; split; reflexivity.
Qed.

Lemma resolve_asp_loop_lifo (fuel : nat) :
  forall g ins,
    (length (asp g) <= fuel)%nat ->
    match resolve_asp_loop reveal fuel g ins with
    | Ok _ g' => asp g' = [] /\ resolved g' = resolved g ++ rev (asp g)
    | Raise _ g' =>
        exists pre post,
          asp g = pre ++ post /\ post <> [] /\
          asp g' = pre /\ resolved g' = resolved g ++ rev post
    end.
Proof.
  induction fuel as [|fuel IH]; intros g ins Hlen.
  - destruct (asp g) eqn:Ha; [|simpl in Hlen; lia].
    simpl. rewrite Ha. simpl. rewrite Ha, app_nil_r. split; reflexivity.
  - destruct (snoc_cases (asp g)) as [Ha|(l & [p card] & Ha)].
    + simpl. rewrite Ha. simpl. rewrite Ha, app_nil_r. split; reflexivity.
    + simpl. rewrite Ha, py_pop_snoc.
      pose proof (resolve_asp_card_frame p card (mkGame (gs g) l (resolved g)) ins) as Hf.
      destruct (resolve_asp_card reveal p card (mkGame (gs g) l (resolved g)) ins)
        as [ins' g1|e g1]; simpl in Hf; destruct Hf as [Hf1 Hf2].
      * assert (Hl : (length (asp g1) <= fuel)%nat).
        { rewrite Hf1. rewrite Ha, length_app in Hlen. simpl in Hlen. lia. }
        specialize (IH g1 ins' Hl).
        destruct (resolve_asp_loop reveal fuel g1 ins') as [a g'|e g'].
        -- destruct IH as [IH1 IH2]. split; [exact IH1|].
           rewrite IH2, Hf2, Hf1, rev_app_distr, <- app_assoc. reflexivity.
        -- destruct IH as (pre & post & E1 & E2 & E3 & E4).
           exists pre, (post ++ [(p, card)]). repeat split.
           ++ rewrite <- Hf1, E1, <- app_assoc. reflexivity.
           ++ destruct post; discriminate.
           ++ exact E3.
           ++ rewrite E4, Hf2, rev_app_distr, <- app_assoc. reflexivity.
      * exists l, [(p, card)]. repeat split; try assumption. discriminate.
Qed.

(** Placement followed by resolution. *)
Lemma handle_asp_actions_lifo (g : Game) (ins : list Inp) :
  match handle_asp_actions reveal g ins with
  | Ok _ g' =>
      asp g' = [] /\
      resolved g' = resolved g ++ rev (asp g ++ placement_sequence P0 (gs g) ins)
  | Raise _ g' =>
      exists pre post,
        asp g ++ placement_sequence P0 (gs g) ins = pre ++ post /\
        asp g' = pre /\ resolved g' = resolved g ++ rev post
  end.
Proof.
  unfold handle_asp_actions.
  pose proof (asp_placement_sequence ins P0 g) as Hp.
  destruct (asp_placement P0 g ins) as [rest g1|e g1]; destruct Hp as [Ha Hr].
  - pose proof (resolve_asp_loop_lifo (length (asp g1)) g1 rest (Nat.le_refl _)) as Hl.
    unfold resolve_asp.
    destruct (resolve_asp_loop reveal (length (asp g1)) g1 rest) as [a g'|e g'].
    + destruct Hl as [Hl1 Hl2]. split; [exact Hl1|]. rewrite Hl2, Hr, Ha. reflexivity.
    + destruct Hl as (pre & post & E1 & _ & E3 & E4).
      exists pre, post. rewrite <- Ha, <- Hr. repeat split; assumption.
  - exists (asp g1), []. rewrite app_nil_r, Ha, Hr, app_nil_r. repeat split.
Qed.

(** Resolution does finish: when no committed card is of the trap rank
    and every prompt is answered with "2" (discard), all cards are
    resolved, whatever the reveal step would do. *)
Lemma resolve_asp_finishes (g : Game) (rest : list Inp) :
  Forall (fun pc => Card.is_trap (get_card (gs g) (snd pc)) = false) (asp g) ->
  exists g', resolve_asp reveal g (repeat (Num 2) (length (asp g)) ++ rest) = Ok rest g' /\
             asp g' = [] /\ resolved g' = resolved g ++ rev (asp g).
Proof.
  unfold resolve_asp.
  remember (length (asp g)) as n eqn:Hn.
  revert g Hn. induction n as [|n IH]; intros g Hn Hall.
  - destruct (asp g) eqn:Ha; [|discriminate Hn].
    exists g. simpl. rewrite Ha. simpl. rewrite app_nil_r. repeat split; try exact Ha.
  - destruct (snoc_cases (asp g)) as [Ha|(l & [p card] & Ha)];
      [rewrite Ha in Hn; discriminate Hn|].
    assert (Hlen : length l = n).
    { rewrite Ha, length_app in Hn. simpl in Hn. lia. }
    rewrite Ha in Hall. apply Forall_app in Hall as [Hl Hc].
    apply Forall_cons in Hc as [Hc _]. simpl in Hc.
    simpl. rewrite Ha, py_pop_snoc. unfold resolve_asp_card. simpl.
    rewrite Hc.
    set (g1 := with_gs (mkGame (gs g) l (resolved g ++ [(p, card)]))
                 (discard_card p card (gs g))).
    destruct (IH g1) as (g' & Hrun & Hasp & Hres).
    + simpl. symmetry. exact Hlen.
    + simpl. eapply Forall_impl; [exact Hl|]. intros [q c] Hq. simpl in *.
      unfold get_card in *. 
      replace (heap (discard_card p card (gs g))) with (heap (gs g)); [exact Hq|].
      unfold discard_card. destruct (py_in _ _); destruct p; reflexivity.
    + simpl in Hrun. rewrite Hrun. exists g'. repeat split; [exact Hasp|].
      rewrite Hres. simpl. rewrite rev_app_distr, <- app_assoc. reflexivity.
Qed.

(** Player 1 commits A, player 2 commits B, player 1 commits C, player 2
    places the token and every prompt is answered with "2". *)
Lemma handle_asp_actions_three (g : Game) (i j k : nat) (A B C : CardId)
    (rest : list Inp) :
  asp g = [] ->
  Player.hand (player0 (gs g)) !! i = Some A ->
  Player.hand (player1 (gs g)) !! j = Some B ->
  (take i (Player.hand (player0 (gs g))) ++ drop (S i) (Player.hand (player0 (gs g)))) !! k
  = Some C ->
  Card.is_trap (get_card (gs g) A) = false ->
  Card.is_trap (get_card (gs g) B) = false ->
  Card.is_trap (get_card (gs g) C) = false ->
  exists g',
    handle_asp_actions reveal g
      (Num (Z.of_nat i) :: Num (Z.of_nat j) :: Num (Z.of_nat k) :: Word "token"
       :: Num 2 :: Num 2 :: Num 2 :: rest)
    = Ok rest g' /\
    asp g' = [] /\
    resolved g' = resolved g ++ [(P0, C); (P1, B); (P0, A)].
Proof.
  intros Hasp HA HB HC TA TB TC.
  unfold handle_asp_actions.
  rewrite (asp_placement_commit P0 g i A) by exact HA.
  rewrite (asp_placement_commit P1 _ j B) by exact HB.
  rewrite (asp_placement_commit P0 _ k C) by exact HC.
  cbn [asp_placement other gs asp resolved bool_decide].
  rewrite bool_decide_eq_true_2 by reflexivity.
  rewrite Hasp. cbn [app].
  match goal with |- context [resolve_asp reveal ?g1 _] =>
    destruct (resolve_asp_finishes g1 rest) as (g' & Hrun & Ha & Hr) end.
  - cbn [asp gs]. repeat constructor; cbn [snd]; unfold get_card in *; simpl;
      assumption.
  - cbn [asp length repeat app] in Hrun. exists g'. split; [exact Hrun|].
    split; [exact Ha|]. rewrite Hr. reflexivity.
Qed.

(** C3.  Resolution is last in, first out.  [resolve_asp] hands the
    pairs of the pile to [resolve_asp_card] in exactly the reverse of the
    order in which the pile lists them, and the pile is empty when it
    finishes; if a card's resolution raises, the pairs handled so far are
    the top of the pile in reverse order and the rest of the pile is left
    in place.  The placement loop of [handle_asp_actions] appends every
    card answered by [choose_action_for_asp] to the end of the pile, so
    the pile it hands over is the placement sequence in its order, and
    what [handle_asp_actions] resolves is the placement sequence
    reversed.  In particular, A, B and C committed in turn and each
    discarded are resolved as C, B, A. *)
Theorem resolve_asp_lifo (g : Game) (ins : list Inp) :
  match resolve_asp reveal g ins with
  | Ok _ g' => asp g' = [] /\ resolved g' = resolved g ++ rev (asp g)
  | Raise _ g' =>
      exists pre post,
        asp g = pre ++ post /\ post <> [] /\
        asp g' = pre /\ resolved g' = resolved g ++ rev post
  end /\
  match asp_placement P0 g ins with
  | Ok _ g1 | Raise _ g1 =>
      asp g1 = asp g ++ placement_sequence P0 (gs g) ins /\ resolved g1 = resolved g
  end /\
  match handle_asp_actions reveal g ins with
  | Ok _ g' =>
      asp g' = [] /\
      resolved g' = resolved g ++ rev (asp g ++ placement_sequence P0 (gs g) ins)
  | Raise _ g' =>
      exists pre post,
        asp g ++ placement_sequence P0 (gs g) ins = pre ++ post /\
        asp g' = pre /\ resolved g' = resolved g ++ rev post
  end /\
  (forall turn w lines,
     placement_sequence turn w lines =
     match choose_action_for_asp turn w lines with
     | Ok (ActCard card, rest) w' => (turn, card) :: placement_sequence (other turn) w' rest
     | Ok (ActStats, rest) w' => placement_sequence (other turn) w' rest
     | Ok (ActToken, _) _ => []
     | Raise _ _ => []
     end) /\
  (forall (i j k : nat) (A B C : CardId) (rest : list Inp),
     asp g = [] ->
     Player.hand (player0 (gs g)) !! i = Some A ->
     Player.hand (player1 (gs g)) !! j = Some B ->
     (take i (Player.hand (player0 (gs g))) ++ drop (S i) (Player.hand (player0 (gs g)))) !! k
     = Some C ->
     Card.is_trap (get_card (gs g) A) = false ->
     Card.is_trap (get_card (gs g) B) = false ->
     Card.is_trap (get_card (gs g) C) = false ->
     exists g',
       handle_asp_actions reveal g
         (Num (Z.of_nat i) :: Num (Z.of_nat j) :: Num (Z.of_nat k) :: Word "token"
          :: Num 2 :: Num 2 :: Num 2 :: rest)
       = Ok rest g' /\
       asp g' = [] /\
       resolved g' = resolved g ++ [(P0, C); (P1, B); (P0, A)]).
Proof.
  split; [apply resolve_asp_loop_lifo; reflexivity|].
  split; [apply asp_placement_sequence|].
  split; [apply handle_asp_actions_lifo|].
  split.
  - intros turn w lines. apply placement_sequence_choose.
  - intros i j k A B C rest. apply handle_asp_actions_three.
Qed.

End ASP_properties.

(** Placing A, B, C resolves C, B, A, and the pile ends empty. *)
Lemma resolve_asp_example :
  match handle_asp_actions C3_example.no_reveal C3_example.g C3_example.ins with
  | Ok rest g' =>
      rest = [] /\ asp g' = [] /\
      resolved g' = [(P0, 2%nat); (P1, 1%nat); (P0, 0%nat)] /\
      Player.wall (player0 (gs g')) = [2%nat; 0%nat] /\
      Player.wall (player1 (gs g')) = [1%nat]
  | Raise _ _ => False
  end.
Proof. vm_compute. repeat split. Qed.

(** On the same board: the placement sequence is A, B, C, and what
    [handle_asp_actions] resolves is that sequence reversed. *)
Lemma resolve_asp_lifo_witness :
  placement_sequence P0 (gs C3_example.g) C3_example.ins
  = [(P0, 0%nat); (P1, 1%nat); (P0, 2%nat)] /\
  match handle_asp_actions C3_example.no_reveal C3_example.g C3_example.ins with
  | Ok _ g' =>
      asp g' = [] /\
      resolved g' = resolved C3_example.g
                    ++ rev (asp C3_example.g
                            ++ placement_sequence P0 (gs C3_example.g) C3_example.ins)
  | Raise _ g' =>
      exists pre post,
        asp C3_example.g ++ placement_sequence P0 (gs C3_example.g) C3_example.ins
        = pre ++ post /\
        asp g' = pre /\ resolved g' = resolved C3_example.g ++ rev post
  end.
Proof.
  split; [reflexivity|].
  exact (proj1 (proj2 (proj2
           (resolve_asp_lifo C3_example.no_reveal C3_example.g C3_example.ins)))).
Defined.

(** ** C8: deck size and the initial deal *)

Lemma draw_n_spec (n : nat) :
  forall cards, (n <= length cards)%nat ->
    exists drawn rest,
      draw_n n cards = Some (drawn, rest) /\
      length drawn = n /\ length rest = (length cards - n)%nat /\
      cards = rest ++ rev drawn.
Proof.
  induction n as [|n IH]; intros cards Hn.
  - exists [], cards. simpl. rewrite app_nil_r. repeat split; lia.
  - destruct (snoc_cases cards) as [->|(l & x & ->)]; [simpl in Hn; lia|].
    rewrite length_app in Hn. simpl in Hn.
    destruct (IH l ltac:(lia)) as (drawn & rest & Hd & Hl1 & Hl2 & Hl3).
    exists (x :: drawn), rest. simpl. unfold Deck_draw. rewrite py_pop_snoc, Hd.
    repeat split.
    + simpl. lia.
    + rewrite length_app. simpl. lia.
    + simpl. rewrite app_assoc, <- Hl3. reflexivity.
Qed.

Lemma deal_initial_spec (p : pid) (w : GameState) (deck : list CardId) :
  decks w !! Player.name (get_player w p) = Some deck ->
  (20 <= length deck)%nat ->
  exists drawn rest,
    draw_n 20 deck = Some (drawn, rest) /\
    length drawn = 20%nat /\ length rest = (length deck - 20)%nat /\
    deal_initial p w
    = Some (upd_player p
              (fun pl => Player.with_hand (drop 10 drawn) (Player.with_wall (take 10 drawn) pl))
              (with_decks (<[Player.name (get_player w p) := rest]> (decks w)) w)).
Proof.
  intros Hdeck Hlen.
  destruct (draw_n_spec 20 deck Hlen) as (drawn & rest & Hd & Hl1 & Hl2 & _).
  exists drawn, rest. repeat split; try assumption.
  unfold deal_initial. rewrite Hdeck, Hd. destruct p; reflexivity.
Qed.

Section Deck_properties.

Variable shuffle : nat -> list CardId -> list CardId.
Hypothesis shuffle_perm : forall k l, Permutation (shuffle k l) l.

(** A fresh deck references every catalog card twice and the one Joker
    twice: [2 * n + 2] references for a catalog of [n] rows. *)
Lemma Deck_init_spec (k : nat) (rows : list Row) (h : list Card.t) :
  let n := length rows in
  fst (Deck_init shuffle k rows h) = (h ++ map card_of_row rows) ++ [create_joker_card] /\
  Permutation (snd (Deck_init shuffle k rows h))
    ((seq (length h) n ++ seq (length h) n) ++ [(length h + n)%nat; (length h + n)%nat]) /\
  length (snd (Deck_init shuffle k rows h)) = (2 * n + 2)%nat.
Proof.
  unfold Deck_init, load_cards_from_csv. cbn [fst snd].
  rewrite length_app, length_map.
  assert (Hp : Permutation
    (shuffle k (((seq (length h) (length rows) ++ seq (length h) (length rows)) ++
                 [(length h + length rows)%nat]) ++ [(length h + length rows)%nat]))
    ((seq (length h) (length rows) ++ seq (length h) (length rows)) ++
     [(length h + length rows)%nat; (length h + length rows)%nat])).
  { etransitivity; [apply shuffle_perm|]. rewrite <- app_assoc. reflexivity. }
  split; [reflexivity|]. split; [exact Hp|].
  rewrite (Permutation_length Hp), !length_app, !length_seq. simpl. lia.
Qed.

(** C8.  With a catalog of 52 rows and two distinct player names, each
    player's fresh deck holds 106 references (every catalog card twice,
    the Joker twice); the initial deal succeeds and leaves 86 cards in
    each deck, 10 cards in each wall and 10 in each hand. *)
Theorem initial_deal_counts (rows : list Row) (name0 name1 : string) :
  length rows = 52%nat ->
  name0 <> name1 ->
  let fresh := GameState_fresh shuffle rows name0 name1 in
  (exists deck0 deck1,
     decks fresh !! name0 = Some deck0 /\ decks fresh !! name1 = Some deck1 /\
     length deck0 = 106%nat /\ length deck1 = 106%nat /\
     Permutation deck0 ((seq 0 52 ++ seq 0 52) ++ [52%nat; 52%nat]) /\
     Permutation deck1 ((seq 53 52 ++ seq 53 52) ++ [105%nat; 105%nat]) /\
     heap fresh = (map card_of_row rows ++ [create_joker_card]) ++
                  (map card_of_row rows ++ [create_joker_card])) /\
  exists w,
    GameState_init shuffle rows name0 name1 = Some w /\
    (exists deck0 deck1,
       decks w !! name0 = Some deck0 /\ decks w !! name1 = Some deck1 /\
       length deck0 = 86%nat /\ length deck1 = 86%nat) /\
    (forall p, length (Player.wall (get_player w p)) = 10%nat /\
               length (Player.hand (get_player w p)) = 10%nat /\
               Player.battlement_zone (get_player w p) = [] /\
               Player.field_zone (get_player w p) = [] /\
               Player.discard_pile (get_player w p) = []).
Proof.
  intros Hrows Hne fresh.
  pose proof (Deck_init_spec 0 rows []) as H0.
  pose proof (Deck_init_spec 1 rows (fst (Deck_init shuffle 0 rows []))) as H1.
  cbv zeta in H0, H1. rewrite Hrows in H0, H1.
  destruct H0 as (Hh0 & Hp0 & Hl0). destruct H1 as (Hh1 & Hp1 & Hl1).
  assert (Hlen0 : length (fst (Deck_init shuffle 0 rows [])) = 53%nat).
  { rewrite Hh0, !length_app, length_map, Hrows. reflexivity. }
  rewrite Hlen0 in Hp1.
  change (2 * 52 + 2)%nat with 106%nat in Hl0, Hl1.
  assert (Hfresh : fresh =
    mkGS (fst (Deck_init shuffle 1 rows (fst (Deck_init shuffle 0 rows []))))
         (Player.init name0) (Player.init name1)
         (<[name1 := snd (Deck_init shuffle 1 rows (fst (Deck_init shuffle 0 rows [])))]>
            (<[name0 := snd (Deck_init shuffle 0 rows [])]> ∅)) []).
  { subst fresh. unfold GameState_fresh.
    destruct (Deck_init shuffle 0 rows []) as [h1 d0]. simpl.
    destruct (Deck_init shuffle 1 rows h1) as [h2 d1]. reflexivity. }
  set (d0 := snd (Deck_init shuffle 0 rows [])) in *.
  set (d1 := snd (Deck_init shuffle 1 rows (fst (Deck_init shuffle 0 rows [])))) in *.
  assert (Hd0 : decks fresh !! name0 = Some d0).
  { rewrite Hfresh. simpl. rewrite lookup_insert_ne by congruence.
    apply lookup_insert_eq. }
  assert (Hd1 : decks fresh !! name1 = Some d1).
  { rewrite Hfresh. simpl. apply lookup_insert_eq. }
  split.
  - exists d0, d1.
    split; [exact Hd0|]. split; [exact Hd1|]. split; [exact Hl0|].
    split; [exact Hl1|]. split; [exact Hp0|]. split; [exact Hp1|].
    rewrite Hfresh. cbn [heap]. rewrite Hh1, Hh0. simpl.
    rewrite <- !app_assoc. reflexivity.
  - assert (Hn0 : Player.name (get_player fresh P0) = name0) by (rewrite Hfresh; reflexivity).
    destruct (deal_initial_spec P0 fresh d0) as (dr0 & r0 & _ & Hdr0 & Hr0 & Hdeal0).
    { rewrite Hn0. exact Hd0. }
    { rewrite Hl0. lia. }
    rewrite Hn0 in Hdeal0.
    set (w1 := upd_player P0
                 (fun pl => Player.with_hand (drop 10 dr0) (Player.with_wall (take 10 dr0) pl))
                 (with_decks (<[name0 := r0]> (decks fresh)) fresh)) in *.
    assert (Hn1 : Player.name (get_player w1 P1) = name1) by (subst w1; rewrite Hfresh; reflexivity).
    destruct (deal_initial_spec P1 w1 d1) as (dr1 & r1 & _ & Hdr1 & Hr1 & Hdeal1).
    { rewrite Hn1. subst w1. simpl. rewrite lookup_insert_ne by congruence. exact Hd1. }
    { rewrite Hl1. lia. }
    rewrite Hn1 in Hdeal1.
    eexists. split.
    { unfold GameState_init, assign_initial_cards. fold fresh.
      rewrite Hdeal0. exact Hdeal1. }
    split.
    + exists r0, r1. simpl. repeat split.
      * rewrite lookup_insert_ne by congruence. apply lookup_insert_eq.
      * apply lookup_insert_eq.
      * rewrite Hr0, Hl0. reflexivity.
      * rewrite Hr1, Hl1. reflexivity.
    + intros p. destruct p; subst w1; rewrite Hfresh; simpl;
        rewrite ?length_take, ?length_drop, ?Hdr0, ?Hdr1; repeat split.
Qed.

End Deck_properties.

(** A 52-row catalog, the names used by [main], decks left unshuffled. *)
Lemma initial_deal_counts_witness :
  length C8_example.rows = 52%nat /\ "Player1" <> "Player2" /\
  exists w,
    GameState_init C8_example.no_shuffle C8_example.rows "Player1" "Player2" = Some w /\
    exists deck0 deck1,
      decks w !! "Player1" = Some deck0 /\ decks w !! "Player2" = Some deck1 /\
      length deck0 = 86%nat /\ length deck1 = 86%nat.
Proof.
  split; [reflexivity|]. split; [discriminate|].
  destruct (initial_deal_counts C8_example.no_shuffle
              (fun k l => Permutation_refl l) C8_example.rows "Player1" "Player2"
              eq_refl ltac:(discriminate))
    as (_ & w & Hw & Hdecks & _).
  exists w. split; [exact Hw | exact Hdecks].
Defined.

(** ** C9: score and winner *)

Lemma get_card_face_down (w : GameState) (c : CardId) :
  all_face_down w -> Card.is_face_down (get_card w c) = true.
Proof.
  intros H. unfold get_card. destruct (heap w !! c) as [cd|] eqn:Hc; [|reflexivity].
  exact (Forall_lookup_1 _ _ _ _ H Hc).
Qed.

(** C9.  [determine_winner] returns a player together with that player's
    score; no player has a higher score, so a player whose score is
    strictly higher than the opponent's is the winner (on equal scores the
    first player is returned).  The score computed by [calculate_points]
    is twice the characters in the own field zone plus twice the trap-rank
    cards in the own wall, which is the specification's score as cards never
    lie face-up. *)
Theorem determine_winner_spec (w : GameState) :
  let winner := fst (determine_winner w) in
  let points := snd (determine_winner w) in
  points = calculate_points winner w /\
  (forall p, calculate_points p w <= points) /\
  (forall p, calculate_points (other p) w < calculate_points p w -> winner = p) /\
  (calculate_points P0 w = calculate_points P1 w -> winner = P0) /\
  (all_face_down w -> forall p, calculate_points p w = spec_score p w).
Proof.
  cbv zeta. unfold determine_winner, py_max_by. cbn [fst snd].
  destruct (Z.ltb_spec (calculate_points P0 w) (calculate_points P1 w)) as [Hlt|Hge].
  - split; [reflexivity|]. split; [intros []; lia|]. split; [|split].
    + intros [] H; simpl in H; [lia|reflexivity].
    + intros H. lia.
    + intros Hfd p. unfold calculate_points, spec_score. do 4 f_equal.
      apply list_filter_iff. intros c. rewrite (get_card_face_down w c Hfd). tauto.
  - split; [reflexivity|]. split; [intros []; lia|]. split; [|split].
    + intros [] H; simpl in H; [reflexivity|lia].
    + reflexivity.
    + intros Hfd p. unfold calculate_points, spec_score. do 4 f_equal.
      apply list_filter_iff. intros c. rewrite (get_card_face_down w c Hfd). tauto.
Qed.

(** Two characters against one character and two traps: 4 points against
    6, the second player wins; with one trap fewer the scores are equal
    and the first player is returned. *)
Lemma determine_winner_witness :
  all_face_down C9_example.w' /\
  calculate_points (other P1) C9_example.w' < calculate_points P1 C9_example.w' /\
  determine_winner C9_example.w' = (P1, 6) /\
  spec_score P1 C9_example.w' = 6 /\
  determine_winner C9_example.w = (P0, 4).
Proof.
  assert (Hfd : all_face_down C9_example.w') by (repeat constructor).
  assert (Hlt : calculate_points (other P1) C9_example.w' < calculate_points P1 C9_example.w')
    by reflexivity.
  split; [exact Hfd|]. split; [exact Hlt|].
  destruct (determine_winner_spec C9_example.w') as (Hpts & _ & Hwin & _ & Hspec).
  specialize (Hwin P1 Hlt). specialize (Hspec Hfd P1).
  split; [|split; [rewrite <- Hspec; reflexivity | reflexivity]].
  destruct (determine_winner C9_example.w') as [win pts]. simpl in *.
  subst win. rewrite Hpts. reflexivity.
Defined.

(** The face-down invariant holds of a fresh game and is kept by the
    operations that write to cards. *)
Lemma all_face_down_upd_card c f w :
  (forall cd, Card.is_face_down cd = true -> Card.is_face_down (f cd) = true) ->
  all_face_down w -> all_face_down (upd_card c f w).
Proof.
  intros Hf H. unfold all_face_down, upd_card. simpl.
  apply Forall_alter; [exact H|]. intros cd _. apply Hf.
Qed.

Lemma all_face_down_fresh shuffle rows name0 name1 :
  all_face_down (GameState_fresh shuffle rows name0 name1).
Proof.
  unfold all_face_down, GameState_fresh, Deck_init, load_cards_from_csv. simpl.
  rewrite !Forall_app. repeat split; try (repeat constructor);
    apply Forall_forall; intros cd Hin; apply list_elem_of_In, in_map_iff in Hin;
    destruct Hin as (r & <- & _); reflexivity.
Qed.

Lemma all_face_down_place_card_in_wall p card w :
  all_face_down w -> all_face_down (place_card_in_wall p card w).
Proof.
  intros H. unfold place_card_in_wall.
  destruct (length (Player.wall (get_player w p)) <? 14)%nat.
  - unfold all_face_down. destruct p; simpl;
      (apply Forall_alter; [exact H|]; intros cd _; reflexivity).
  - destruct p; exact H.
Qed.

Lemma all_face_down_apply_damage_to_target a t w :
  all_face_down w -> all_face_down (apply_damage_to_target a t w).
Proof.
  intros H. unfold all_face_down. rewrite apply_damage_to_target_heap.
  apply Forall_alter; [exact H|]. intros cd _ Hcd; exact Hcd.
Qed.

(** ** Worked instances *)

(** Discarding the only hand card of the ranged example. *)
Lemma discard_card_witness :
  Player.hand (get_player (discard_card P0 1 C7_example.w) P0) = [] /\
  Player.discard_pile (get_player (discard_card P0 1 C7_example.w) P0) = [1%nat] /\
  discard_card P0 0 C7_example.w = emit (EvNotInHand 0) C7_example.w.
Proof.
  destruct (discard_card_spec P0 1 C7_example.w) as (H1 & _ & _ & _ & H5 & _).
  destruct (discard_card_spec P0 0 C7_example.w) as (H6 & _).
  split; [exact H1|]. split; [exact H5 | exact H6].
Defined.

(** The 14th card goes to the wall, the 15th to the discard pile. *)
Lemma place_card_in_wall_witness :
  wall_bounded C5_example.w /\
  wall_bounded (place_cards C5_example.placements C5_example.w) /\
  Player.wall (get_player (place_card_in_wall P0 13 C5_example.w) P0) = seq 0 14 /\
  Player.wall (get_player (place_cards C5_example.placements C5_example.w) P0) = seq 0 14 /\
  Player.discard_pile (get_player (place_cards C5_example.placements C5_example.w) P0)
    = [14%nat].
Proof.
  assert (Hb : wall_bounded C5_example.w) by (intros []; simpl; lia).
  destruct (place_card_in_wall_spec P0 13 C5_example.w) as ((Hw & _) & _ & _ & _ & _ & Hinv).
  split; [exact Hb|]. split; [exact (Hinv C5_example.placements Hb)|].
  split; [exact Hw|]. split; reflexivity.
Defined.

(** The doubled deck repeats references: with the decks left in
    construction order, the card of catalog row 51 is dealt into the first
    player's wall while the deck still holds its other reference. *)
Lemma initial_deal_aliases :
  match GameState_init C8_example.no_shuffle C8_example.rows "Player1" "Player2" with
  | Some w => holders 51 w = [InZone P0 Wall; InDeck P0]
  | None => False
  end.
Proof. vm_compute. reflexivity. Qed.

Lemma deal_initial_heap p w w' : deal_initial p w = Some w' -> heap w' = heap w.
Proof.
  unfold deal_initial.
  destruct (decks w !! Player.name (get_player w p)) as [deck|]; [|discriminate].
  destruct (draw_n 20 deck) as [[drawn rest]|]; [|discriminate].
  intros [= <-]. destruct p; reflexivity.
Qed.

Lemma all_face_down_init shuffle rows name0 name1 w :
  GameState_init shuffle rows name0 name1 = Some w -> all_face_down w.
Proof.
  unfold GameState_init, assign_initial_cards.
  destruct (deal_initial P0 _) as [w1|] eqn:H0; [|discriminate].
  intros H1. unfold all_face_down.
  rewrite (deal_initial_heap _ _ _ H1), (deal_initial_heap _ _ _ H0).
  apply all_face_down_fresh.
Qed.

Lemma all_face_down_discard_card p card w :
  all_face_down w -> all_face_down (discard_card p card w).
Proof.
  unfold all_face_down, discard_card.
  destruct (py_in card (Player.hand (get_player w p))); destruct p; trivial.
Qed.

Lemma all_face_down_take_damage c d w :
  all_face_down w -> all_face_down (take_damage c d w).
Proof.
  intros H. unfold take_damage.
  assert (H1 : all_face_down
                 (upd_card c (fun cd => Card.with_damage_points (Card.damage_points cd - d) cd) w))
    by (apply all_face_down_upd_card; [intros cd Hcd; exact Hcd | exact H]).
  destruct (_ <=? 0); [|exact H1].
  unfold all_face_down. rewrite destroy_card_heap. exact H1.
Qed.

Lemma all_face_down_perform_selected_melee_action p c w ins :
  all_face_down w ->
  match perform_selected_melee_action p c w ins with
  | Ok _ w' | Raise _ w' => all_face_down w'
  end.
Proof.
  intros H. unfold perform_selected_melee_action, select_melee_target.
  destruct (_ <=? 0); [exact H|].
  destruct (available_targets w p) as [|t ts]; [exact H|].
  destruct (choose_index _ ins) as [[i rest]|]; [|exact H].
  destruct ((t :: ts) !! i) as [target|]; [|exact H].
  apply all_face_down_upd_card; [intros cd Hcd; exact Hcd|].
  apply all_face_down_apply_damage_to_target. exact H.
Qed.


(** * Further properties *)

(** ** Drawing *)

Lemma draw_card_name p w : 
  Player.name (get_player (draw_card p w) p) = Player.name (get_player w p).
Proof.
  unfold draw_card. destruct (decks w !! _) as [deck|]; [|reflexivity].
  destruct (Deck_draw deck) as [[deck' card]|]; [|reflexivity].
  destruct p; reflexivity.
Qed.

(** X1.  [n] calls of [draw_card] move the top [min n (length deck)]
    cards of the player's deck to the end of the hand, topmost first, and
    touch nothing else: no other zone, no card record, no other deck.
    Drawing from an exhausted deck changes nothing. *)
Theorem draw_cards_spec (n : nat) (p : pid) :
  forall (w : GameState) (deck : list CardId),
    decks w !! Player.name (get_player w p) = Some deck ->
    let w' := draw_cards n p w in
    let key := Player.name (get_player w p) in
    decks w' !! key = Some (take (length deck - n) deck) /\
    Player.hand (get_player w' p)
      = Player.hand (get_player w p) ++ rev (drop (length deck - n) deck) /\
    Player.name (get_player w' p) = key /\
    Player.wall (get_player w' p) = Player.wall (get_player w p) /\
    Player.battlement_zone (get_player w' p) = Player.battlement_zone (get_player w p) /\
    Player.field_zone (get_player w' p) = Player.field_zone (get_player w p) /\
    Player.discard_pile (get_player w' p) = Player.discard_pile (get_player w p) /\
    get_player w' (other p) = get_player w (other p) /\
    heap w' = heap w /\
    (forall k, k <> key -> decks w' !! k = decks w !! k).
Proof.
  induction n as [|n IH]; intros w deck Hdeck; cbv zeta.
  - simpl. rewrite Nat.sub_0_r, firstn_all, drop_all, app_nil_r.
    repeat split; try reflexivity. exact Hdeck.
  - simpl. unfold draw_card at 1 2 3 4 5 6 7 8 9 10. rewrite Hdeck.
    destruct (snoc_cases deck) as [->|(d & c & ->)].
    + unfold Deck_draw. rewrite py_pop_nil.
      specialize (IH w [] Hdeck). cbv zeta in IH. simpl in *. exact IH.
    + unfold Deck_draw. rewrite py_pop_snoc.
      set (w1 := upd_player p (fun pl => Player.with_hand (Player.hand pl ++ [c]) pl)
                   (with_decks (<[Player.name (get_player w p) := d]> (decks w)) w)).
      assert (Hn1 : Player.name (get_player w1 p) = Player.name (get_player w p))
        by (subst w1; destruct p; reflexivity).
      assert (Hd1 : decks w1 !! Player.name (get_player w1 p) = Some d).
      { rewrite Hn1. subst w1. destruct p; simpl; apply lookup_insert_eq. }
      specialize (IH w1 d Hd1). cbv zeta in IH. rewrite Hn1 in IH.
      destruct IH as (I1 & I2 & I3 & I4 & I5 & I6 & I7 & I8 & I9 & I10).
      rewrite length_app. simpl length.
      replace (length d + 1 - S n)%nat with (length d - n)%nat by lia.
      repeat split.
      * rewrite I1. f_equal. rewrite take_app_le by lia. reflexivity.
      * rewrite I2. rewrite drop_app_le by lia. rewrite rev_app_distr. simpl.
        subst w1. destruct p; simpl; rewrite <- app_assoc; reflexivity.
      * exact I3.
      * rewrite I4. subst w1. destruct p; reflexivity.
      * rewrite I5. subst w1. destruct p; reflexivity.
      * rewrite I6. subst w1. destruct p; reflexivity.
      * rewrite I7. subst w1. destruct p; reflexivity.
      * rewrite I8. subst w1. destruct p; reflexivity.
      * rewrite I9. subst w1. destruct p; reflexivity.
      * intros k Hk. rewrite (I10 k Hk). subst w1.
        destruct p; simpl; apply lookup_insert_ne; intros E; apply Hk; symmetry; exact E.
Qed.

(** Five draws from a deck of three: the deck is emptied, the hand grows
    by the three cards, topmost first. *)
Lemma draw_cards_witness :
  decks X_draw_example.w !! Player.name (get_player X_draw_example.w P0)
    = Some [0%nat; 1%nat; 2%nat] /\
  decks (draw_cards 5 P0 X_draw_example.w) !! "Player1" = Some [] /\
  Player.hand (get_player (draw_cards 5 P0 X_draw_example.w) P0)
    = [3%nat; 2%nat; 1%nat; 0%nat].
Proof.
  split; [reflexivity|].
  destruct (draw_cards_spec 5 P0 X_draw_example.w [0%nat; 1%nat; 2%nat] eq_refl)
    as (H1 & H2 & _).
  split; [exact H1 | exact H2].
Defined.

(** ** Moving destroyed cards *)

Lemma py_remove_perm (x : CardId) (l : list CardId) :
  x ∈ l -> Permutation (x :: py_remove x l) l.
Proof.
  induction l as [|y l IH]; intros H; [inversion H|].
  simpl. destruct (Nat.eqb_spec x y) as [->|Hne]; [reflexivity|].
  apply elem_of_cons in H as [H|H]; [congruence|].
  rewrite perm_swap. apply perm_skip. apply IH. exact H.
Qed.

Lemma py_remove_middle (x : CardId) (l1 l2 : list CardId) :
  x ∉ l1 -> py_remove x (l1 ++ x :: l2) = l1 ++ l2.
Proof.
  induction l1 as [|y l1 IH]; intros H; simpl.
  - rewrite Nat.eqb_refl. reflexivity.
  - apply not_elem_of_cons in H as [Hne Hl].
    destruct (Nat.eqb_spec x y); [congruence|]. f_equal. apply IH. exact Hl.
Qed.

(** X2.  [remove_from_zone_and_discard] on a card standing in the
    player's field zone or battlement zone is a move: the three lists
    field zone, battlement zone and discard pile together hold the same
    references as before, the card's reference having gone from its zone
    (the field zone when it stands in both) to the end of the discard
    pile.  On a card in neither zone it only appends: the discard pile
    gains a reference that no zone gave up. *)
Theorem remove_from_zone_and_discard_spec (p : pid) (card : CardId) (w : GameState) :
  let pl := get_player w p in
  let w' := remove_from_zone_and_discard p card w in
  let pl' := get_player w' p in
  Player.discard_pile pl' = Player.discard_pile pl ++ [card] /\
  Player.hand pl' = Player.hand pl /\ Player.wall pl' = Player.wall pl /\
  get_player w' (other p) = get_player w (other p) /\
  heap w' = heap w /\ decks w' = decks w /\
  (card ∈ Player.field_zone pl ->
     Player.field_zone pl' = py_remove card (Player.field_zone pl) /\
     Player.battlement_zone pl' = Player.battlement_zone pl) /\
  (card ∉ Player.field_zone pl -> card ∈ Player.battlement_zone pl ->
     Player.field_zone pl' = Player.field_zone pl /\
     Player.battlement_zone pl' = py_remove card (Player.battlement_zone pl)) /\
  (card ∈ Player.field_zone pl \/ card ∈ Player.battlement_zone pl ->
     Permutation (Player.field_zone pl' ++ Player.battlement_zone pl' ++ Player.discard_pile pl')
                 (Player.field_zone pl ++ Player.battlement_zone pl ++ Player.discard_pile pl)) /\
  (card ∉ Player.field_zone pl -> card ∉ Player.battlement_zone pl ->
     Player.field_zone pl' = Player.field_zone pl /\
     Player.battlement_zone pl' = Player.battlement_zone pl).
Proof.
  cbv zeta. unfold remove_from_zone_and_discard.
  destruct (py_in card (Player.field_zone (get_player w p))) eqn:HF;
    [apply py_in_spec in HF | apply py_in_false in HF];
    [|destruct (py_in card (Player.battlement_zone (get_player w p))) eqn:HB;
      [apply py_in_spec in HB | apply py_in_false in HB]].
  - destruct p; simpl in *; (repeat split; try tauto);
      intros _;
      (etransitivity; [|apply Permutation_app_tail; apply (py_remove_perm card _ HF)]);
      simpl; rewrite !app_assoc; symmetry; apply Permutation_cons_append.
  - destruct p; simpl in *; (repeat split; try tauto);
      intros _; apply Permutation_app_head;
      (etransitivity; [|apply Permutation_app_tail; apply (py_remove_perm card _ HB)]);
      simpl; rewrite !app_assoc; symmetry; apply Permutation_cons_append.
  - destruct p; simpl in *; repeat split; tauto.
Qed.

(** A character of the battlement zone (the state of the destruction
    example): moved to the discard pile, held by one container after. *)
Lemma remove_from_zone_and_discard_witness :
  (0%nat ∉ Player.field_zone (get_player C2_example.w_guard P0)) /\
  (0%nat ∈ Player.battlement_zone (get_player C2_example.w_guard P0)) /\
  Player.battlement_zone (get_player (remove_from_zone_and_discard P0 0 C2_example.w_guard) P0)
    = py_remove 0 (Player.battlement_zone (get_player C2_example.w_guard P0)) /\
  holders 0 (remove_from_zone_and_discard P0 0 C2_example.w_guard) = [InZone P0 Discard].
Proof.
  assert (Hin : 0%nat ∈ Player.battlement_zone (get_player C2_example.w_guard P0))
    by (apply list_elem_of_In; left; reflexivity).
  assert (Hout : 0%nat ∉ Player.field_zone (get_player C2_example.w_guard P0))
    by (intros H; inversion H).
  destruct (remove_from_zone_and_discard_spec P0 0 C2_example.w_guard)
    as (_ & _ & _ & _ & _ & _ & _ & HB & _).
  destruct (HB Hout Hin) as [_ HBZ].
  split; [exact Hout|]. split; [exact Hin|]. split; [exact HBZ|reflexivity].
Defined.

Lemma sweep_spec (dead : CardId -> bool) (copy : list CardId) :
  forall (kept discard : list CardId),
    (forall x, x ∈ kept -> dead x = false) ->
    sweep dead copy (kept ++ copy) discard
    = (kept ++ filter (fun c => dead c = false) copy,
       discard ++ filter (fun c => dead c = true) copy).
Proof.
  induction copy as [|c copy IH]; intros kept discard Hkept.
  - simpl. rewrite !app_nil_r. reflexivity.
  - simpl. rewrite !filter_cons. destruct (dead c) eqn:Hc.
    + rewrite py_remove_middle.
      * rewrite IH by assumption.
        rewrite decide_False by discriminate. rewrite decide_True by reflexivity.
        rewrite <- app_assoc. reflexivity.
      * intros Hin. apply Hkept in Hin. congruence.
    + rewrite decide_True by reflexivity. rewrite decide_False by discriminate.
      replace (kept ++ c :: copy) with ((kept ++ [c]) ++ copy)
        by (rewrite <- app_assoc; reflexivity).
      rewrite IH.
      * rewrite <- app_assoc. reflexivity.
      * intros x Hx. apply elem_of_app in Hx as [Hx|Hx]; [auto|].
        apply list_elem_of_singleton in Hx. subst x. exact Hc.
Qed.

Lemma sweep_zone_spec (dead : CardId -> bool) (p : pid) (z : ZoneName) (w : GameState) :
  z <> Discard ->
  let w' := sweep_zone dead p z w in
  zone_get w' p z = filter (fun c => dead c = false) (zone_get w p z) /\
  zone_get w' p Discard
    = zone_get w p Discard ++ filter (fun c => dead c = true) (zone_get w p z) /\
  (forall z', z' <> z -> z' <> Discard -> zone_get w' p z' = zone_get w p z') /\
  get_player w' (other p) = get_player w (other p) /\
  heap w' = heap w /\ decks w' = decks w /\ out w' = out w.
Proof.
  intros Hz. cbv zeta. unfold sweep_zone.
  pose proof (sweep_spec dead (zone_get w p z) [] (zone_get w p Discard)
                ltac:(intros x Hx; inversion Hx)) as Hs.
  change ([] ++ zone_get w p z) with (zone_get w p z) in Hs.
  rewrite Hs. clear Hs.
  destruct p, z; try congruence; simpl; repeat split;
    intros z' H1 H2; destruct z'; try congruence; reflexivity.
Qed.

Lemma filter_dead_alive_perm (dead : CardId -> bool) (l : list CardId) :
  Permutation (filter (fun c => dead c = false) l ++ filter (fun c => dead c = true) l) l.
Proof.
  induction l as [|x l IH]; [reflexivity|].
  rewrite !filter_cons. destruct (dead x).
  - rewrite decide_False by discriminate. rewrite decide_True by reflexivity.
    rewrite <- Permutation_middle. apply perm_skip. exact IH.
  - rewrite decide_True by reflexivity. rewrite decide_False by discriminate.
    simpl. apply perm_skip. exact IH.
Qed.

(** X3.  [remove_destroyed_characters] keeps in the field zone and in the
    battlement zone exactly the cards with damage points above 0, in their
    order, and appends the others to the discard pile (field zone first),
    every reference of a card held twice included.  So no card with damage
    points <= 0 is left in either zone and no reference is lost or
    invented. *)
Theorem remove_destroyed_characters_spec (p : pid) (w : GameState) :
  let dead := fun c => Card.damage_points (get_card w c) <=? 0 in
  let pl := get_player w p in
  let w' := remove_destroyed_characters p w in
  let pl' := get_player w' p in
  Player.field_zone pl' = filter (fun c => dead c = false) (Player.field_zone pl) /\
  Player.battlement_zone pl' = filter (fun c => dead c = false) (Player.battlement_zone pl) /\
  Player.discard_pile pl'
    = Player.discard_pile pl ++ filter (fun c => dead c = true) (Player.field_zone pl)
        ++ filter (fun c => dead c = true) (Player.battlement_zone pl) /\
  (forall c, c ∈ Player.field_zone pl' ++ Player.battlement_zone pl' ->
             0 < Card.damage_points (get_card w' c)) /\
  Permutation (Player.field_zone pl' ++ Player.battlement_zone pl' ++ Player.discard_pile pl')
              (Player.field_zone pl ++ Player.battlement_zone pl ++ Player.discard_pile pl) /\
  Player.hand pl' = Player.hand pl /\ Player.wall pl' = Player.wall pl /\
  get_player w' (other p) = get_player w (other p) /\
  heap w' = heap w /\ decks w' = decks w.
Proof.
  cbv zeta. unfold remove_destroyed_characters.
  set (dead := fun c => Card.damage_points (get_card w c) <=? 0).
  destruct (sweep_zone_spec dead p Field w ltac:(discriminate))
    as (F1 & F2 & F3 & F4 & F5 & F6 & _).
  set (w1 := sweep_zone dead p Field w) in *.
  destruct (sweep_zone_spec dead p Battlement w1 ltac:(discriminate))
    as (B1 & B2 & B3 & B4 & B5 & B6 & _).
  set (w2 := sweep_zone dead p Battlement w1) in *.
  assert (HF : Player.field_zone (get_player w2 p)
               = filter (fun c => dead c = false) (Player.field_zone (get_player w p))).
  { change (zone_get w2 p Field = filter (fun c => dead c = false) (zone_get w p Field)).
    rewrite (B3 Field) by discriminate. exact F1. }
  assert (HB : Player.battlement_zone (get_player w2 p)
               = filter (fun c => dead c = false) (Player.battlement_zone (get_player w p))).
  { change (zone_get w2 p Battlement
            = filter (fun c => dead c = false) (zone_get w p Battlement)).
    rewrite B1. rewrite (F3 Battlement) by discriminate. reflexivity. }
  assert (HD : Player.discard_pile (get_player w2 p)
               = Player.discard_pile (get_player w p)
                 ++ filter (fun c => dead c = true) (Player.field_zone (get_player w p))
                 ++ filter (fun c => dead c = true) (Player.battlement_zone (get_player w p))).
  { change (zone_get w2 p Discard = zone_get w p Discard
              ++ filter (fun c => dead c = true) (zone_get w p Field)
              ++ filter (fun c => dead c = true) (zone_get w p Battlement)).
    rewrite B2, F2. rewrite (F3 Battlement) by discriminate.
    rewrite <- app_assoc. reflexivity. }
  split; [exact HF|]. split; [exact HB|]. split; [exact HD|].
  split; [|split; [|split; [|split; [|split; [|split]]]]].
  - intros c Hc. unfold get_card. rewrite B5, F5. fold (get_card w c).
    rewrite HF, HB in Hc.
    apply elem_of_app in Hc as [Hc|Hc]; apply list_elem_of_filter in Hc as [Hc _];
      unfold dead in Hc; apply Z.leb_gt in Hc; exact Hc.
  - rewrite HF, HB, HD.
    set (FZ := Player.field_zone (get_player w p)).
    set (BZ := Player.battlement_zone (get_player w p)).
    set (D := Player.discard_pile (get_player w p)).
    pose proof (filter_dead_alive_perm dead FZ) as PF.
    pose proof (filter_dead_alive_perm dead BZ) as PB.
    rewrite <- PF at 3. rewrite <- PB at 3. clear PF PB.
    solve_Permutation.
  - change (zone_get w2 p Hand = zone_get w p Hand).
    rewrite (B3 Hand), (F3 Hand) by discriminate. reflexivity.
  - change (zone_get w2 p Wall = zone_get w p Wall).
    rewrite (B3 Wall), (F3 Wall) by discriminate. reflexivity.
  - rewrite B4. exact F4.
  - rewrite B5. exact F5.
  - rewrite B6. exact F6.
Qed.

Lemma sweep_two_zones_spec (dead : CardId -> bool) (p : pid) (z1 z2 : ZoneName) (w : GameState) :
  z1 <> Discard -> z2 <> Discard -> z1 <> z2 ->
  let w' := sweep_zone dead p z2 (sweep_zone dead p z1 w) in
  zone_get w' p z1 = filter (fun c => dead c = false) (zone_get w p z1) /\
  zone_get w' p z2 = filter (fun c => dead c = false) (zone_get w p z2) /\
  zone_get w' p Discard
    = zone_get w p Discard ++ filter (fun c => dead c = true) (zone_get w p z1)
        ++ filter (fun c => dead c = true) (zone_get w p z2) /\
  (forall z', z' <> z1 -> z' <> z2 -> z' <> Discard -> zone_get w' p z' = zone_get w p z') /\
  get_player w' (other p) = get_player w (other p) /\
  heap w' = heap w /\ decks w' = decks w /\ out w' = out w.
Proof.
  intros H1 H2 H12. cbv zeta.
  destruct (sweep_zone_spec dead p z1 w H1) as (F1 & F2 & F3 & F4 & F5 & F6 & F7).
  destruct (sweep_zone_spec dead p z2 (sweep_zone dead p z1 w) H2)
    as (B1 & B2 & B3 & B4 & B5 & B6 & B7).
  repeat split.
  - rewrite (B3 z1) by congruence. exact F1.
  - rewrite B1, (F3 z2) by congruence. reflexivity.
  - rewrite B2, F2, (F3 z2) by congruence. rewrite <- app_assoc. reflexivity.
  - intros z' N1 N2 N3. rewrite (B3 z'), (F3 z') by congruence. reflexivity.
  - rewrite B4. exact F4.
  - rewrite B5. exact F5.
  - rewrite B6. exact F6.
  - rewrite B7. exact F7.
Qed.

(** X4.  [check_and_handle_zero_damage_points] removes from the
    battlement and field zones of both players exactly the references to
    characters whose damage points are <= 0 and appends them to the
    owner's discard pile (battlement zone first); a non-character card
    stays in its zone whatever its damage points, and hands, walls, decks
    and card records are untouched. *)
Theorem check_and_handle_zero_damage_points_spec (w : GameState) :
  let dead := fun c => Card.is_a_character (get_card w c) &&
                       (Card.damage_points (get_card w c) <=? 0) in
  let w' := check_and_handle_zero_damage_points w in
  (forall p,
     zone_get w' p Battlement = filter (fun c => dead c = false) (zone_get w p Battlement) /\
     zone_get w' p Field = filter (fun c => dead c = false) (zone_get w p Field) /\
     zone_get w' p Discard
       = zone_get w p Discard ++ filter (fun c => dead c = true) (zone_get w p Battlement)
           ++ filter (fun c => dead c = true) (zone_get w p Field) /\
     zone_get w' p Hand = zone_get w p Hand /\
     zone_get w' p Wall = zone_get w p Wall) /\
  (forall p z c, (z = Battlement \/ z = Field) -> c ∈ zone_get w p z ->
     Card.is_a_character (get_card w c) = false -> c ∈ zone_get w' p z) /\
  (forall p z c, (z = Battlement \/ z = Field) -> c ∈ zone_get w' p z ->
     Card.is_a_character (get_card w' c) = true -> 0 < Card.damage_points (get_card w' c)) /\
  heap w' = heap w /\ decks w' = decks w.
Proof.
  cbv zeta. unfold check_and_handle_zero_damage_points.
  set (dead := fun c => Card.is_a_character (get_card w c) &&
                        (Card.damage_points (get_card w c) <=? 0)).
  destruct (sweep_two_zones_spec dead P0 Battlement Field w
              ltac:(discriminate) ltac:(discriminate) ltac:(discriminate))
    as (A1 & A2 & A3 & A4 & A5 & A6 & A7 & _).
  set (w1 := sweep_zone dead P0 Field (sweep_zone dead P0 Battlement w)) in *.
  destruct (sweep_two_zones_spec dead P1 Battlement Field w1
              ltac:(discriminate) ltac:(discriminate) ltac:(discriminate))
    as (B1 & B2 & B3 & B4 & B5 & B6 & B7 & _).
  set (w2 := sweep_zone dead P1 Field (sweep_zone dead P1 Battlement w1)) in *.
  assert (Hother0 : forall z, zone_get w2 P0 z = zone_get w1 P0 z).
  { intros z. unfold zone_get. simpl in B5. unfold get_player. rewrite B5. reflexivity. }
  assert (Hother1 : forall z, zone_get w1 P1 z = zone_get w P1 z).
  { intros z. unfold zone_get. simpl in A5. unfold get_player. rewrite A5. reflexivity. }
  assert (Hzones : forall p,
     zone_get w2 p Battlement = filter (fun c => dead c = false) (zone_get w p Battlement) /\
     zone_get w2 p Field = filter (fun c => dead c = false) (zone_get w p Field) /\
     zone_get w2 p Discard
       = zone_get w p Discard ++ filter (fun c => dead c = true) (zone_get w p Battlement)
           ++ filter (fun c => dead c = true) (zone_get w p Field) /\
     zone_get w2 p Hand = zone_get w p Hand /\
     zone_get w2 p Wall = zone_get w p Wall).
  { intros [|].
    - rewrite !Hother0. repeat split; try assumption; apply A4; discriminate.
    - rewrite B1, B2, B3, (B4 Hand), (B4 Wall), !Hother1 by discriminate.
      repeat split. }
  assert (Hheap : heap w2 = heap w) by (rewrite B6; exact A6).
  split; [exact Hzones|]. split; [|split; [|split; [exact Hheap | rewrite B7; exact A7]]].
  - intros p z c Hz Hc Hnc. destruct (Hzones p) as (Z1 & Z2 & _).
    assert (Hd : dead c = false) by (unfold dead; rewrite Hnc; reflexivity).
    destruct Hz as [-> | ->]; [rewrite Z1 | rewrite Z2];
      apply list_elem_of_filter; split; assumption.
  - intros p z c Hz Hc Hch. destruct (Hzones p) as (Z1 & Z2 & _).
    assert (Hg : get_card w2 c = get_card w c)
      by (unfold get_card; rewrite Hheap; reflexivity).
    rewrite Hg in Hch |- *.
    assert (Hd : dead c = false).
    { destruct Hz as [-> | ->]; [rewrite Z1 in Hc | rewrite Z2 in Hc];
        apply list_elem_of_filter in Hc as [Hc _]; exact Hc. }
    unfold dead in Hd. rewrite Hch in Hd. simpl in Hd. apply Z.leb_gt in Hd. exact Hd.
Qed.

(** ** Joker damage on the player side *)

(** X5.  [damage_wall] takes [min damage (length wall)] cards off the
    front of the target's wall and appends them, in that order, to the
    target's discard pile, a trap card like any other; nothing else
    changes, so the discard pile followed by the wall lists the same
    references before and after. *)
Theorem damage_wall_spec (target : pid) (damage : Z) (w : GameState) :
  let n := Nat.min (Z.to_nat damage) (length (Player.wall (get_player w target))) in
  let pl := get_player w target in
  let w' := damage_wall target damage w in
  let pl' := get_player w' target in
  Player.wall pl' = drop n (Player.wall pl) /\
  Player.discard_pile pl' = Player.discard_pile pl ++ take n (Player.wall pl) /\
  Player.discard_pile pl' ++ Player.wall pl' = Player.discard_pile pl ++ Player.wall pl /\
  Player.hand pl' = Player.hand pl /\
  Player.battlement_zone pl' = Player.battlement_zone pl /\
  Player.field_zone pl' = Player.field_zone pl /\
  get_player w' (other target) = get_player w (other target) /\
  heap w' = heap w /\ decks w' = decks w.
Proof.
  cbv zeta. unfold damage_wall.
  generalize (Z.to_nat damage) as d. clear damage. intros d.
  revert w. induction d as [|d IH]; intros w.
  - simpl. rewrite drop_0, app_nil_r. repeat split.
  - simpl damage_wall_loop.
    destruct (Player.wall (get_player w target)) as [|c wall'] eqn:Hwall.
    + rewrite Hwall. simpl. rewrite app_nil_r. repeat split; try exact Hwall.
    + set (w2 := upd_player target
                   (fun pl => Player.with_discard_pile (Player.discard_pile pl ++ [c]) pl)
                   (upd_player target (Player.with_wall wall') w)).
      assert (Hsame :
        (if negb (Card.is_trap (get_card (upd_player target (Player.with_wall wall') w) c) &&
                  bool_decide (Card.special_ability
                                 (get_card (upd_player target (Player.with_wall wall') w) c) = "Trap"))
         then w2 else w2) = w2) by (destruct (negb _); reflexivity).
      rewrite Hsame. specialize (IH w2).
      assert (Hw2 : Player.wall (get_player w2 target) = wall'
                    /\ Player.discard_pile (get_player w2 target)
                       = Player.discard_pile (get_player w target) ++ [c]
                    /\ Player.hand (get_player w2 target) = Player.hand (get_player w target)
                    /\ Player.battlement_zone (get_player w2 target)
                       = Player.battlement_zone (get_player w target)
                    /\ Player.field_zone (get_player w2 target)
                       = Player.field_zone (get_player w target)
                    /\ get_player w2 (other target) = get_player w (other target)
                    /\ heap w2 = heap w /\ decks w2 = decks w)
        by (subst w2; destruct target; repeat split).
      destruct Hw2 as (W1 & W2 & W3 & W4 & W5 & W6 & W7 & W8).
      rewrite W1, W2, W3, W4, W5, W6, W7, W8 in IH.
      destruct IH as (I1 & I2 & I3 & I4 & I5 & I6 & I7 & I8 & I9).
      simpl length. rewrite <- Nat.succ_min_distr. simpl drop. simpl take.
      repeat split; try assumption.
      * rewrite I2, <- app_assoc. reflexivity.
      * rewrite I3, <- app_assoc. reflexivity.
Qed.

Lemma zone_get_set_same p z v w : zone_get (zone_set p z v w) p z = v.
Proof. destruct p, z; reflexivity. Qed.

Lemma zone_get_set_other p z z' v w :
  z <> z' -> zone_get (zone_set p z v w) p z' = zone_get w p z'.
Proof. destruct p, z, z'; intros H; try reflexivity; congruence. Qed.

Lemma zone_get_set_other_player p q z z' v w :
  p <> q -> zone_get (zone_set p z v w) q z' = zone_get w q z'.
Proof. destruct p, q, z, z'; intros H; try reflexivity; congruence. Qed.

Lemma py_pop_at_perm {A} (i : nat) (l l' : list A) (x : A) :
  py_pop_at i l = Some (l', x) -> Permutation (x :: l') l /\ l !! i = Some x.
Proof.
  unfold py_pop_at. destruct (l !! i) as [y|] eqn:Hi; [|discriminate].
  intros [= <- <-]. split; [|reflexivity].
  pose proof (take_drop_middle l i y Hi) as Hm.
  rewrite Permutation_middle, Hm. reflexivity.
Qed.

Lemma damage_characters_unfold target z damage w ins :
  damage_characters target z damage w ins =
  if damage <=? 0 then Ok ins w
  else
    match zone_get w target z with
    | [] => Ok ins w
    | characters =>
        match ins with
        | [] => Raise EOFError w
        | Word _ :: rest => damage_characters target z damage w rest
        | Num index_choice :: rest =>
            if (0 <=? index_choice) && (index_choice <? Z.of_nat (length characters)) then
              match py_pop_at (Z.to_nat index_choice) characters with
              | None => damage_characters target z damage w rest
              | Some (characters', character) =>
                  let w1 := upd_card character
                              (fun cd => Card.with_damage_points (Card.damage_points cd - 1) cd) w in
                  if Card.damage_points (get_card w1 character) <=? 0 then
                    let w2 := upd_player target
                                (fun pl => Player.with_discard_pile
                                             (Player.discard_pile pl ++ [character]) pl) w1 in
                    damage_characters target z damage
                      (zone_set target z
                         (default [] (fst <$> py_pop_at (Z.to_nat index_choice) (zone_get w2 target z)))
                         w2)
                      rest
                  else damage_characters target z damage w1 rest
              end
            else damage_characters target z damage w rest
        end
    end.
Proof. destruct ins; reflexivity. Qed.

(** X6.  [damage_characters] never counts its damage down: with any
    positive [damage] it keeps prompting until the target zone is empty or
    the input ends, so it returns normally only with the zone emptied, and
    its result is the same for every positive amount.  Whatever happens,
    each card taken out of the zone is appended to the target's discard
    pile: zone and discard pile together hold the same references as
    before. *)
Theorem damage_characters_spec (target : pid) (z : ZoneName) (damage : Z)
    (ins : list Inp) :
  z <> Discard ->
  0 < damage ->
  forall w,
    match damage_characters target z damage w ins with
    | Ok _ w' =>
        zone_get w' target z = [] /\
        Permutation (zone_get w' target Discard)
                    (zone_get w target z ++ zone_get w target Discard)
    | Raise e w' =>
        e = EOFError /\
        Permutation (zone_get w' target z ++ zone_get w' target Discard)
                    (zone_get w target z ++ zone_get w target Discard)
    end /\
    (forall damage', 0 < damage' ->
       damage_characters target z damage' w ins = damage_characters target z damage w ins).
Proof.
  intros Hz Hpos.
  assert (Hd : (damage <=? 0) = false) by (apply Z.leb_gt; exact Hpos).
  induction ins as [|i ins IH]; intros w.
  - split.
    + rewrite damage_characters_unfold, Hd.
      destruct (zone_get w target z) eqn:Hzone.
      * split; [exact Hzone|]. rewrite ?Hzone. reflexivity.
      * split; [reflexivity|]. rewrite ?Hzone. reflexivity.
    + intros d' Hd'. rewrite !damage_characters_unfold, Hd.
      replace (d' <=? 0) with false by (symmetry; apply Z.leb_gt; exact Hd').
      reflexivity.
  - set (L := zone_get w target z ++ zone_get w target Discard).
    assert (Hstep : forall w1,
        Permutation (zone_get w1 target z ++ zone_get w1 target Discard) L ->
        match damage_characters target z damage w1 ins with
        | Ok _ w' =>
            zone_get w' target z = [] /\ Permutation (zone_get w' target Discard) L
        | Raise e w' =>
            e = EOFError /\
            Permutation (zone_get w' target z ++ zone_get w' target Discard) L
        end).
    { intros w1 Hp. destruct (IH w1) as [IH1 _].
      destruct (damage_characters target z damage w1 ins) as [a w'|e w'].
      - destruct IH1 as [E P]. split; [exact E|]. rewrite P. exact Hp.
      - destruct IH1 as [E P]. split; [exact E|]. rewrite P. exact Hp. }
    assert (Hrefl : Permutation (zone_get w target z ++ zone_get w target Discard) L)
      by reflexivity.
    split.
    + rewrite damage_characters_unfold, Hd.
      destruct (zone_get w target z) as [|c0 cs] eqn:Hzone.
      { split; [exact Hzone|]. rewrite <- Hrefl, ?Hzone. reflexivity. }
      rewrite <- Hzone in *.
      destruct i as [idx|s]; [|apply Hstep; exact Hrefl].
      cbv zeta.
      destruct ((0 <=? idx) && _); [|apply Hstep; exact Hrefl].
      destruct (py_pop_at (Z.to_nat idx) (zone_get w target z)) as [[chars' ch]|] eqn:Hpop;
        [|apply Hstep; exact Hrefl].
      cbv zeta.
      destruct (py_pop_at_perm _ _ _ _ Hpop) as [Hperm _].
      destruct (Card.damage_points (get_card (upd_card ch _ w) ch) <=? 0).
      * apply Hstep.
        rewrite zone_get_set_same, zone_get_set_other by exact Hz.
        assert (Hz2 : zone_get
                        (upd_player target
                           (fun pl => Player.with_discard_pile (Player.discard_pile pl ++ [ch]) pl)
                           (upd_card ch
                              (fun cd => Card.with_damage_points (Card.damage_points cd - 1) cd) w))
                        target z = zone_get w target z)
          by (destruct target, z; try congruence; reflexivity).
        assert (Hdisc : zone_get
                        (upd_player target
                           (fun pl => Player.with_discard_pile (Player.discard_pile pl ++ [ch]) pl)
                           (upd_card ch
                              (fun cd => Card.with_damage_points (Card.damage_points cd - 1) cd) w))
                        target Discard = zone_get w target Discard ++ [ch])
          by (destruct target; reflexivity).
        rewrite Hz2, Hpop, Hdisc. simpl.
        rewrite <- Hrefl, <- Hperm. solve_Permutation.
      * apply Hstep. exact Hrefl.
    + intros d' Hd'. rewrite !(damage_characters_unfold target z _ w (i :: ins)), Hd.
      replace (d' <=? 0) with false by (symmetry; apply Z.leb_gt; exact Hd').
      destruct (zone_get w target z) as [|c0 cs]; [reflexivity|].
      destruct i as [idx|s]; [|apply IH; exact Hd'].
      cbv zeta.
      destruct ((0 <=? idx) && _); [|apply IH; exact Hd'].
      destruct (py_pop_at (Z.to_nat idx) (c0 :: cs)) as [[chars' ch]|];
        [|apply IH; exact Hd'].
      cbv zeta.
      match goal with |- context [Card.damage_points ?c <=? 0] =>
        destruct (Card.damage_points c <=? 0) end; apply IH; exact Hd'.
Qed.

(** One point of damage against two 1-point characters: both are
    destroyed, and ten points do exactly the same. *)
Lemma damage_characters_witness :
  Battlement <> Discard /\ 0 < 1 /\
  (exists w', damage_characters P1 Battlement 1 X_joker_example.w [Num 0; Num 0] = Ok [] w' /\
     zone_get w' P1 Battlement = [] /\ zone_get w' P1 Discard = [0%nat; 1%nat]) /\
  damage_characters P1 Battlement 10 X_joker_example.w [Num 0; Num 0]
  = damage_characters P1 Battlement 1 X_joker_example.w [Num 0; Num 0].
Proof.
  split; [discriminate|]. split; [reflexivity|].
  destruct (damage_characters_spec P1 Battlement 1 [Num 0; Num 0]
              ltac:(discriminate) ltac:(reflexivity) X_joker_example.w) as [_ Hind].
  split; [|exact (Hind 10 ltac:(reflexivity))].
  eexists. split; [vm_compute; reflexivity|]. split; reflexivity.
Defined.

(** ** The ranged phase as a whole *)

Lemma check_source_of_damage_cases (card : CardId) (p : pid) (w : GameState) :
  check_source_of_damage card p w = (false, w) \/
  exists h,
    h ∈ Player.hand (get_player w p) /\
    (Card.name (get_card w h) = "Ammo" \/ Card.name (get_card w h) = "Magic") /\
    check_source_of_damage card p w
    = (true,
       upd_player p (fun pl => Player.with_discard_pile (Player.discard_pile pl ++ [h]) pl)
         (upd_player p (fun pl => Player.with_hand (py_remove h (Player.hand pl)) pl) w)).
Proof.
  unfold check_source_of_damage, damage_source.
  destruct (bool_decide (Card.sub_class (get_card w card) ∈ ["2"; "3"; "Jack"])).
  - destruct (find _ _) as [h|] eqn:Hf; [|left; reflexivity].
    right. exists h. apply find_some in Hf as [Hin Hn].
    apply bool_decide_eq_true in Hn. split; [apply list_elem_of_In; exact Hin|].
    split; [left; exact Hn | reflexivity].
  - destruct (bool_decide (Card.sub_class (get_card w card) ∈ ["8"; "9"; "Queen"]));
      [|left; reflexivity].
    destruct (find _ _) as [h|] eqn:Hf; [|left; reflexivity].
    right. exists h. apply find_some in Hf as [Hin Hn].
    apply bool_decide_eq_true in Hn. split; [apply list_elem_of_In; exact Hin|].
    split; [right; exact Hn | reflexivity].
Qed.

Lemma ranged_characters_in_zone (w : GameState) (p : pid) (c : CardId) :
  c ∈ ranged_characters w p ->
  c ∈ Player.field_zone (get_player w p) ++ Player.battlement_zone (get_player w p).
Proof. unfold ranged_characters. intros H. apply list_elem_of_filter in H as [_ H]. exact H. Qed.

(** X7.  No ranged attack is ever carried out.  Whatever is typed,
    [handle_ranged_actions] leaves every card record as it was (no damage
    dealt, no action point spent).  It ends normally, or at the end of the
    input, only with the whole board unchanged; the first attack whose
    damage source is found in the hand moves that source card to the
    discard pile and then ends the phase with [AttributeError]. *)
Theorem handle_ranged_actions_never_attacks (p : pid) (ins : list Inp) :
  forall (taken : bool) (w : GameState),
    match handle_ranged_loop p taken w ins with
    | Ok _ w' => same_board w w'
    | Raise e w' =>
        (e = EOFError /\ same_board w w') \/
        (e = AttributeError /\
         heap w' = heap w /\ decks w' = decks w /\
         get_player w' (other p) = get_player w (other p) /\
         Player.wall (get_player w' p) = Player.wall (get_player w p) /\
         Player.battlement_zone (get_player w' p) = Player.battlement_zone (get_player w p) /\
         Player.field_zone (get_player w' p) = Player.field_zone (get_player w p) /\
         exists h,
           h ∈ Player.hand (get_player w p) /\
           (Card.name (get_card w h) = "Ammo" \/ Card.name (get_card w h) = "Magic") /\
           Player.hand (get_player w' p) = py_remove h (Player.hand (get_player w p)) /\
           Player.discard_pile (get_player w' p) = Player.discard_pile (get_player w p) ++ [h])
    end.
Proof.
  assert (Hrefl : forall w, same_board w w) by (intros; repeat split).
  induction ins as [|i ins IH]; intros taken w; rewrite handle_ranged_loop_unfold.
  - destruct (ranged_characters w p); [destruct taken; repeat split|].
    left. split; [reflexivity|apply Hrefl].
  - destruct (ranged_characters w p) as [|c0 cs] eqn:Hrc; [destruct taken; repeat split|].
    destruct i as [z|s].
    + destruct ((0 <=? z) && (z <? Z.of_nat (length (c0 :: cs)))); [|apply IH].
      destruct ((c0 :: cs) !! Z.to_nat z) as [sel|] eqn:Hsel; [|apply IH].
      assert (Hzone : sel ∈ Player.field_zone (get_player w p)
                            ++ Player.battlement_zone (get_player w p)).
      { apply ranged_characters_in_zone. rewrite Hrc.
        apply list_elem_of_lookup. eauto. }
      destruct (check_source_of_damage_cases sel p w) as [Hno|(h & Hin & Hname & Hyes)].
      * rewrite Hno. specialize (IH taken (emit EvInsufficientSource w)).
        destruct (handle_ranged_loop p taken (emit EvInsufficientSource w) ins) as [a w'|e w'].
        -- destruct IH as (?&?&?&?). repeat split; assumption.
        -- destruct IH as [[He (?&?&?&?)]|(He & H1 & H2 & H3 & H4 & H5 & H6 & h & G1 & G2 & G3 & G4)].
           ++ left. split; [exact He|]. repeat split; assumption.
           ++ right. split; [exact He|].
              assert (Hp : get_player (emit EvInsufficientSource w) p = get_player w p)
                by (destruct p; reflexivity).
              assert (Hq : get_player (emit EvInsufficientSource w) (other p)
                           = get_player w (other p)) by (destruct p; reflexivity).
              rewrite Hp in *. rewrite Hq in *.
              repeat split; try assumption. exists h. repeat split; assumption.
      * rewrite Hyes. unfold perform_selected_ranged_action.
        set (w1 := upd_player p _ (upd_player p _ w)).
        assert (HB : Player.battlement_zone (get_player w1 p)
                     = Player.battlement_zone (get_player w p))
          by (subst w1; destruct p; reflexivity).
        assert (HF : Player.field_zone (get_player w1 p) = Player.field_zone (get_player w p))
          by (subst w1; destruct p; reflexivity).
        rewrite HB, HF.
        assert (Hraise : forall b1 b2 : bool, b1 || b2 = true ->
                  (if b1 then Raise AttributeError w1
                   else if b2 then Raise AttributeError w1
                   else Ok tt (upd_card sel
                          (fun cd => Card.with_action_point (Card.action_point cd - 1) cd) w1))
                  = @Raise GameState unit AttributeError w1)
          by (intros [|] [|] Hb; try reflexivity; discriminate Hb).
        rewrite Hraise.
        -- right. split; [reflexivity|].
           subst w1. destruct p; simpl; repeat split; exists h; repeat split; assumption.
        -- apply orb_true_iff.
           apply elem_of_app in Hzone as [Hz|Hz]; [right|left]; apply py_in_spec; exact Hz.
    + destruct (bool_decide (s = "pass")); [apply Hrefl | apply IH].
Qed.

(** ** A card resolved with "Discard" *)

Lemma refs_in_zero (x : CardId) (l : list CardId) : refs_in x l = 0%nat <-> x ∉ l.
Proof. rewrite refs_in_pos. lia. Qed.

Section ASP_discard.

Variable reveal : pid -> CardId -> GameState -> list Inp -> Res GameState (list Inp).

(** X8.  A card committed to the pile and then resolved with choice 2
    (Discard) drops out of the game.  The first player commits the hand
    card at index [i], the second places the token, and the prompt for the
    card is answered "2": [discard_card] then looks for the card in the
    hand it has already left and only reports "not in hand".  If the hand
    held the only reference to the card, nothing references it afterwards:
    the hand has lost it and the discard pile has not gained it. *)
Theorem asp_discard_choice_loses_card (g : Game) (i : nat) (card : CardId) (rest : list Inp) :
  asp g = [] ->
  Player.hand (player0 (gs g)) !! i = Some card ->
  Card.is_trap (get_card (gs g) card) = false ->
  references card (gs g) = 1%nat ->
  exists g',
    handle_asp_actions reveal g (Num (Z.of_nat i) :: Word "token" :: Num 2 :: rest)
      = Ok rest g' /\
    gs g' = emit (EvNotInHand card)
              (upd_player P0
                 (Player.with_hand (take i (Player.hand (player0 (gs g)))
                                    ++ drop (S i) (Player.hand (player0 (gs g)))))
                 (gs g)) /\
    asp g' = [] /\ resolved g' = resolved g ++ [(P0, card)] /\
    Player.discard_pile (player0 (gs g')) = Player.discard_pile (player0 (gs g)) /\
    references card (gs g') = 0%nat.
Proof.
  intros Hasp Hi Htrap Hrefs.
  set (hand := Player.hand (player0 (gs g))) in *.
  set (hand' := take i hand ++ drop (S i) hand).
  assert (Hlt : (i < length hand)%nat) by (apply lookup_lt_Some in Hi; exact Hi).
  assert (Hsplit : hand = take i hand ++ card :: drop (S i) hand)
    by (symmetry; apply take_drop_middle; exact Hi).
  assert (Hcount : refs_in card hand = S (refs_in card hand')).
  { rewrite Hsplit at 1. unfold hand'. rewrite !refs_in_app, refs_in_cons.
    rewrite decide_True by reflexivity. lia. }
  assert (Hsum : references card (gs g)
                 = (refs_in card hand
                    + (refs_in card (Player.wall (player0 (gs g)))
                       + (refs_in card (Player.battlement_zone (player0 (gs g)))
                          + (refs_in card (Player.field_zone (player0 (gs g)))
                             + (refs_in card (Player.discard_pile (player0 (gs g)))
                                + (refs_in card (contents (gs g) (InDeck P0))
                                   + (refs_in card (Player.hand (player1 (gs g)))
                                      + (refs_in card (Player.wall (player1 (gs g)))
                                         + (refs_in card (Player.battlement_zone (player1 (gs g)))
                                            + (refs_in card (Player.field_zone (player1 (gs g)))
                                               + (refs_in card (Player.discard_pile (player1 (gs g)))
                                                  + (refs_in card (contents (gs g) (InDeck P1))
                                                     + 0))))))))))))%nat)
    by reflexivity.
  assert (Hnot : py_in card hand' = false).
  { apply py_in_false, refs_in_zero. lia. }
  set (w1 := upd_player P0 (Player.with_hand hand') (gs g)).
  exists (mkGame (emit (EvNotInHand card) w1) [] (resolved g ++ [(P0, card)])).
  split; [|split; [reflexivity|split; [reflexivity|split; [reflexivity|split; [reflexivity|]]]]].
  - unfold handle_asp_actions.
    assert (Hplace : asp_placement P0 g (Num (Z.of_nat i) :: Word "token" :: Num 2 :: rest)
                     = Ok (Num 2 :: rest) (mkGame w1 [(P0, card)] (resolved g))).
    { simpl. fold hand.
      replace ((0 <=? Z.of_nat i) && (Z.of_nat i <? Z.of_nat (length hand))) with true
        by (symmetry; apply andb_true_iff; split; [apply Z.leb_le|apply Z.ltb_lt]; lia).
      unfold py_pop_at. rewrite Nat2Z.id, Hi, Hasp. reflexivity. }
    rewrite Hplace. unfold resolve_asp. simpl.
    unfold resolve_asp_card. simpl.
    replace (get_card w1 card) with (get_card (gs g) card) by reflexivity.
    rewrite Htrap. unfold discard_card. simpl.
    change (Player.hand (player0 w1)) with hand'. rewrite Hnot. reflexivity.
  - assert (Hsum' : references card (emit (EvNotInHand card) w1)
            = (refs_in card hand'
                    + (refs_in card (Player.wall (player0 (gs g)))
                       + (refs_in card (Player.battlement_zone (player0 (gs g)))
                          + (refs_in card (Player.field_zone (player0 (gs g)))
                             + (refs_in card (Player.discard_pile (player0 (gs g)))
                                + (refs_in card (contents (gs g) (InDeck P0))
                                   + (refs_in card (Player.hand (player1 (gs g)))
                                      + (refs_in card (Player.wall (player1 (gs g)))
                                         + (refs_in card (Player.battlement_zone (player1 (gs g)))
                                            + (refs_in card (Player.field_zone (player1 (gs g)))
                                               + (refs_in card (Player.discard_pile (player1 (gs g)))
                                                  + (refs_in card (contents (gs g) (InDeck P1))
                                                     + 0))))))))))))%nat) by reflexivity.
    cbn [gs]. rewrite Hsum'.
    lia.
Qed.

End ASP_discard.

(** Card A of the pile example, committed and then "discarded": it was
    referenced once, by the hand, and is referenced by nothing after. *)
Lemma asp_discard_choice_loses_card_witness :
  asp C3_example.g = [] /\
  Player.hand (player0 (gs C3_example.g)) !! 0%nat = Some 0%nat /\
  Card.is_trap (get_card (gs C3_example.g) 0) = false /\
  references 0 (gs C3_example.g) = 1%nat /\
  exists g',
    handle_asp_actions C3_example.no_reveal C3_example.g [Num 0; Word "token"; Num 2]
      = Ok [] g' /\
    references 0 (gs g') = 0%nat /\ holders 0 (gs g') = [].
Proof.
  split; [reflexivity|]. split; [reflexivity|]. split; [reflexivity|].
  split; [reflexivity|].
  destruct (asp_discard_choice_loses_card C3_example.no_reveal C3_example.g 0 0 []
              eq_refl eq_refl eq_refl eq_refl) as (g' & Hrun & Hgs & _ & _ & _ & Hrefs).
  exists g'. split; [exact Hrun|]. split; [exact Hrefs|].
  rewrite Hgs. reflexivity.
Defined.

(** ** Movement *)

Lemma py_pop_at_sublist {A} (i : nat) (l l' : list A) (x : A) :
  py_pop_at i l = Some (l', x) ->
  l' = take i l ++ drop (S i) l /\ l = take i l ++ x :: drop (S i) l /\
  sublist l' l /\ S (length l') = length l.
Proof.
  unfold py_pop_at. destruct (l !! i) as [y|] eqn:Hi; [|discriminate].
  intros [= <- <-]. pose proof (take_drop_middle l i y Hi) as Hm.
  split; [reflexivity|]. split; [symmetry; exact Hm|]. split.
  - rewrite <- Hm at 3. apply sublist_app; [reflexivity|]. apply sublist_cons. reflexivity.
  - rewrite <- Hm at 3. rewrite !length_app. simpl. lia.
Qed.

Lemma move_loop_conserves (p : pid) (idxs : list nat) :
  forall w,
    let w' := move_state (move_loop p idxs w) in
    Permutation (Player.battlement_zone (get_player w' p) ++ Player.field_zone (get_player w' p))
                (Player.battlement_zone (get_player w p) ++ Player.field_zone (get_player w p)) /\
    sublist (Player.battlement_zone (get_player w' p)) (Player.battlement_zone (get_player w p)) /\
    Player.hand (get_player w' p) = Player.hand (get_player w p) /\
    Player.wall (get_player w' p) = Player.wall (get_player w p) /\
    Player.discard_pile (get_player w' p) = Player.discard_pile (get_player w p) /\
    get_player w' (other p) = get_player w (other p) /\
    heap w' = heap w /\ decks w' = decks w.
Proof.
  induction idxs as [|idx idxs IH]; intros w; cbv zeta.
  - simpl. repeat split; reflexivity.
  - simpl.
    destruct (py_pop_at idx (Player.battlement_zone (get_player w p))) as [[bz' c]|] eqn:Hpop.
    + destruct (py_pop_at_sublist _ _ _ _ Hpop) as (_ & _ & Hsub & _).
      destruct (py_pop_at_perm _ _ _ _ Hpop) as [Hperm _].
      set (w2 := upd_player p (fun pl => Player.with_field_zone (Player.field_zone pl ++ [c]) pl)
                   (upd_player p (Player.with_battlement_zone bz') w)).
      specialize (IH w2). cbv zeta in IH.
      assert (Hw2 : Player.battlement_zone (get_player w2 p) = bz' /\
                    Player.field_zone (get_player w2 p) = Player.field_zone (get_player w p) ++ [c] /\
                    Player.hand (get_player w2 p) = Player.hand (get_player w p) /\
                    Player.wall (get_player w2 p) = Player.wall (get_player w p) /\
                    Player.discard_pile (get_player w2 p) = Player.discard_pile (get_player w p) /\
                    get_player w2 (other p) = get_player w (other p) /\
                    heap w2 = heap w /\ decks w2 = decks w)
        by (subst w2; destruct p; repeat split).
      destruct Hw2 as (W1 & W2 & W3 & W4 & W5 & W6 & W7 & W8).
      rewrite W1, W2, W3, W4, W5, W6, W7, W8 in IH.
      destruct IH as (I1 & I2 & I3 & I4 & I5 & I6 & I7 & I8).
      repeat split; try assumption.
      * rewrite I1, <- Hperm. solve_Permutation.
      * etransitivity; [exact I2 | exact Hsub].
    + simpl. repeat split; reflexivity.
Qed.

(** X9.  [handle_player_movement] never loses or invents a card, even
    when the same index is typed twice and a later [pop] ends in
    [IndexError]: battlement zone and field zone together hold the same
    references before and after, the battlement zone only shrinks, and
    nothing else changes.  If any index typed is out of range nothing
    moves at all. *)
Theorem handle_player_movement_conserves (p : pid) (indices : list nat) (w : GameState) :
  let bz := Player.battlement_zone (get_player w p) in
  let w' := move_state (handle_player_movement p indices w) in
  Permutation (Player.battlement_zone (get_player w' p) ++ Player.field_zone (get_player w' p))
              (bz ++ Player.field_zone (get_player w p)) /\
  sublist (Player.battlement_zone (get_player w' p)) bz /\
  Player.hand (get_player w' p) = Player.hand (get_player w p) /\
  Player.wall (get_player w' p) = Player.wall (get_player w p) /\
  Player.discard_pile (get_player w' p) = Player.discard_pile (get_player w p) /\
  get_player w' (other p) = get_player w (other p) /\
  heap w' = heap w /\ decks w' = decks w /\
  (Exists (fun idx => (length bz <= idx)%nat) indices ->
   handle_player_movement p indices w = Moved w).
Proof.
  cbv zeta. unfold handle_player_movement.
  destruct (Player.battlement_zone (get_player w p)) as [|c0 cs] eqn:Hbz.
  - simpl. rewrite Hbz. repeat split; reflexivity.
  - destruct (forallb _ indices) eqn:Hall.
    + pose proof (move_loop_conserves p (sort_desc indices) w) as H. cbv zeta in H.
      rewrite Hbz in H. destruct H as (H1 & H2 & H3 & H4 & H5 & H6 & H7 & H8).
      repeat split; try assumption.
      intros Hex. exfalso. apply Exists_exists in Hex as (idx & Hin & Hge).
      rewrite forallb_forall in Hall. apply list_elem_of_In in Hin.
      specialize (Hall idx Hin). apply Nat.ltb_lt in Hall. lia.
    + simpl. rewrite Hbz. repeat split; reflexivity.
Qed.

Lemma insert_desc_perm (i : nat) (l : list nat) : Permutation (insert_desc i l) (i :: l).
Proof.
  induction l as [|j l IH]; [reflexivity|].
  simpl. destruct (j <=? i)%nat; [reflexivity|].
  rewrite IH. apply perm_swap.
Qed.

Lemma sort_desc_perm (l : list nat) : Permutation (sort_desc l) l.
Proof.
  induction l as [|i l IH]; [reflexivity|].
  simpl. rewrite insert_desc_perm, IH. reflexivity.
Qed.

Lemma insert_desc_strict (i : nat) (l : list nat) :
  i ∉ l -> strictly_desc l -> strictly_desc (insert_desc i l).
Proof.
  induction l as [|j l IH]; intros Hi Hs.
  - simpl. split; [constructor|exact I].
  - apply not_elem_of_cons in Hi as [Hij Hil].
    destruct Hs as [Hall Hs]. simpl.
    destruct (Nat.leb_spec j i).
    + simpl. split; [|split; assumption].
      constructor; [lia|].
      eapply Forall_impl; [exact Hall|]. intros x Hx. simpl in Hx. lia.
    + simpl. split; [|apply IH; assumption].
      rewrite insert_desc_perm. constructor; [lia | exact Hall].
Qed.

Lemma sort_desc_strict (l : list nat) : NoDup l -> strictly_desc (sort_desc l).
Proof.
  induction 1 as [|i l Hi Hnd IH]; [exact I|].
  simpl. apply insert_desc_strict; [|exact IH].
  rewrite sort_desc_perm. exact Hi.
Qed.

Lemma lookup_pop_lt {A} (l : list A) (idx j : nat) :
  (j < idx)%nat -> (idx < length l)%nat ->
  (take idx l ++ drop (S idx) l) !! j = l !! j.
Proof.
  intros Hj Hidx. rewrite lookup_app_l by (rewrite length_take; lia).
  apply lookup_take_lt. exact Hj.
Qed.

Lemma omap_pop_lt {A} (l : list A) (idx : nat) (idxs : list nat) :
  Forall (fun j => (j < idx)%nat) idxs -> (idx < length l)%nat ->
  omap (fun i => (take idx l ++ drop (S idx) l) !! i) idxs = omap (fun i => l !! i) idxs.
Proof.
  intros Hall Hidx. induction idxs as [|j idxs IHj]; [reflexivity|].
  apply Forall_cons in Hall as [Hj Hall]. simpl.
  rewrite (lookup_pop_lt l idx j Hj Hidx).
  destruct (l !! j); [f_equal|]; exact (IHj Hall).
Qed.

Lemma move_loop_sorted (p : pid) (idxs : list nat) :
  forall w,
    strictly_desc idxs ->
    Forall (fun i => (i < length (Player.battlement_zone (get_player w p)))%nat) idxs ->
    exists w',
      move_loop p idxs w = Moved w' /\
      Player.field_zone (get_player w' p)
        = Player.field_zone (get_player w p)
          ++ omap (fun i => Player.battlement_zone (get_player w p) !! i) idxs /\
      length (Player.battlement_zone (get_player w' p))
        = (length (Player.battlement_zone (get_player w p)) - length idxs)%nat.
Proof.
  induction idxs as [|idx idxs IH]; intros w Hs Hlt.
  - exists w. simpl. rewrite app_nil_r, Nat.sub_0_r. repeat split.
  - destruct Hs as [Hall Hs].
    apply Forall_cons in Hlt as [Hidx Hlt].
    destruct (lookup_lt_is_Some_2 _ _ Hidx) as [c Hc].
    simpl. unfold py_pop_at. rewrite Hc.
    set (bz := Player.battlement_zone (get_player w p)) in *.
    set (w2 := upd_player p (fun pl => Player.with_field_zone (Player.field_zone pl ++ [c]) pl)
                 (upd_player p (Player.with_battlement_zone (take idx bz ++ drop (S idx) bz)) w)).
    assert (Hw2 : Player.battlement_zone (get_player w2 p) = take idx bz ++ drop (S idx) bz /\
                  Player.field_zone (get_player w2 p) = Player.field_zone (get_player w p) ++ [c])
      by (subst w2; destruct p; split; reflexivity).
    destruct Hw2 as [W1 W2].
    assert (Hlen : length (take idx bz ++ drop (S idx) bz) = (length bz - 1)%nat).
    { rewrite length_app, length_take, length_drop. lia. }
    destruct (IH w2 Hs) as (w' & Hrun & HF & HL).
    { rewrite W1, Hlen. apply Forall_forall. intros j Hj.
      rewrite Forall_forall in Hall. specialize (Hall j Hj). simpl in Hall. lia. }
    exists w'. split; [exact Hrun|]. split.
    + rewrite HF, W2, W1, (omap_pop_lt bz idx idxs Hall Hidx), <- app_assoc.
      f_equal.
    + rewrite HL, W1, Hlen. simpl. lia.
Qed.

(** X10.  When the indices typed are distinct and in range,
    [handle_player_movement] moves exactly the cards standing at those
    indices: they are appended to the field zone from the highest index
    down, the battlement zone shrinks by their number, and no exception is
    raised. *)
Theorem handle_player_movement_distinct (p : pid) (indices : list nat) (w : GameState) :
  let bz := Player.battlement_zone (get_player w p) in
  NoDup indices ->
  Forall (fun i => (i < length bz)%nat) indices ->
  exists w',
    handle_player_movement p indices w = Moved w' /\
    Player.field_zone (get_player w' p)
      = Player.field_zone (get_player w p) ++ omap (fun i => bz !! i) (sort_desc indices) /\
    length (omap (fun i => bz !! i) (sort_desc indices)) = length indices /\
    length (Player.battlement_zone (get_player w' p)) = (length bz - length indices)%nat.
Proof.
  cbv zeta. intros Hnd Hlt. unfold handle_player_movement.
  assert (Hlen : length (omap (fun i => Player.battlement_zone (get_player w p) !! i)
                           (sort_desc indices)) = length indices).
  { rewrite <- (Permutation_length (sort_desc_perm indices)).
    assert (Hs : Forall (fun i => (i < length (Player.battlement_zone (get_player w p)))%nat)
                   (sort_desc indices)) by (rewrite sort_desc_perm; exact Hlt).
    induction (sort_desc indices) as [|i l IHl]; [reflexivity|].
    apply Forall_cons in Hs as [Hi Hs]. simpl.
    destruct (lookup_lt_is_Some_2 _ _ Hi) as [c ->]. simpl. f_equal. apply IHl. exact Hs. }
  destruct (Player.battlement_zone (get_player w p)) as [|c0 cs] eqn:Hbz.
  - exists w. destruct indices as [|i indices].
    + simpl. rewrite app_nil_r, Hbz. repeat split.
    + apply Forall_cons in Hlt as [Hi _]. simpl in Hi. lia.
  - replace (forallb (fun idx => (idx <? length (c0 :: cs))%nat) indices) with true.
    + destruct (move_loop_sorted p (sort_desc indices) w) as (w' & Hrun & HF & HL).
      * apply sort_desc_strict. exact Hnd.
      * rewrite sort_desc_perm, Hbz. exact Hlt.
      * exists w'. rewrite Hbz in HF, HL.
        rewrite (Permutation_length (sort_desc_perm indices)) in HL.
        repeat split; assumption.
    + symmetry. apply forallb_forall. intros i Hi. apply Nat.ltb_lt.
      rewrite Forall_forall in Hlt. apply Hlt. apply list_elem_of_In. exact Hi.
Qed.

(** Indices 2 and 0 of a three-card battlement zone: cards 2 and 0 move,
    card 1 stays. *)
Lemma handle_player_movement_distinct_witness :
  NoDup [0%nat; 2%nat] /\
  Forall (fun i => (i < length (Player.battlement_zone (get_player X_move_example.w P0)))%nat)
         [0%nat; 2%nat] /\
  exists w',
    handle_player_movement P0 [0%nat; 2%nat] X_move_example.w = Moved w' /\
    Player.field_zone (get_player w' P0) = [2%nat; 0%nat] /\
    Player.battlement_zone (get_player w' P0) = [1%nat].
Proof.
  assert (Hnd : NoDup [0%nat; 2%nat]).
  { repeat constructor; intros H; repeat (apply elem_of_cons in H as [H|H]; try lia);
      inversion H. }
  assert (Hlt : Forall (fun i => (i < length (Player.battlement_zone
                                               (get_player X_move_example.w P0)))%nat)
                  [0%nat; 2%nat]) by (repeat constructor; simpl; lia).
  split; [exact Hnd|]. split; [exact Hlt|].
  destruct (handle_player_movement_distinct P0 [0%nat; 2%nat] X_move_example.w Hnd Hlt)
    as (w' & Hrun & HF & _).
  exists w'. split; [exact Hrun|]. split; [exact HF|].
  vm_compute in Hrun. injection Hrun as <-. reflexivity.
Defined.

(** The same index typed twice: the second [pop] takes another card or,
    as here, fails on an index past the end. *)
Lemma handle_player_movement_duplicate_index :
  handle_player_movement P0 [2%nat; 2%nat] X_move_example.w
  = MoveIndexError
      (mkGS (repeat C2_example.attacker 3)
            (Player.mk "Player1" [] [] [0%nat; 1%nat] [2%nat] [])
            (Player.init "Player2") ∅ []) /\
  handle_player_movement P0 [1%nat; 1%nat] X_move_example.w
  = Moved
      (mkGS (repeat C2_example.attacker 3)
            (Player.mk "Player1" [] [] [0%nat] [1%nat; 2%nat] [])
            (Player.init "Player2") ∅ []).
Proof. split; reflexivity. Qed.

(** ** Action points *)

Lemma set_points_frame (points : Card.t -> Z) (cards : list CardId) :
  forall w,
    let w' := fold_left (set_points points) cards w in
    player0 w' = player0 w /\ player1 w' = player1 w /\ decks w' = decks w /\ out w' = out w.
Proof.
  induction cards as [|x cards IH]; intros w; cbv zeta; [repeat split|].
  simpl. destruct (IH (set_points points w x)) as (H0 & H1 & H2 & H3).
  rewrite H0, H1, H2, H3. unfold set_points.
  destruct (Card.is_a_character (get_card w x)); repeat split.
Qed.

Lemma set_points_step (points : Card.t -> Z) (w : GameState) (x c : CardId) :
  get_card (set_points points w x) c
  = if bool_decide (x = c) && Card.is_a_character (get_card w c)
    then Card.with_action_point (points (get_card w c)) (get_card w c)
    else get_card w c.
Proof.
  unfold set_points. destruct (decide (x = c)) as [->|Hne].
  - rewrite bool_decide_eq_true_2 by reflexivity. simpl.
    destruct (Card.is_a_character (get_card w c)) eqn:Hch; [|reflexivity].
    unfold get_card, upd_card in *. simpl. rewrite list_lookup_alter_eq.
    destruct (heap w !! c); [reflexivity|]. simpl in Hch. discriminate Hch.
  - rewrite bool_decide_eq_false_2 by assumption. simpl.
    destruct (Card.is_a_character (get_card w x)); [|reflexivity].
    apply get_card_upd_other. exact Hne.
Qed.

Lemma set_points_fold (points : Card.t -> Z) (cards : list CardId) :
  (forall v cd, points (Card.with_action_point v cd) = points cd) ->
  forall w c,
    get_card (fold_left (set_points points) cards w) c
    = if bool_decide (c ∈ cards) && Card.is_a_character (get_card w c)
      then Card.with_action_point (points (get_card w c)) (get_card w c)
      else get_card w c.
Proof.
  intros Hpoints. induction cards as [|x cards IH]; intros w c.
  - cbn [fold_left]. rewrite bool_decide_eq_false_2 by (intros H; inversion H). reflexivity.
  - cbn [fold_left]. rewrite IH, set_points_step.
    destruct (decide (x = c)) as [->|Hne].
    + rewrite (bool_decide_eq_true_2 (c = c)) by reflexivity.
      rewrite (bool_decide_eq_true_2 (c ∈ c :: cards)) by (apply elem_of_cons; left; reflexivity).
      simpl. destruct (Card.is_a_character (get_card w c)) eqn:Hch.
      * simpl. rewrite Hch, Hpoints, andb_true_r.
        destruct (bool_decide (c ∈ cards)); [|reflexivity].
        destruct (get_card w c); reflexivity.
      * rewrite Hch, andb_false_r. reflexivity.
    + rewrite (bool_decide_eq_false_2 (x = c)) by assumption. simpl.
      destruct (decide (c ∈ cards)) as [Hin|Hnin].
      * rewrite !bool_decide_eq_true_2; [reflexivity| |exact Hin].
        apply elem_of_cons. right. exact Hin.
      * rewrite !bool_decide_eq_false_2; [reflexivity| |exact Hnin].
        intros H. apply elem_of_cons in H as [H|H]; [congruence|contradiction].
Qed.

Lemma baseline_with_action_point v cd : baseline (Card.with_action_point v cd) = baseline cd.
Proof. reflexivity. Qed.

(** The cards visited by the reset loops. *)
Lemma reset_action_points_eq (w : GameState) :
  reset_action_points w
  = fold_left (set_points baseline)
      (zone_get w P0 Battlement ++ zone_get w P0 Field
       ++ zone_get w P1 Battlement ++ zone_get w P1 Field) w.
Proof.
  unfold reset_action_points. simpl.
  set (w1 := fold_left (set_points baseline) (Player.battlement_zone (player0 w)) w).
  destruct (set_points_frame baseline (Player.battlement_zone (player0 w)) w) as (A0 & A1 & _).
  fold w1 in A0, A1. rewrite A0.
  set (w2 := fold_left (set_points baseline) (Player.field_zone (player0 w)) w1).
  destruct (set_points_frame baseline (Player.field_zone (player0 w)) w1) as (B0 & B1 & _).
  fold w2 in B0, B1. rewrite B1, A1.
  set (w3 := fold_left (set_points baseline) (Player.battlement_zone (player1 w)) w2).
  destruct (set_points_frame baseline (Player.battlement_zone (player1 w)) w2) as (C0 & C1 & _).
  fold w3 in C0, C1. rewrite C1, B1, A1.
  rewrite !fold_left_app. reflexivity.
Qed.

(** X11.  After [reset_action_points] every character standing in a
    battlement or field zone has the round baseline, 2 action points for
    the two Two-Eyed Jacks and 1 for any other character, whatever it had
    before; every other card record, and every other field of the
    characters, is as before, and no zone or deck changes. *)
Theorem reset_action_points_spec (w : GameState) :
  let w' := reset_action_points w in
  let standing := fun c =>
    bool_decide (c ∈ zone_get w P0 Battlement ++ zone_get w P0 Field
                     ++ zone_get w P1 Battlement ++ zone_get w P1 Field) in
  (forall c,
     get_card w' c
     = if standing c && Card.is_a_character (get_card w c)
       then Card.with_action_point (baseline (get_card w c)) (get_card w c)
       else get_card w c) /\
  (forall c, standing c = true -> Card.is_a_character (get_card w c) = true ->
     Card.action_point (get_card w' c)
     = if bool_decide (Card.name (get_card w c) ∈ ["Jack of Clubs"; "Jack of Diamonds"])
       then 2 else 1) /\
  player0 w' = player0 w /\ player1 w' = player1 w /\ decks w' = decks w.
Proof.
  cbv zeta.
  assert (Hmain : forall c,
     get_card (reset_action_points w) c
     = if bool_decide (c ∈ zone_get w P0 Battlement ++ zone_get w P0 Field
                           ++ zone_get w P1 Battlement ++ zone_get w P1 Field)
          && Card.is_a_character (get_card w c)
       then Card.with_action_point (baseline (get_card w c)) (get_card w c)
       else get_card w c).
  { intros c. rewrite reset_action_points_eq.
    apply (set_points_fold baseline _ baseline_with_action_point). }
  split; [exact Hmain|]. split.
  - intros c Hs Hch. rewrite Hmain, Hs, Hch. reflexivity.
  - rewrite reset_action_points_eq.
    destruct (set_points_frame baseline
                (zone_get w P0 Battlement ++ zone_get w P0 Field
                 ++ zone_get w P1 Battlement ++ zone_get w P1 Field) w) as (H0 & H1 & H2 & _).
    repeat split; assumption.
Qed.

(** A Two-Eyed Jack that has spent a point, an ordinary character and a
    non-character card: 2, 1 and untouched. *)
Lemma reset_action_points_witness :
  let w := upd_card 0 (Card.with_action_point 0) X_points_example.w in
  bool_decide (0%nat ∈ zone_get w P0 Battlement ++ zone_get w P0 Field
                       ++ zone_get w P1 Battlement ++ zone_get w P1 Field) = true /\
  Card.is_a_character (get_card w 0) = true /\
  Card.action_point (get_card w 0) = 0 /\
  Card.action_point (get_card (reset_action_points w) 0) = 2 /\
  Card.action_point (get_card (reset_action_points w) 1) = 1 /\
  get_card (reset_action_points w) 2 = get_card w 2.
Proof.
  cbv zeta.
  set (w := upd_card 0 (Card.with_action_point 0) X_points_example.w).
  destruct (reset_action_points_spec w) as (Hall & Hap & _).
  assert (Hs : bool_decide (0%nat ∈ zone_get w P0 Battlement ++ zone_get w P0 Field
                       ++ zone_get w P1 Battlement ++ zone_get w P1 Field) = true)
    by (apply bool_decide_eq_true_2; subst w; simpl;
        apply elem_of_cons; right; apply elem_of_cons; left; reflexivity).
  split; [exact Hs|]. split; [reflexivity|]. split; [reflexivity|].
  split; [exact (Hap 0%nat Hs eq_refl)|].
  split; [|rewrite (Hall 2%nat); rewrite andb_false_r; reflexivity].
  rewrite (Hap 1%nat); [reflexivity| |reflexivity].
  apply bool_decide_eq_true_2. subst w. simpl.
  apply elem_of_cons; right. apply elem_of_cons; right. apply elem_of_cons; left. reflexivity.
Defined.

Lemma restore_action_points_eq (w : GameState) :
  restore_action_points w
  = fold_left (set_points Card.initial_action_point)
      (field_and_battlement w P0 ++ field_and_battlement w P1) w.
Proof.
  destruct (set_points_frame Card.initial_action_point (field_and_battlement w P0) w)
    as (A0 & A1 & _).
  cbv zeta in A0, A1.
  unfold restore_action_points. cbn [fold_left]. rewrite fold_left_app.
  replace (field_and_battlement
             (fold_left (set_points Card.initial_action_point) (field_and_battlement w P0) w) P1)
    with (field_and_battlement w P1); [reflexivity|].
  change (Player.field_zone (player1 w) ++ Player.battlement_zone (player1 w)
          = Player.field_zone
              (player1 (fold_left (set_points Card.initial_action_point)
                          (field_and_battlement w P0) w))
            ++ Player.battlement_zone
                 (player1 (fold_left (set_points Card.initial_action_point)
                             (field_and_battlement w P0) w))).
  rewrite A1. reflexivity.
Qed.

(** X12.  After [restore_action_points] every character standing in a
    field or battlement zone has its [initial_action_point], which
    [Card.__init__] takes from the catalog before it grants the Two-Eyed
    Jacks their 2 points: a character still as built from its catalog row
    ends with the row's action point, so a Two-Eyed Jack listed with 1 is
    restored to 1.  Every other card record is as before and no zone or
    deck changes. *)
Theorem restore_action_points_spec (w : GameState) :
  let w' := restore_action_points w in
  let standing := fun c =>
    bool_decide (c ∈ field_and_battlement w P0 ++ field_and_battlement w P1) in
  (forall c,
     get_card w' c
     = if standing c && Card.is_a_character (get_card w c)
       then Card.with_action_point (Card.initial_action_point (get_card w c)) (get_card w c)
       else get_card w c) /\
  (forall c r, heap w !! c = Some (card_of_row r) -> standing c = true ->
     row_is_a_character r = true ->
     Card.action_point (get_card w' c) = row_action_point r) /\
  player0 w' = player0 w /\ player1 w' = player1 w /\ decks w' = decks w.
Proof.
  cbv zeta.
  assert (Hmain : forall c,
     get_card (restore_action_points w) c
     = if bool_decide (c ∈ field_and_battlement w P0 ++ field_and_battlement w P1)
          && Card.is_a_character (get_card w c)
       then Card.with_action_point (Card.initial_action_point (get_card w c)) (get_card w c)
       else get_card w c).
  { intros c. rewrite restore_action_points_eq.
    apply (set_points_fold Card.initial_action_point). reflexivity. }
  split; [exact Hmain|]. split.
  - intros c r Hc Hs Hch. rewrite Hmain, Hs.
    unfold get_card. rewrite Hc. simpl. rewrite Hch. reflexivity.
  - rewrite restore_action_points_eq.
    destruct (set_points_frame Card.initial_action_point
                (field_and_battlement w P0 ++ field_and_battlement w P1) w)
      as (H0 & H1 & H2 & _).
    repeat split; assumption.
Qed.

(** The Two-Eyed Jack of the example is built with 2 action points from a
    row listing 1, and restored to 1. *)
Lemma restore_action_points_witness :
  heap X_points_example.w !! 0%nat = Some (card_of_row X_points_example.jack_row) /\
  bool_decide (0%nat ∈ field_and_battlement X_points_example.w P0
                       ++ field_and_battlement X_points_example.w P1) = true /\
  row_is_a_character X_points_example.jack_row = true /\
  Card.action_point (get_card X_points_example.w 0) = 2 /\
  Card.action_point (get_card (restore_action_points X_points_example.w) 0) = 1.
Proof.
  assert (Hs : bool_decide (0%nat ∈ field_and_battlement X_points_example.w P0
                       ++ field_and_battlement X_points_example.w P1) = true)
    by (apply bool_decide_eq_true_2; apply elem_of_cons; left; reflexivity).
  destruct (restore_action_points_spec X_points_example.w) as (_ & Hrow & _).
  split; [reflexivity|]. split; [exact Hs|]. split; [reflexivity|]. split; [reflexivity|].
  exact (Hrow 0%nat X_points_example.jack_row eq_refl Hs eq_refl).
Defined.

Lemma unused_fold (w : GameState) (l : list CardId) (a : Z) :
  fold_left
    (fun total_points card =>
       let action_point := Card.action_point (get_card w card) in
       if 0 <? action_point then total_points + action_point else total_points) l a
  = a + sum_Z (map (fun c => Z.max 0 (Card.action_point (get_card w c))) l).
Proof.
  revert a. induction l as [|c l IH]; intros a; simpl; [lia|].
  rewrite IH. unfold sum_Z. simpl.
  destruct (Z.ltb_spec 0 (Card.action_point (get_card w c))); lia.
Qed.

Lemma total_fold (w : GameState) (l : list CardId) (a : Z) :
  fold_left (fun total card => total + Card.action_point (get_card w card)) l a
  = a + sum_Z (map (fun c => Card.action_point (get_card w c)) l).
Proof.
  revert a. induction l as [|c l IH]; intros a; simpl; [lia|].
  rewrite IH. unfold sum_Z. simpl. lia.
Qed.

(** X13.  The three readings of a player's action points agree:
    [calculate_unused_action_points] is never negative and never below
    [calculate_total_action_points], the two are equal when no card of the
    field and battlement zones has negative points, and
    [can_perform_action] holds exactly when the unused points are
    positive. *)
Theorem action_points_relations (p : pid) (w : GameState) :
  0 <= calculate_unused_action_points p w /\
  calculate_total_action_points p w <= calculate_unused_action_points p w /\
  (can_perform_action p w = true <-> 0 < calculate_unused_action_points p w) /\
  (Forall (fun c => 0 <= Card.action_point (get_card w c)) (field_and_battlement w p) ->
   calculate_total_action_points p w = calculate_unused_action_points p w).
Proof.
  unfold calculate_unused_action_points, calculate_total_action_points, can_perform_action.
  rewrite unused_fold, total_fold.
  generalize (field_and_battlement w p) as l. intros l.
  induction l as [|c l (I1 & I2 & I3 & I4)]; unfold sum_Z in *; simpl.
  - repeat split; try lia; try discriminate.
  - repeat split; try lia.
    + intros H. apply orb_true_iff in H as [H|H].
      * apply Z.ltb_lt in H. lia.
      * apply I3 in H. lia.
    + intros H. apply orb_true_iff.
      destruct (Z.ltb_spec 0 (Card.action_point (get_card w c))); [left; reflexivity|].
      right. apply I3. lia.
    + intros H. apply Forall_cons in H as [Hc Hl]. specialize (I4 Hl). lia.
Qed.

Lemma sum_pos_after_spend (w : GameState) (chosen : CardId) (cd : Card.t) (l : list CardId) :
  heap w !! chosen = Some cd ->
  0 < Card.action_point cd ->
  NoDup l ->
  sum_Z (map (fun c => Z.max 0 (Card.action_point
                                  (get_card (upd_card chosen
                                     (fun cd => Card.with_action_point (Card.action_point cd - 1) cd) w) c))) l)
  = sum_Z (map (fun c => Z.max 0 (Card.action_point (get_card w c))) l)
    - (if bool_decide (chosen ∈ l) then 1 else 0).
Proof.
  intros Hc Hpos Hnd. induction Hnd as [|x l Hx Hnd IH].
  - unfold sum_Z. cbn [map foldr].
    rewrite bool_decide_eq_false_2 by (intros H; inversion H). lia.
  - unfold sum_Z in *. cbn [map foldr]. rewrite IH.
    destruct (decide (chosen = x)) as [->|Hne].
    + rewrite (get_card_upd_same x _ w cd Hc).
      assert (Hg : get_card w x = cd) by (unfold get_card; rewrite Hc; reflexivity).
      rewrite Hg. simpl.
      rewrite (bool_decide_eq_false_2 (x ∈ l)) by exact Hx.
      rewrite (bool_decide_eq_true_2 (x ∈ x :: l)) by (apply elem_of_cons; left; reflexivity).
      lia.
    + rewrite get_card_upd_other by exact Hne.
      destruct (decide (chosen ∈ l)) as [Hin|Hnin].
      * rewrite !bool_decide_eq_true_2; [lia| |exact Hin]. apply elem_of_cons; right; exact Hin.
      * rewrite !bool_decide_eq_false_2; [lia| |exact Hnin].
        intros H. apply elem_of_cons in H as [H|H]; [congruence|contradiction].
Qed.

(** X14.  When the field and battlement zones hold each card once,
    [remove_action_point] spends exactly one action point if the player
    can act and changes nothing if the player cannot; no card's points
    become negative by it and no zone changes. *)
Theorem remove_action_point_spec (p : pid) (w : GameState) :
  NoDup (field_and_battlement w p) ->
  Forall (fun c => is_Some (heap w !! c)) (field_and_battlement w p) ->
  let w' := remove_action_point p w in
  calculate_unused_action_points p w'
    = calculate_unused_action_points p w - (if can_perform_action p w then 1 else 0) /\
  (can_perform_action p w = false -> w' = w) /\
  player0 w' = player0 w /\ player1 w' = player1 w /\ decks w' = decks w /\
  (forall c, 0 <= Card.action_point (get_card w c) -> 0 <= Card.action_point (get_card w' c)).
Proof.
  intros Hnd Hvalid. cbv zeta.
  unfold remove_action_point, can_perform_action.
  destruct (List.filter _ (field_and_battlement w p)) as [|chosen tl] eqn:Hf.
  - assert (Hex : existsb (fun card => 0 <? Card.action_point (get_card w card))
                    (field_and_battlement w p) = false).
    { destruct (existsb _ _) eqn:He; [|reflexivity].
      apply existsb_exists in He as (x & Hin & Hx).
      assert (Hxf : In x (List.filter (fun card => 0 <? Card.action_point (get_card w card))
                            (field_and_battlement w p)))
        by (apply filter_In; split; assumption).
      rewrite Hf in Hxf. destruct Hxf. }
    rewrite Hex. repeat split; try lia; auto.
  - assert (Hin : In chosen (List.filter (fun card => 0 <? Card.action_point (get_card w card))
                               (field_and_battlement w p))) by (rewrite Hf; left; reflexivity).
    apply filter_In in Hin as [Hin Hpos]. apply Z.ltb_lt in Hpos.
    assert (Hex : existsb (fun card => 0 <? Card.action_point (get_card w card))
                    (field_and_battlement w p) = true).
    { apply existsb_exists. exists chosen. split; [exact Hin|]. apply Z.ltb_lt. exact Hpos. }
    rewrite Hex.
    apply list_elem_of_In in Hin.
    rewrite Forall_forall in Hvalid. destruct (Hvalid chosen Hin) as [cd Hcd].
    assert (Hg : get_card w chosen = cd) by (unfold get_card; rewrite Hcd; reflexivity).
    rewrite Hg in Hpos.
    split; [|split; [discriminate|repeat split]].
    + unfold calculate_unused_action_points. rewrite !unused_fold.
      change (field_and_battlement (upd_card chosen _ w) p) with (field_and_battlement w p).
      rewrite (sum_pos_after_spend w chosen cd _ Hcd Hpos Hnd).
      rewrite bool_decide_eq_true_2 by exact Hin. lia.
    + intros c Hc. destruct (decide (chosen = c)) as [<-|Hne].
      * rewrite (get_card_upd_same chosen _ w cd Hcd). simpl. lia.
      * rewrite get_card_upd_other by exact Hne. exact Hc.
Qed.

(** The example's field zone: the Jack (2 points) gives up one point, the
    unused points go from 3 to 2. *)
Lemma remove_action_point_witness :
  NoDup (field_and_battlement X_points_example.w P0) /\
  Forall (fun c => is_Some (heap X_points_example.w !! c))
         (field_and_battlement X_points_example.w P0) /\
  calculate_unused_action_points P0 X_points_example.w = 3 /\
  calculate_unused_action_points P0 (remove_action_point P0 X_points_example.w) = 2 /\
  Card.action_point (get_card (remove_action_point P0 X_points_example.w) 0) = 1.
Proof.
  assert (Hnd : NoDup (field_and_battlement X_points_example.w P0)).
  { repeat constructor; intros H; repeat (apply elem_of_cons in H as [H|H]; try lia);
      inversion H. }
  assert (Hv : Forall (fun c => is_Some (heap X_points_example.w !! c))
                 (field_and_battlement X_points_example.w P0))
    by (repeat constructor; eexists; reflexivity).
  destruct (remove_action_point_spec P0 X_points_example.w Hnd Hv) as (Hsum & _).
  split; [exact Hnd|]. split; [exact Hv|]. split; [reflexivity|].
  split; [rewrite Hsum; reflexivity | reflexivity].
Defined.

(** The readings on the example state: 3 unused points, 3 in total. *)
Lemma action_points_relations_witness :
  Forall (fun c => 0 <= Card.action_point (get_card X_points_example.w c))
         (field_and_battlement X_points_example.w P0) /\
  calculate_total_action_points P0 X_points_example.w = 3 /\
  calculate_unused_action_points P0 X_points_example.w = 3 /\
  can_perform_action P0 X_points_example.w = true.
Proof.
  assert (Hf : Forall (fun c => 0 <= Card.action_point (get_card X_points_example.w c))
                 (field_and_battlement X_points_example.w P0))
    by (repeat constructor; simpl; lia).
  destruct (action_points_relations P0 X_points_example.w) as (_ & _ & Hcan & Heq).
  split; [exact Hf|]. split; [reflexivity|]. split; [rewrite <- (Heq Hf); reflexivity|].
  apply Hcan. reflexivity.
Defined.

(** ** Refortify *)

Lemma placed_only_refl p w : placed_only p w w.
Proof. repeat split; reflexivity. Qed.

Lemma placed_only_trans p w1 w2 w3 :
  placed_only p w1 w2 -> placed_only p w2 w3 -> placed_only p w1 w3.
Proof.
  intros (A1 & A2 & A3 & A4 & A5 & A6 & A7) (B1 & B2 & B3 & B4 & B5 & B6 & B7).
  repeat split.
  - rewrite B1. exact A1.
  - lia.
  - congruence.
  - congruence.
  - congruence.
  - congruence.
  - intros c. rewrite B7. apply A7.
Qed.

Lemma with_is_face_down_alter (w : GameState) (card c : CardId) :
  Card.with_is_face_down true (get_card (upd_card card (Card.with_is_face_down true) w) c)
  = Card.with_is_face_down true (get_card w c).
Proof.
  unfold get_card, upd_card. simpl.
  destruct (decide (card = c)) as [->|Hne].
  - rewrite list_lookup_alter_eq. destruct (heap w !! c); reflexivity.
  - rewrite list_lookup_alter_ne by exact Hne. reflexivity.
Qed.

Lemma place_line_placed_only (p : pid) (line : Inp) (w : GameState) :
  placed_only p w (place_line p line w) /\
  (length (Player.hand (get_player w p))
   <= S (length (Player.hand (get_player (place_line p line w) p))))%nat /\
  (wall_bounded w -> wall_bounded (place_line p line w)).
Proof.
  assert (Hsame : placed_only p w w /\
                  (length (Player.hand (get_player w p))
                   <= S (length (Player.hand (get_player w p))))%nat /\
                  (wall_bounded w -> wall_bounded w))
    by (split; [apply placed_only_refl|split; [lia|auto]]).
  destruct line as [z|s]; [|exact Hsame]. simpl.
  destruct ((0 <=? z) && _); [|exact Hsame].
  destruct (py_pop_at (Z.to_nat z) (Player.hand (get_player w p))) as [[hand' c]|] eqn:Hpop;
    [|exact Hsame].
  destruct (py_pop_at_perm _ _ _ _ Hpop) as [Hperm _].
  destruct (py_pop_at_sublist _ _ _ _ Hpop) as (_ & _ & _ & Hlen).
  set (w1 := upd_player p (Player.with_hand hand') w).
  split; [|split].
  - unfold place_card_in_wall.
    assert (Hw1 : Player.wall (get_player w1 p) = Player.wall (get_player w p))
      by (subst w1; destruct p; reflexivity).
    rewrite Hw1.
    destruct (length (Player.wall (get_player w p)) <? 14)%nat.
    + repeat split; try (subst w1; destruct p; reflexivity).
      * subst w1. destruct p; simpl; rewrite <- Hperm; solve_Permutation.
      * subst w1. destruct p; simpl in *; lia.
      * intros x. rewrite <- (with_is_face_down_alter w c x).
        subst w1. destruct p; reflexivity.
    + repeat split; try (subst w1; destruct p; reflexivity).
      * subst w1. destruct p; simpl; rewrite <- Hperm; solve_Permutation.
      * subst w1. destruct p; simpl in *; lia.
  - unfold place_card_in_wall.
    destruct (length (Player.wall (get_player w1 p)) <? 14)%nat;
      subst w1; destruct p; simpl in *; lia.
  - intros Hb. apply place_card_in_wall_bounded.
    intros q. specialize (Hb q). subst w1. destruct p, q; exact Hb.
Qed.

Lemma refortify_loop_unfold p budget w ins :
  refortify_loop p budget w ins =
  if budget <=? 0 then Ok ins w
  else
    match ins with
    | [] => Raise EOFError w
    | Num _ :: rest => refortify_loop p budget w rest
    | Word command :: rest =>
        if bool_decide (command ∈ ["draw"; "place"; "discard"; "reset trap"]) then
          if bool_decide (command = "draw") && has_card p "Ten" w then
            Raise AttributeError w
          else if bool_decide (command = "place") then
            match Player.hand (get_player w p) with
            | [] => refortify_loop p (budget - 1) w rest
            | _ =>
                match rest with
                | [] => Raise EOFError w
                | line :: rest' => refortify_loop p (budget - 1) (place_line p line w) rest'
                end
            end
          else refortify_loop p (budget - 1) w rest
        else if bool_decide (command = "zone state") then refortify_loop p budget w rest
        else if bool_decide (command = "continue") then Ok rest w
        else refortify_loop p budget w rest
    end.
Proof. destruct ins; reflexivity. Qed.

Lemma refortify_loop_spec (p : pid) (n : nat) :
  forall (ins : list Inp) (budget : Z) (w : GameState),
    (length ins <= n)%nat ->
    let w' := res_state (refortify_loop p budget w ins) in
    placed_only p w w' /\
    Z.of_nat (length (Player.hand (get_player w p)))
      - Z.of_nat (length (Player.hand (get_player w' p))) <= Z.max 0 budget /\
    (wall_bounded w -> wall_bounded w').
Proof.
  induction n as [|n IH]; intros ins budget w Hn; cbv zeta.
  - destruct ins; [|simpl in Hn; lia].
    rewrite refortify_loop_unfold. destruct (budget <=? 0); simpl;
      (split; [apply placed_only_refl|split; [lia|auto]]).
  - assert (Hstay : placed_only p w w /\
              Z.of_nat (length (Player.hand (get_player w p)))
                - Z.of_nat (length (Player.hand (get_player w p))) <= Z.max 0 budget /\
              (wall_bounded w -> wall_bounded w))
      by (split; [apply placed_only_refl|split; [lia|auto]]).
    rewrite refortify_loop_unfold.
    destruct (Z.leb_spec budget 0) as [Hb|Hb]; [exact Hstay|].
    destruct ins as [|i rest]; [exact Hstay|].
    simpl in Hn.
    assert (Hrec : forall b, b <= budget ->
              let w' := res_state (refortify_loop p b w rest) in
              placed_only p w w' /\
              Z.of_nat (length (Player.hand (get_player w p)))
                - Z.of_nat (length (Player.hand (get_player w' p))) <= Z.max 0 budget /\
              (wall_bounded w -> wall_bounded w')).
    { intros b Hbb. cbv zeta.
      destruct (IH rest b w ltac:(lia)) as (H1 & H2 & H3).
      split; [exact H1|]. split; [lia|exact H3]. }
    destruct i as [z|command]; [apply (Hrec budget); lia|].
    destruct (bool_decide (command ∈ ["draw"; "place"; "discard"; "reset trap"])).
    + destruct (bool_decide (command = "draw") && has_card p "Ten" w); [exact Hstay|].
      destruct (bool_decide (command = "place")); [|apply (Hrec (budget - 1)); lia].
      destruct (Player.hand (get_player w p)) as [|h0 hs] eqn:Hhand;
        [apply (Hrec (budget - 1)); lia|].
      rewrite <- Hhand in Hstay |- *.
      destruct rest as [|line rest']; [exact Hstay|].
      simpl in Hn.
      destruct (place_line_placed_only p line w) as (P1 & P2 & P3).
      destruct (IH rest' (budget - 1) (place_line p line w) ltac:(lia)) as (H1 & H2 & H3).
      split; [exact (placed_only_trans _ _ _ _ P1 H1)|]. split; [lia|auto].
    + destruct (bool_decide (command = "zone state")); [apply (Hrec budget); lia|].
      destruct (bool_decide (command = "continue")); [exact Hstay|].
      apply (Hrec budget); lia.
Qed.

(** X15.  The refortify phase spends a budget, not the cards' points:
    whatever is typed, and whether the phase ends normally or in an
    exception, no card's action points or damage points change, no card is
    drawn, and the only movement is of the player's hand cards into the
    wall or the discard pile, at most as many as the unused action points
    counted at the start.  The wall capacity is kept. *)
Theorem refortify_phase_spec (p : pid) (w : GameState) (ins : list Inp) :
  let w' := res_state (refortify_phase p w ins) in
  placed_only p w w' /\
  (forall c, Card.action_point (get_card w' c) = Card.action_point (get_card w c) /\
             Card.damage_points (get_card w' c) = Card.damage_points (get_card w c)) /\
  calculate_unused_action_points p w' = calculate_unused_action_points p w /\
  Z.of_nat (length (Player.hand (get_player w p)))
    - Z.of_nat (length (Player.hand (get_player w' p)))
    <= calculate_unused_action_points p w /\
  (wall_bounded w -> wall_bounded w').
Proof.
  cbv zeta. unfold refortify_phase.
  destruct (refortify_loop_spec p (length ins) ins (calculate_unused_action_points p w) w
              (Nat.le_refl _)) as (H1 & H2 & H3).
  set (w' := res_state (refortify_loop p (calculate_unused_action_points p w) w ins)) in *.
  assert (Hfields : forall c,
            Card.action_point (get_card w' c) = Card.action_point (get_card w c) /\
            Card.damage_points (get_card w' c) = Card.damage_points (get_card w c)).
  { intros c. destruct H1 as (_ & _ & _ & _ & _ & _ & Hc). specialize (Hc c).
    destruct (get_card w' c), (get_card w c). simpl in *.
    injection Hc as -> -> -> -> -> -> -> -> -> -> -> -> -> -> -> -> ->.
    split; reflexivity. }
  split; [exact H1|]. split; [exact Hfields|]. split; [|split; [|exact H3]].
  - unfold calculate_unused_action_points. rewrite !unused_fold.
    destruct H1 as (_ & _ & HB & HF & _).
    unfold field_and_battlement. rewrite HB, HF. f_equal. f_equal.
    apply map_ext. intros c. destruct (Hfields c) as [-> _]. reflexivity.
  - pose proof (proj1 (action_points_relations p w)) as Hpos. lia.
Qed.

(** ** Targeted damage *)

Lemma choose_index_spec (n : nat) (ins : list Inp) (i : nat) (rest : list Inp) :
  choose_index n ins = Some (i, rest) -> (i < n)%nat /\ (length rest < length ins)%nat.
Proof.
  induction ins as [|x ins IH]; [discriminate|]. simpl.
  destruct x as [z|s].
  - destruct ((0 <=? z) && (z <? Z.of_nat n)) eqn:Hz.
    + intros [= <- <-]. apply andb_true_iff in Hz as [H1 H2].
      apply Z.leb_le in H1. apply Z.ltb_lt in H2. split; lia.
    + intros H. destruct (IH H). split; lia.
  - intros H. destruct (IH H). split; lia.
Qed.

Lemma same_but_damage_points_upd (c : CardId) (f : Z -> Z) (w : GameState) :
  same_but_damage_points w
    (upd_card c (fun cd => Card.with_damage_points (f (Card.damage_points cd)) cd) w).
Proof.
  intros x. unfold get_card, upd_card. simpl.
  destruct (decide (c = x)) as [->|Hne].
  - rewrite list_lookup_alter_eq. destruct (heap w !! x); reflexivity.
  - rewrite list_lookup_alter_ne by exact Hne. reflexivity.
Qed.

(** X16.  [select_target_and_deal_damage] moves its target properly: the
    opponent's field zone and discard pile together hold the same cards
    before and after, nothing else on the board moves, and no card field
    other than damage points changes.  When a target is hit, it is a card
    of the opponent's field zone, it alone changes, it loses exactly
    [damage_amount] damage points, and it leaves the field zone for the end
    of the discard pile exactly when that brings it to zero or below. *)
Theorem select_target_and_deal_damage_spec (self : pid) (damage_amount : Z)
    (w : GameState) (ins : list Inp) :
  let opp := opponent (Some self) in
  let w' := res_state (select_target_and_deal_damage self damage_amount w ins) in
  Permutation (Player.field_zone (get_player w' opp) ++ Player.discard_pile (get_player w' opp))
              (Player.field_zone (get_player w opp) ++ Player.discard_pile (get_player w opp)) /\
  get_player w' self = get_player w self /\
  Player.hand (get_player w' opp) = Player.hand (get_player w opp) /\
  Player.wall (get_player w' opp) = Player.wall (get_player w opp) /\
  Player.battlement_zone (get_player w' opp) = Player.battlement_zone (get_player w opp) /\
  decks w' = decks w /\
  same_but_damage_points w w' /\
  (w' = w \/
   exists target,
     target ∈ Player.field_zone (get_player w opp) /\
     (forall c, c <> target -> get_card w' c = get_card w c) /\
     ((target < length (heap w))%nat ->
      Card.damage_points (get_card w' target)
      = Card.damage_points (get_card w target) - damage_amount) /\
     (if Card.damage_points (get_card w' target) <=? 0
      then S (length (Player.field_zone (get_player w' opp)))
           = length (Player.field_zone (get_player w opp)) /\
           Player.discard_pile (get_player w' opp)
           = Player.discard_pile (get_player w opp) ++ [target]
      else get_player w' opp = get_player w opp)).
Proof.
  change (targeted self damage_amount w
            (select_target_and_deal_damage self damage_amount w ins)).
  assert (Hstay : forall (r : Res GameState (list Inp)), res_state r = w ->
                    targeted self damage_amount w r).
  { intros r Hr. unfold targeted. cbv zeta. rewrite Hr.
    repeat split; try reflexivity. left. reflexivity. }
  unfold select_target_and_deal_damage. cbv zeta.
  destruct (Player.field_zone (get_player w (opponent (Some self)))) as [|f0 fs] eqn:Hfz;
    [apply Hstay; reflexivity|].
  rewrite <- Hfz.
  destruct (choose_index _ ins) as [[i rest]|] eqn:Hci; [|apply Hstay; reflexivity].
  destruct (Player.field_zone (get_player w (opponent (Some self))) !! i)
    as [target|] eqn:Hi; [|apply Hstay; reflexivity].
  assert (Hin : target ∈ Player.field_zone (get_player w (opponent (Some self))))
    by (apply list_elem_of_lookup; exists i; exact Hi).
  set (f := fun cd => Card.with_damage_points (Card.damage_points cd - damage_amount) cd).
  set (w1 := upd_card target f w).
  assert (Hdp : (target < length (heap w))%nat ->
                Card.damage_points (get_card w1 target)
                = Card.damage_points (get_card w target) - damage_amount).
  { intros Hlt. destruct (lookup_lt_is_Some_2 _ _ Hlt) as [cd Hcd].
    subst w1. rewrite (get_card_upd_same _ _ _ _ Hcd).
    unfold get_card. rewrite Hcd. reflexivity. }
  assert (Hother : forall c, c <> target -> get_card w1 c = get_card w c).
  { intros c Hc. subst w1. apply get_card_upd_other. congruence. }
  assert (Hsame : same_but_damage_points w w1).
  { subst w1 f. apply (same_but_damage_points_upd target (fun d => d - damage_amount)). }
  destruct (Card.damage_points (get_card w1 target) <=? 0) eqn:Hdead.
  - unfold targeted. cbv zeta. cbn [res_state].
    set (opp := opponent (Some self)) in *.
    assert (Hne : opp <> self) by (subst opp; destruct self; discriminate).
    assert (Hget : forall c, get_card
               (upd_player opp
                  (fun pl => Player.with_discard_pile (Player.discard_pile pl ++ [target]) pl)
                  (upd_player opp
                     (fun pl => Player.with_field_zone
                                  (py_remove target (Player.field_zone pl)) pl) w1)) c
               = get_card w1 c) by (intros c; destruct opp; reflexivity).
    rewrite !get_player_upd_same.
    rewrite !get_player_upd_other by exact Hne.
    assert (Hp1 : get_player w1 opp = get_player w opp) by (destruct opp; reflexivity).
    assert (Hp2 : get_player w1 self = get_player w self) by (destruct self; reflexivity).
    rewrite Hp1, Hp2. cbn [Player.field_zone Player.discard_pile Player.hand Player.wall
                           Player.battlement_zone Player.with_discard_pile
                           Player.with_field_zone].
    split.
    { rewrite <- (py_remove_perm target _ Hin) at 2. solve_Permutation. }
    repeat split; try reflexivity.
    + destruct opp; reflexivity.
    + intros c. rewrite Hget. apply Hsame.
    + right. exists target. split; [exact Hin|]. split.
      { intros c Hc. rewrite Hget. apply Hother. exact Hc. }
      split.
      { intros Hlt. rewrite Hget. apply Hdp. exact Hlt. }
      rewrite Hget, Hdead. split; [|reflexivity].
      apply py_remove_length. exact Hin.
  - unfold targeted. cbv zeta. cbn [res_state].
    set (opp := opponent (Some self)) in *.
    assert (Hp1 : get_player w1 opp = get_player w opp) by (destruct opp; reflexivity).
    assert (Hp2 : get_player w1 self = get_player w self) by (destruct self; reflexivity).
    rewrite Hp1, Hp2.
    repeat split; try reflexivity; try exact Hsame.
    right. exists target. split; [exact Hin|]. split; [exact Hother|].
    split; [exact Hdp|]. rewrite Hdead. reflexivity.
Qed.

(** On the example the third line typed selects the 1-point character,
    which goes to the discard pile. *)
Lemma select_target_and_deal_damage_witness :
  let w' := res_state (select_target_and_deal_damage P0 2 X_target_example.w
                         X_target_example.ins) in
  Permutation (Player.field_zone (get_player w' P1) ++ Player.discard_pile (get_player w' P1))
              [0%nat; 1%nat] /\
  Player.discard_pile (get_player w' P1) = [1%nat].
Proof.
  split; [|reflexivity].
  exact (proj1 (select_target_and_deal_damage_spec P0 2 X_target_example.w
                  X_target_example.ins)).
Defined.

(** ** The Joker's target *)

Lemma choose_bonus_damage_zone_spec (ins : list Inp) (zone : string) (rest : list Inp) :
  choose_bonus_damage_zone ins = Some (zone, rest) ->
  zone = "battlement_zone" \/ zone = "field_zone".
Proof.
  induction ins as [|i ins IH]; [discriminate|]. simpl.
  destruct i as [z|s]; [exact IH|].
  destruct (bool_decide (s = "bz")); [intros [= <- _]; left; reflexivity|].
  destruct (bool_decide (s = "fz")); [intros [= <- _]; right; reflexivity|].
  exact IH.
Qed.

Lemma damage_wall_loop_frame (target : pid) (d : nat) :
  forall w,
    Player.field_zone (get_player (damage_wall_loop target d w) target)
    = Player.field_zone (get_player w target) /\
    Player.battlement_zone (get_player (damage_wall_loop target d w) target)
    = Player.battlement_zone (get_player w target) /\
    get_player (damage_wall_loop target d w) (other target) = get_player w (other target) /\
    heap (damage_wall_loop target d w) = heap w.
Proof.
  induction d as [|d IH]; intros w; [repeat split|].
  simpl damage_wall_loop.
  destruct (Player.wall (get_player w target)) as [|c wall']; [repeat split|].
  set (w2 := upd_player target
               (fun pl => Player.with_discard_pile (Player.discard_pile pl ++ [c]) pl)
               (upd_player target (Player.with_wall wall') w)).
  assert (Hsame :
    (if negb (Card.is_trap (get_card (upd_player target (Player.with_wall wall') w) c) &&
              bool_decide (Card.special_ability
                             (get_card (upd_player target (Player.with_wall wall') w) c) = "Trap"))
     then w2 else w2) = w2) by (destruct (negb _); reflexivity).
  rewrite Hsame. destruct (IH w2) as (I1 & I2 & I3 & I4).
  rewrite I1, I2, I3, I4. subst w2. destruct target; repeat split.
Qed.

Lemma damage_characters_frame (target : pid) (z z' : ZoneName) (damage : Z)
    (ins : list Inp) :
  z' <> z -> z' <> Discard ->
  forall w,
    zone_get (res_state (damage_characters target z damage w ins)) target z'
    = zone_get w target z' /\
    get_player (res_state (damage_characters target z damage w ins)) (other target)
    = get_player w (other target).
Proof.
  intros Hz Hd. induction ins as [|i ins IH]; intros w.
  - rewrite damage_characters_unfold. destruct (damage <=? 0); [split; reflexivity|].
    destruct (zone_get w target z); split; reflexivity.
  - rewrite damage_characters_unfold. destruct (damage <=? 0); [split; reflexivity|].
    destruct (zone_get w target z) as [|c0 cs] eqn:Hzone; [split; reflexivity|].
    rewrite <- Hzone.
    destruct i as [idx|s]; [|apply IH].
    cbv zeta.
    destruct ((0 <=? idx) && _); [|apply IH].
    destruct (py_pop_at (Z.to_nat idx) (zone_get w target z)) as [[chars' ch]|]; [|apply IH].
    match goal with |- context [Card.damage_points ?c <=? 0] =>
      destruct (Card.damage_points c <=? 0) end.
    + match goal with |- context [damage_characters target z damage ?w1 ins] =>
        destruct (IH w1) as [I1 I2]; rewrite I1, I2 end.
      split.
      * rewrite zone_get_set_other by congruence.
        destruct target, z'; try congruence; reflexivity.
      * destruct target, z; reflexivity.
    + match goal with |- context [damage_characters target z damage ?w1 ins] =>
        destruct (IH w1) as [I1 I2]; rewrite I1, I2 end.
      split; [destruct target, z'; reflexivity|destruct target; reflexivity].
Qed.

(** X17.  The zone asked for by [choose_bonus_damage_zone] is never the
    [bz] that [choose_target_zone] tests for, so a Joker resolved by a
    player never aims at the opponent's field zone: it aims at the
    battlement zone when the opponent's field zone is empty and at the wall
    otherwise.  Applying the damage therefore leaves the opponent's field
    zone and the player's own cards as they were, and while the opponent
    has a card in the field zone no card is damaged at all. *)
Theorem joker_never_targets_field_zone (self : pid) (total_damage : Z) (w : GameState)
    (ins rest : list Inp) (zone : string) :
  choose_bonus_damage_zone ins = Some (zone, rest) ->
  let opp := opponent (Some self) in
  let target_zone := choose_target_zone self zone w in
  target_zone = (match Player.field_zone (get_player w opp) with
                 | [] => "battlement_zone"
                 | _ => "wall"
                 end) /\
  exists r,
    apply_joker_damage self target_zone total_damage w rest = Some r /\
    Player.field_zone (get_player (res_state r) opp) = Player.field_zone (get_player w opp) /\
    get_player (res_state r) self = get_player w self /\
    (Player.field_zone (get_player w opp) <> [] ->
     heap (res_state r) = heap w /\
     Player.battlement_zone (get_player (res_state r) opp)
     = Player.battlement_zone (get_player w opp)).
Proof.
  intros Hzone. cbv zeta.
  assert (Hbz : bool_decide (zone = "bz") = false).
  { destruct (choose_bonus_damage_zone_spec _ _ _ Hzone) as [-> | ->]; reflexivity. }
  assert (Hself : other (opponent (Some self)) = self) by (destruct self; reflexivity).
  unfold choose_target_zone. rewrite Hbz.
  split; [reflexivity|].
  destruct (Player.field_zone (get_player w (opponent (Some self)))) as [|f0 fs] eqn:Hfz.
  - unfold apply_joker_damage. cbv zeta.
    rewrite bool_decide_eq_false_2 by discriminate.
    change (player_list_attribute "battlement_zone") with (Some Battlement).
    eexists. split; [reflexivity|].
    destruct (damage_characters_frame (opponent (Some self)) Battlement Field total_damage rest
                ltac:(discriminate) ltac:(discriminate) w) as [F1 F2].
    rewrite Hself in F2. unfold zone_get in F1.
    split; [rewrite F1; exact Hfz|]. split; [exact F2|].
    intros H. congruence.
  - unfold apply_joker_damage. cbv zeta.
    rewrite bool_decide_eq_true_2 by reflexivity.
    eexists. split; [reflexivity|]. cbn [res_state]. unfold damage_wall.
    destruct (damage_wall_loop_frame (opponent (Some self)) (Z.to_nat total_damage) w)
      as (F1 & F2 & F3 & F4).
    rewrite Hself in F3.
    split; [rewrite F1; exact Hfz|]. split; [exact F3|].
    intros _. split; [exact F4|exact F2].
Qed.

(** On the example the choice [fz] sends the damage to the wall. *)
Lemma joker_never_targets_field_zone_witness :
  choose_bonus_damage_zone X_player_joker_example.ins = Some ("field_zone", [Num 0]) /\
  choose_target_zone P0 "field_zone" X_player_joker_example.w = "wall".
Proof.
  assert (H : choose_bonus_damage_zone X_player_joker_example.ins
              = Some ("field_zone", [Num 0])) by reflexivity.
  split; [exact H|].
  exact (proj1 (joker_never_targets_field_zone P0 2 X_player_joker_example.w
                  X_player_joker_example.ins [Num 0] "field_zone" H)).
Defined.

(** ** Cast abilities *)

Lemma only_hands_grow_refl n w : only_hands_grow n w w.
Proof. split; [reflexivity|]. intros p. repeat split; try reflexivity; lia. Qed.

Lemma only_hands_grow_trans n m w1 w2 w3 :
  only_hands_grow n w1 w2 -> only_hands_grow m w2 w3 -> only_hands_grow (n + m) w1 w3.
Proof.
  intros [A0 A] [B0 B]. split; [congruence|]. intros p.
  destruct (A p) as (A1 & A2 & A3 & A4 & A5 & A6 & A7).
  destruct (B p) as (B1 & B2 & B3 & B4 & B5 & B6 & B7).
  repeat split; try congruence.
  - etransitivity; eassumption.
  - lia.
Qed.

Lemma draw_card_only_hands_grow p w : only_hands_grow 1 w (draw_card p w).
Proof.
  unfold draw_card. cbv zeta.
  destruct (decks w !! _) as [deck|]; [|apply only_hands_grow_refl].
  destruct (Deck_draw deck) as [[deck' card]|]; [|apply only_hands_grow_refl].
  split; [destruct p; reflexivity|]. intros q.
  destruct p, q; simpl; repeat split; try reflexivity; try lia;
    try (apply prefix_app_r; reflexivity);
    rewrite length_app; simpl; lia.
Qed.

(** X18.  Of all cast abilities only [Draws 2 Cards] changes the game:
    with any other text the state is left as it was, whether the call
    returns or raises.  A drawing ability adds at most two cards to the
    end of one hand and touches no other zone and no card.  The Joker's
    text, [Uber Damage], always ends in [AttributeError]. *)
Theorem resolve_non_character_card_ability_spec (self : pid) (card : CardId)
    (w : GameState) (ins : list Inp) :
  let text := Card.cast_ability (get_card w card) in
  let r := resolve_non_character_card_ability self card w ins in
  only_hands_grow 2 w (res_state r) /\
  (py_str_in "Draws 2 Cards" text = false -> res_state r = w) /\
  (get_card w card = create_joker_card -> r = Raise AttributeError w) /\
  (py_str_in "Draws 2 Cards" text = true ->
   forall choice rest, ins = choice :: rest ->
     exists target,
       r = Ok rest (draw_cards 2 target w) /\
       (target = self <-> choice = Word "self")).
Proof.
  cbv zeta. unfold resolve_non_character_card_ability, execute_ability_based_on_text.
  split; [|split; [|split]].
  - destruct (py_str_in "Draws 2 Cards" _).
    + unfold handle_draw_two_cards_ability.
      destruct ins as [|choice rest]; [apply only_hands_grow_refl|].
      cbv zeta. cbn [res_state].
      eapply (only_hands_grow_trans 1 1); apply draw_card_only_hands_grow.
    + repeat (match goal with |- context [if ?b then _ else _] => destruct b end);
        apply only_hands_grow_refl.
  - intros ->.
    repeat (match goal with |- context [if ?b then _ else _] => destruct b end);
      reflexivity.
  - intros ->. reflexivity.
  - intros -> choice rest ->. unfold handle_draw_two_cards_ability. cbv zeta.
    destruct choice as [z|s].
    + exists (opponent (Some self)). split; [reflexivity|].
      split; [destruct self; discriminate|discriminate].
    + destruct (bool_decide (s = "self")) eqn:Hs.
      * apply bool_decide_eq_true in Hs. subst s.
        exists self. split; [reflexivity|]. split; reflexivity.
      * apply bool_decide_eq_false in Hs.
        exists (opponent (Some self)). split; [reflexivity|].
        split; [destruct self; discriminate|]. intros [= E]. contradiction.
Qed.

(** On the example, player 1 resolves the drawing card for the opponent
    and then the Joker. *)
Lemma resolve_non_character_card_ability_witness :
  (exists target,
     resolve_non_character_card_ability P0 0%nat X_ability_example.w [Word "opponent"]
     = Ok [] (draw_cards 2 target X_ability_example.w) /\
     (target = P0 <-> Word "opponent" = Word "self")) /\
  resolve_non_character_card_ability P0 1%nat X_ability_example.w []
  = Raise AttributeError X_ability_example.w.
Proof.
  split.
  - exact (proj2 (proj2 (proj2 (resolve_non_character_card_ability_spec
             P0 0%nat X_ability_example.w [Word "opponent"])))
             eq_refl (Word "opponent") [] eq_refl).
  - exact (proj1 (proj2 (proj2 (resolve_non_character_card_ability_spec
             P0 1%nat X_ability_example.w []))) eq_refl).
Defined.

(** ** Retribution *)

Lemma retribution_loop_fuel (opp : pid) (fuel : nat) :
  forall fuel' i w,
    (length (Player.field_zone (get_player w opp)) <= fuel + i)%nat ->
    (length (Player.field_zone (get_player w opp)) <= fuel' + i)%nat ->
    retribution_loop fuel i opp w = retribution_loop fuel' i opp w.
Proof.
  induction fuel as [|fuel IH]; intros fuel' i w H1 H2.
  - destruct fuel' as [|fuel']; [reflexivity|]. simpl.
    rewrite lookup_ge_None_2 by (simpl in H1; lia). reflexivity.
  - destruct fuel' as [|fuel'].
    + simpl. rewrite lookup_ge_None_2 by (simpl in H2; lia). reflexivity.
    + simpl.
      destruct (Player.field_zone (get_player w opp) !! i) as [c|] eqn:Hi; [|reflexivity].
      assert (Hin : c ∈ Player.field_zone (get_player w opp))
        by (apply list_elem_of_lookup; exists i; exact Hi).
      pose proof (py_remove_length c _ Hin) as Hlen.
      destruct (Card.has_attacked (get_card w c)).
      * apply IH; rewrite !get_player_upd_same; simpl; lia.
      * apply IH; lia.
Qed.

Lemma retribution_loop_spec (opp : pid) (fuel : nat) :
  forall i w,
    let w' := retribution_loop fuel i opp w in
    let fz := Player.field_zone (get_player w opp) in
    let fz' := Player.field_zone (get_player w' opp) in
    (exists moved,
       Player.discard_pile (get_player w' opp)
       = Player.discard_pile (get_player w opp) ++ moved /\
       Permutation (fz' ++ moved) fz /\
       Forall (fun c => Card.has_attacked (get_card w c) = true) moved) /\
    (2 * (length fz - length fz') <= (length fz - i) + 1)%nat /\
    get_player w' (other opp) = get_player w (other opp) /\
    Player.hand (get_player w' opp) = Player.hand (get_player w opp) /\
    Player.wall (get_player w' opp) = Player.wall (get_player w opp) /\
    Player.battlement_zone (get_player w' opp) = Player.battlement_zone (get_player w opp) /\
    heap w' = heap w /\ decks w' = decks w.
Proof.
  induction fuel as [|fuel IH]; intros i w; cbv zeta.
  - simpl. split; [exists []; rewrite !app_nil_r; split; [reflexivity|split; [reflexivity|constructor]]|].
    repeat split; lia.
  - simpl.
    destruct (Player.field_zone (get_player w opp) !! i) as [c|] eqn:Hi.
    2:{ split; [exists []; rewrite !app_nil_r; split; [reflexivity|split; [reflexivity|constructor]]|].
        repeat split; lia. }
    assert (Hin : c ∈ Player.field_zone (get_player w opp))
      by (apply list_elem_of_lookup; exists i; exact Hi).
    assert (Hi' : (i < length (Player.field_zone (get_player w opp)))%nat)
      by (apply lookup_lt_is_Some_1; eexists; exact Hi).
    destruct (Card.has_attacked (get_card w c)) eqn:Hatt.
    + set (w1 := upd_player opp
                   (fun pl => Player.with_discard_pile (Player.discard_pile pl ++ [c]) pl)
                   (upd_player opp
                      (fun pl => Player.with_field_zone
                                   (py_remove c (Player.field_zone pl)) pl) w)).
      specialize (IH (S i) w1). cbv zeta in IH.
      assert (Hw1 : Player.field_zone (get_player w1 opp)
                    = py_remove c (Player.field_zone (get_player w opp)) /\
                    Player.discard_pile (get_player w1 opp)
                    = Player.discard_pile (get_player w opp) ++ [c] /\
                    get_player w1 (other opp) = get_player w (other opp) /\
                    Player.hand (get_player w1 opp) = Player.hand (get_player w opp) /\
                    Player.wall (get_player w1 opp) = Player.wall (get_player w opp) /\
                    Player.battlement_zone (get_player w1 opp)
                    = Player.battlement_zone (get_player w opp) /\
                    heap w1 = heap w /\ decks w1 = decks w)
        by (subst w1; destruct opp; repeat split).
      destruct Hw1 as (W1 & W2 & W3 & W4 & W5 & W6 & W7 & W8).
      assert (Hcard : forall x, get_card w1 x = get_card w x)
        by (intros x; unfold get_card; rewrite W7; reflexivity).
      destruct IH as ((moved & D & P & F) & B & I3 & I4 & I5 & I6 & I7 & I8).
      rewrite W1 in P, B. rewrite W2 in D.
      pose proof (py_remove_length c _ Hin) as Hlen.
      pose proof (py_remove_perm c _ Hin) as Hperm.
      split.
      { exists (c :: moved). split; [rewrite D, <- app_assoc; reflexivity|]. split.
        - rewrite <- Hperm, <- P. solve_Permutation.
        - constructor; [exact Hatt|].
          eapply Forall_impl; [exact F|]. intros x Hx. rewrite <- Hcard. exact Hx. }
      split; [lia|]. repeat split; congruence.
    + specialize (IH (S i) w). cbv zeta in IH.
      destruct IH as (M & B & I3).
      split; [exact M|]. split; [lia|exact I3].
Qed.

(** X19.  [retribution_effect] removes cards from the list it is iterating
    over, so after each destroyed card the next one is skipped: of [n]
    cards in the opponent's field zone at most half, rounded up, are
    destroyed, even when all of them have attacked.  What is destroyed has
    attacked, and goes to the end of the opponent's discard pile; nothing
    else changes, and a card not named Ace of Spades does nothing.  The
    loop has ended by itself when the fuel of the model runs out. *)
Theorem retribution_effect_spec (self : pid) (card : CardId) (w : GameState) :
  let opp := opponent (Some self) in
  let w' := retribution_effect self card w in
  let fz := Player.field_zone (get_player w opp) in
  let fz' := Player.field_zone (get_player w' opp) in
  (exists moved,
     Player.discard_pile (get_player w' opp) = Player.discard_pile (get_player w opp) ++ moved /\
     Permutation (fz' ++ moved) fz /\
     Forall (fun c => Card.has_attacked (get_card w c) = true) moved /\
     (2 * length moved <= length fz + 1)%nat) /\
  get_player w' self = get_player w self /\
  Player.hand (get_player w' opp) = Player.hand (get_player w opp) /\
  Player.wall (get_player w' opp) = Player.wall (get_player w opp) /\
  Player.battlement_zone (get_player w' opp) = Player.battlement_zone (get_player w opp) /\
  heap w' = heap w /\ decks w' = decks w /\
  (Card.name (get_card w card) <> "Ace of Spades" -> w' = w) /\
  (Card.name (get_card w card) = "Ace of Spades" ->
   forall extra, retribution_loop (length fz + extra) 0 opp w = w').
Proof.
  cbv zeta. unfold retribution_effect.
  assert (Hself : other (opponent (Some self)) = self) by (destruct self; reflexivity).
  destruct (bool_decide (Card.name (get_card w card) = "Ace of Spades")) eqn:Hname.
  - apply bool_decide_eq_true in Hname. cbv zeta.
    destruct (retribution_loop_spec (opponent (Some self))
                (length (Player.field_zone (get_player w (opponent (Some self))))) 0 w)
      as ((moved & D & P & F) & B & I3 & I4 & I5 & I6 & I7 & I8).
    rewrite Hself in I3.
    split.
    { exists moved. split; [exact D|]. split; [exact P|]. split; [exact F|].
      pose proof (Permutation_length P) as HL. rewrite length_app in HL. lia. }
    repeat split; try assumption.
    + intros Hne. contradiction.
    + intros _ extra. apply retribution_loop_fuel; lia.
  - apply bool_decide_eq_false in Hname.
    split.
    { exists []. rewrite !app_nil_r.
      split; [reflexivity|]. split; [reflexivity|]. split; [constructor|simpl; lia]. }
    repeat split. intros E. contradiction.
Qed.

(** On the example the first and the third of the three attackers are
    destroyed and the second is skipped. *)
Lemma retribution_effect_witness :
  Player.field_zone (get_player (retribution_effect P0 0%nat X_retribution_example.w) P1)
  = [2%nat] /\
  forall extra,
    retribution_loop (3 + extra) 0 P1 X_retribution_example.w
    = retribution_effect P0 0%nat X_retribution_example.w.
Proof.
  split; [reflexivity|].
  exact (proj2 (proj2 (proj2 (proj2 (proj2 (proj2 (proj2 (proj2
           (retribution_effect_spec P0 0%nat X_retribution_example.w)))))))) eq_refl).
Defined.

(** ** Placing a revealed character *)

Lemma choose_zone_for_character_spec (ins : list Inp) (zone : ZoneName) (rest : list Inp) :
  choose_zone_for_character ins = Some (zone, rest) -> zone = Battlement \/ zone = Field.
Proof.
  induction ins as [|i ins IH]; [discriminate|]. simpl.
  destruct i as [z|s]; [exact IH|].
  destruct (bool_decide (s = "bz")); [intros [= <- _]; left; reflexivity|].
  destruct (bool_decide (s = "fz")); [intros [= <- _]; right; reflexivity|].
  exact IH.
Qed.

Lemma special_ability_effect_refl self card w : special_ability_effect self card w w.
Proof. repeat split; reflexivity. Qed.

Lemma retribution_effect_effect self card w :
  special_ability_effect self card w (retribution_effect self card w).
Proof.
  unfold retribution_effect.
  destruct (bool_decide (Card.name (get_card w card) = "Ace of Spades")) eqn:Hname;
    [|apply special_ability_effect_refl].
  apply bool_decide_eq_true in Hname. cbv zeta.
  assert (Hself : other (opponent (Some self)) = self) by (destruct self; reflexivity).
  destruct (retribution_loop_spec (opponent (Some self))
              (length (Player.field_zone (get_player w (opponent (Some self))))) 0 w)
    as ((moved & D & P & F) & B & I3 & I4 & I5 & I6 & I7 & I8).
  rewrite Hself in I3.
  unfold special_ability_effect. cbv zeta.
  split; [exact I3|]. split.
  { rewrite D. etransitivity; [|apply Permutation_app_tail; exact P]. solve_Permutation. }
  repeat split; try assumption.
  - intros c _. unfold get_card. rewrite I7. reflexivity.
  - intros Hne. contradiction.
  - intros _. exact I7.
Qed.

Lemma invulnerability_to_magic_ranged_effect self card w :
  special_ability_effect self card w (invulnerability_to_magic_ranged card w).
Proof.
  unfold invulnerability_to_magic_ranged.
  destruct (bool_decide (Card.name (get_card w card) = "Ace of Hearts")) eqn:Hname;
    [|apply special_ability_effect_refl].
  apply bool_decide_eq_true in Hname.
  unfold special_ability_effect. cbv zeta.
  repeat split; try reflexivity.
  - intros c Hc. apply get_card_upd_other. congruence.
  - intros Hne. contradiction.
Qed.

Lemma activate_special_ability_effect self card w :
  special_ability_effect self card w (activate_special_ability self card w).
Proof.
  unfold activate_special_ability, execute_special_ability. cbv zeta.
  destruct (bool_decide _); [|apply special_ability_effect_refl].
  destruct (py_str_in "not destroyed by magic/ranged damage" _);
    [apply invulnerability_to_magic_ranged_effect|].
  destruct (py_str_in _ _);
    [apply retribution_effect_effect|apply special_ability_effect_refl].
Qed.

(** X20.  [resolve_character_card] appends the revealed character to the
    battlement zone or the field zone its player chose, and to nothing
    else of that player.  Whatever special ability is then activated, the
    opponent's field zone and discard pile together keep their cards, the
    opponent's other zones and the decks are untouched and no other card
    is modified; the opponent loses nothing unless the card is the Ace of
    Spades, and no card is modified unless it is the Ace of Hearts.  When
    the input ends before a zone is chosen the state is unchanged. *)
Theorem resolve_character_card_spec (self : pid) (card : CardId) (w : GameState)
    (ins : list Inp) :
  let opp := opponent (Some self) in
  match resolve_character_card self card w ins with
  | Raise e w' => e = EOFError /\ w' = w /\ choose_zone_for_character ins = None
  | Ok rest w' =>
      exists zone,
        choose_zone_for_character ins = Some (zone, rest) /\
        (zone = Battlement \/ zone = Field) /\
        zone_get w' self zone = zone_get w self zone ++ [card] /\
        (forall z, z <> zone -> zone_get w' self z = zone_get w self z) /\
        Permutation
          (Player.field_zone (get_player w' opp) ++ Player.discard_pile (get_player w' opp))
          (Player.field_zone (get_player w opp) ++ Player.discard_pile (get_player w opp)) /\
        Player.hand (get_player w' opp) = Player.hand (get_player w opp) /\
        Player.wall (get_player w' opp) = Player.wall (get_player w opp) /\
        Player.battlement_zone (get_player w' opp)
        = Player.battlement_zone (get_player w opp) /\
        decks w' = decks w /\
        (forall c, c <> card -> get_card w' c = get_card w c) /\
        (Card.name (get_card w card) <> "Ace of Spades" ->
         get_player w' opp = get_player w opp) /\
        (Card.name (get_card w card) <> "Ace of Hearts" -> heap w' = heap w)
  end.
Proof.
  cbv zeta. unfold resolve_character_card.
  destruct (choose_zone_for_character ins) as [[zone rest]|] eqn:Hz;
    [|repeat split; reflexivity].
  pose proof (choose_zone_for_character_spec _ _ _ Hz) as Hzone.
  cbv zeta.
  set (w1 := zone_set self zone (zone_get w self zone ++ [card]) w).
  set (opp := opponent (Some self)).
  assert (Hne : self <> opp) by (subst opp; destruct self; discriminate).
  assert (Hw1 : zone_get w1 self zone = zone_get w self zone ++ [card] /\
                (forall z, z <> zone -> zone_get w1 self z = zone_get w self z) /\
                get_player w1 opp = get_player w opp /\
                heap w1 = heap w /\ decks w1 = decks w).
  { subst w1. split; [apply zone_get_set_same|]. split.
    - intros z Hzz. apply zone_get_set_other. congruence.
    - destruct self, zone; repeat split. }
  destruct Hw1 as (W1 & W2 & W3 & W4 & W5).
  assert (Hcard : forall c, get_card w1 c = get_card w c)
    by (intros c; unfold get_card; rewrite W4; reflexivity).
  assert (Hgoal : forall w', special_ability_effect self card w1 w' ->
    exists zone0,
      Some (zone, rest) = Some (zone0, rest) /\
      (zone0 = Battlement \/ zone0 = Field) /\
      zone_get w' self zone0 = zone_get w self zone0 ++ [card] /\
      (forall z, z <> zone0 -> zone_get w' self z = zone_get w self z) /\
      Permutation
        (Player.field_zone (get_player w' opp) ++ Player.discard_pile (get_player w' opp))
        (Player.field_zone (get_player w opp) ++ Player.discard_pile (get_player w opp)) /\
      Player.hand (get_player w' opp) = Player.hand (get_player w opp) /\
      Player.wall (get_player w' opp) = Player.wall (get_player w opp) /\
      Player.battlement_zone (get_player w' opp) = Player.battlement_zone (get_player w opp) /\
      decks w' = decks w /\
      (forall c, c <> card -> get_card w' c = get_card w c) /\
      (Card.name (get_card w card) <> "Ace of Spades" ->
       get_player w' opp = get_player w opp) /\
      (Card.name (get_card w card) <> "Ace of Hearts" -> heap w' = heap w)).
  { intros w' (E1 & E2 & E3 & E4 & E5 & E6 & E7 & E8 & E9).
    fold opp in E2, E3, E4, E5, E8.
    rewrite W3 in E2, E3, E4, E5, E8. rewrite Hcard in E8, E9.
    exists zone. split; [reflexivity|]. split; [exact Hzone|].
    assert (Hzg : forall z, zone_get w' self z = zone_get w1 self z)
      by (intros z; unfold zone_get; rewrite E1; reflexivity).
    split; [rewrite Hzg; exact W1|].
    split; [intros z Hzz; rewrite Hzg; apply W2; exact Hzz|].
    split; [exact E2|]. split; [exact E3|]. split; [exact E4|]. split; [exact E5|].
    split; [congruence|].
    split; [intros c Hc; rewrite (E7 c Hc); apply Hcard|].
    split; [exact E8|]. intros Hn. rewrite (E9 Hn). exact W4. }
  destruct (Card.special_ability_trigger (get_card w1 card)).
  - apply Hgoal. apply activate_special_ability_effect.
  - apply Hgoal. apply special_ability_effect_refl.
Qed.

(** On the example the Ace of Spades goes to the field zone and destroys
    two of the three attackers. *)
Lemma resolve_character_card_witness :
  exists w',
    resolve_character_card P0 0%nat X_retribution_example.w [Word "fz"] = Ok [] w' /\
    Permutation
      (Player.field_zone (get_player w' P1) ++ Player.discard_pile (get_player w' P1))
      [1%nat; 2%nat; 3%nat] /\
    Player.discard_pile (get_player w' P1) = [1%nat; 3%nat].
Proof.
  pose proof (resolve_character_card_spec P0 0%nat X_retribution_example.w [Word "fz"]) as H.
  cbv zeta in H.
  destruct (resolve_character_card P0 0%nat X_retribution_example.w [Word "fz"])
    as [rest w'|e w'] eqn:Hr; [|discriminate Hr].
  injection Hr as <- <-.
  eexists. split; [reflexivity|].
  destruct H as (zone & _ & _ & _ & _ & P & _).
  split; [exact P|reflexivity].
Defined.

(** ** End of the game *)

(** X21.  While [check_game_end_conditions] is false every player still
    has a card in hand, field zone or wall, and every draw succeeds: a
    player whose deck is registered draws its last card into the hand.
    Conversely an exhausted deck, or a player left with nothing in hand,
    field zone and wall (cards in the battlement zone do not count), ends
    the game. *)
Theorem check_game_end_conditions_spec (w : GameState) :
  (check_game_end_conditions w = false ->
   (forall p, Player.hand (get_player w p) ++ Player.field_zone (get_player w p)
              ++ Player.wall (get_player w p) <> []) /\
   (forall p deck, decks w !! Player.name (get_player w p) = Some deck ->
      exists deck' c,
        deck = deck' ++ [c] /\
        Player.hand (get_player (draw_card p w) p) = Player.hand (get_player w p) ++ [c] /\
        decks (draw_card p w) !! Player.name (get_player w p) = Some deck')) /\
  (forall key, decks w !! key = Some [] -> check_game_end_conditions w = true) /\
  (forall p, Player.hand (get_player w p) = [] ->
             Player.field_zone (get_player w p) = [] ->
             Player.wall (get_player w p) = [] ->
             check_game_end_conditions w = true).
Proof.
  unfold check_game_end_conditions. split; [|split].
  - intros H. apply orb_false_iff in H as [Hp Hd].
    apply bool_decide_eq_false in Hd.
    split.
    + intros p Hnil.
      apply app_eq_nil in Hnil as [Hh Hnil]. apply app_eq_nil in Hnil as [Hf Hw].
      assert (Hex : existsb (fun p =>
                 (length (Player.hand (get_player w p)) =? 0)%nat &&
                 (length (Player.field_zone (get_player w p)) =? 0)%nat &&
                 (length (Player.wall (get_player w p)) =? 0)%nat) [P0; P1] = true).
      { apply existsb_exists. exists p. split; [destruct p; simpl; auto|].
        rewrite Hh, Hf, Hw. reflexivity. }
      congruence.
    + intros p deck Hdeck.
      destruct (snoc_cases deck) as [->|(deck' & c & ->)].
      * exfalso. apply Hd. exists (Player.name (get_player w p)), []. split; [exact Hdeck|reflexivity].
      * exists deck', c. split; [reflexivity|].
        unfold draw_card. cbv zeta. rewrite Hdeck. unfold Deck_draw. rewrite py_pop_snoc.
        split; [destruct p; reflexivity|].
        destruct p; simpl; apply lookup_insert_eq.
  - intros key Hkey. apply orb_true_iff. right. apply bool_decide_eq_true.
    exists key, []. split; [exact Hkey|reflexivity].
  - intros p Hh Hf Hw. apply orb_true_iff. left.
    apply existsb_exists. exists p. split; [destruct p; simpl; auto|].
    rewrite Hh, Hf, Hw. reflexivity.
Qed.

(** On the example the game goes on and player 1 draws card 3. *)
Lemma check_game_end_conditions_witness :
  check_game_end_conditions X_end_example.w = false /\
  exists deck' c,
    [2%nat; 3%nat] = deck' ++ [c] /\
    Player.hand (get_player (draw_card P0 X_end_example.w) P0) = [0%nat] ++ [c] /\
    decks (draw_card P0 X_end_example.w) !! "Player1" = Some deck'.
Proof.
  assert (H : check_game_end_conditions X_end_example.w = false) by (vm_compute; reflexivity).
  split; [exact H|].
  exact (proj2 (proj1 (check_game_end_conditions_spec X_end_example.w) H)
           P0 [2%nat; 3%nat] eq_refl).
Defined.

(** On the example the budget of three points is used up by two
    placements and one discard command; the last command is not read. *)
Lemma refortify_phase_witness :
  let w' := res_state (refortify_phase P0 X_refortify_example.w X_refortify_example.ins) in
  calculate_unused_action_points P0 X_refortify_example.w = 3 /\
  Player.hand (get_player w' P0) = [3%nat] /\
  Player.wall (get_player w' P0) = [2%nat; 4%nat] /\
  placed_only P0 X_refortify_example.w w'.
Proof.
  split; [reflexivity|]. split; [reflexivity|]. split; [reflexivity|].
  exact (proj1 (refortify_phase_spec P0 X_refortify_example.w X_refortify_example.ins)).
Defined.

(** ** The melee phase *)

Lemma py_remove_elem_of (x y : CardId) (l : list CardId) : y ∈ py_remove x l -> y ∈ l.
Proof.
  induction l as [|z l IH]; simpl; [trivial|].
  destruct (Nat.eqb x z).
  - intros H. apply elem_of_cons. right. exact H.
  - intros H. apply elem_of_cons in H as [->|H]; apply elem_of_cons; [left|right]; auto.
Qed.

Lemma get_card_upd_card_cases c f w x :
  get_card (upd_card c f w) x = get_card w x \/
  (c = x /\ get_card (upd_card c f w) x = f (get_card w x)).
Proof.
  unfold get_card, upd_card. simpl.
  destruct (decide (c = x)) as [->|Hne].
  - rewrite list_lookup_alter_eq. destruct (heap w !! x); [right|left]; auto.
  - rewrite list_lookup_alter_ne by exact Hne. left. reflexivity.
Qed.

Lemma melee_inv_refl p w : melee_inv p w w.
Proof.
  split; [intros c; split; [lia|split; [trivial|reflexivity]]|].
  split; [intros c H; contradiction|].
  split; [trivial|]. split; [intros q; repeat split|reflexivity].
Qed.

Lemma melee_inv_trans p w1 w2 w3 : melee_inv p w1 w2 -> melee_inv p w2 w3 -> melee_inv p w1 w3.
Proof.
  intros (A1 & A2 & A3 & A4 & A5) (B1 & B2 & B3 & B4 & B5).
  split; [|split; [|split; [|split]]].
  - intros c. destruct (A1 c) as (a1 & a2 & a3). destruct (B1 c) as (b1 & b2 & b3).
    split; [lia|]. split; [auto|congruence].
  - intros c Hc.
    destruct (Z.eq_dec (Card.action_point (get_card w2 c)) (Card.action_point (get_card w1 c)))
      as [E|E].
    + rewrite <- E in Hc. destruct (B2 c Hc) as [F M].
      split; [apply A3; exact F|]. destruct (A1 c) as (_ & _ & a3). congruence.
    + apply A2. exact E.
  - intros q c Hc. apply A3, B3. exact Hc.
  - intros q. destruct (A4 q) as (a1 & a2 & a3). destruct (B4 q) as (b1 & b2 & b3).
    repeat split; congruence.
  - congruence.
Qed.

Lemma melee_inv_emit p e w : melee_inv p w (emit e w).
Proof.
  split; [intros c; split; [reflexivity|split; [trivial|reflexivity]]|].
  split; [intros c H; contradiction|].
  split; [intros q c H; destruct q; exact H|].
  split; [intros q; destruct q; repeat split|reflexivity].
Qed.

Lemma apply_damage_to_target_zones a t w :
  (forall q c, c ∈ Player.field_zone (get_player (apply_damage_to_target a t w) q) ->
               c ∈ Player.field_zone (get_player w q)) /\
  (forall q,
     Player.hand (get_player (apply_damage_to_target a t w) q) = Player.hand (get_player w q) /\
     Player.wall (get_player (apply_damage_to_target a t w) q) = Player.wall (get_player w q) /\
     Player.battlement_zone (get_player (apply_damage_to_target a t w) q)
     = Player.battlement_zone (get_player w q)) /\
  decks (apply_damage_to_target a t w) = decks w.
Proof.
  unfold apply_damage_to_target. cbv zeta.
  destruct (_ <=? 0); [|split; [intros q c H; destruct q; exact H|
                               split; [intros q; destruct q; repeat split|reflexivity]]].
  match goal with |- context [opponent ?o] => destruct (opponent o) end;
    match goal with |- context [if ?b then _ else _] => destruct b end;
    (split; [intros q c H; destruct q; simpl in *;
               try exact H; eapply py_remove_elem_of; exact H
            |split; [intros q; destruct q; repeat split|reflexivity]]).
Qed.

Lemma perform_selected_melee_action_inv p sel w ins :
  sel ∈ melee_characters p w ->
  melee_inv p w (res_state (perform_selected_melee_action p sel w ins)).
Proof.
  intros Hsel. unfold melee_characters in Hsel.
  apply list_elem_of_filter in Hsel as [Hprop Hfz].
  apply andb_true_iff in Hprop as [Hm Hap].
  apply bool_decide_eq_true in Hm. apply Z.ltb_lt in Hap.
  unfold perform_selected_melee_action, select_melee_target. cbv zeta.
  destruct (_ <=? 0); [apply melee_inv_emit|].
  destruct (available_targets w p) as [|t0 ts]; [apply melee_inv_emit|].
  destruct (choose_index _ ins) as [[i rest]|]; [|apply melee_inv_refl].
  destruct ((t0 :: ts) !! i) as [target|]; [|apply melee_inv_emit].
  cbn [res_state].
  set (w2 := apply_damage_to_target sel target w).
  destruct (apply_damage_to_target_zones sel target w) as (Z1 & Z2 & Z3). fold w2 in Z1, Z2, Z3.
  assert (Hap2 : forall x, Card.action_point (get_card w2 x) = Card.action_point (get_card w x))
    by (intros x; apply apply_damage_to_target_action_point).
  assert (Hat2 : forall x, Card.attack_type (get_card w2 x) = Card.attack_type (get_card w x)).
  { intros x. subst w2. unfold get_card at 1. rewrite apply_damage_to_target_heap.
    destruct (decide (target = x)) as [->|Hne].
    - rewrite list_lookup_alter_eq. unfold get_card at 3. destruct (heap w !! x); reflexivity.
    - rewrite list_lookup_alter_ne by exact Hne. reflexivity. }
  set (f := fun cd => Card.with_action_point (Card.action_point cd - 1) cd).
  assert (Hplayers : forall q, get_player (upd_card sel f w2) q = get_player w2 q)
    by (intros q; destruct q; reflexivity).
  split; [|split; [|split; [|split]]].
  - intros c. destruct (get_card_upd_card_cases sel f w2 c) as [E|[-> E]]; rewrite E.
    + rewrite Hap2, Hat2. split; [lia|split; [trivial|reflexivity]].
    + subst f. simpl. rewrite Hap2, Hat2. split; [lia|split; [lia|reflexivity]].
  - intros c Hc. destruct (get_card_upd_card_cases sel f w2 c) as [E|[<- E]].
    + rewrite E, Hap2 in Hc. contradiction.
    + split; [exact Hfz|exact Hm].
  - intros q c Hc. rewrite Hplayers in Hc. apply Z1. exact Hc.
  - intros q. rewrite Hplayers. apply Z2.
  - exact Z3.
Qed.

Lemma perform_selected_melee_action_consumes p sel w ins rest w' :
  perform_selected_melee_action p sel w ins = Ok rest w' ->
  (length rest <= length ins)%nat.
Proof.
  unfold perform_selected_melee_action, select_melee_target.
  destruct (_ <=? 0); [intros [= <- _]; lia|].
  destruct (available_targets w p) as [|t0 ts]; [intros [= <- _]; lia|].
  destruct (choose_index _ ins) as [[i r]|] eqn:Hci; [|discriminate].
  destruct (choose_index_spec _ _ _ _ Hci) as [_ Hlen].
  destruct ((t0 :: ts) !! i); intros [= <- _]; lia.
Qed.

Lemma handle_melee_loop_S fuel p w ins :
  handle_melee_loop (S fuel) p w ins =
  match melee_characters p w with
  | [] => Some (Ok ins w)
  | _ =>
      match ins with
      | [] => Some (Raise EOFError w)
      | Word choice :: rest =>
          if bool_decide (choice = "pass") then Some (Ok rest w)
          else handle_melee_loop fuel p w rest
      | Num index_choice :: rest =>
          if (0 <=? index_choice)
             && (index_choice <? Z.of_nat (length (melee_characters p w))) then
            match melee_characters p w !! Z.to_nat index_choice with
            | Some selected_card =>
                match perform_selected_melee_action p selected_card w rest with
                | Ok rest' w' => handle_melee_loop fuel p w' rest'
                | Raise e w' => Some (Raise e w')
                end
            | None => handle_melee_loop fuel p w rest
            end
          else handle_melee_loop fuel p w rest
      end
  end.
Proof. reflexivity. Qed.

Lemma handle_melee_loop_spec (p : pid) (fuel : nat) :
  forall ins w,
    (length ins < fuel)%nat ->
    exists r,
      handle_melee_loop fuel p w ins = Some r /\
      handle_melee_loop (S fuel) p w ins = Some r /\
      melee_inv p w (res_state r).
Proof.
  induction fuel as [|fuel IH]; intros ins w Hlen; [lia|].
  assert (Hdone : forall r : Res GameState (list Inp), res_state r = w ->
            exists r0, Some r = Some r0 /\ Some r = Some r0 /\ melee_inv p w (res_state r0)).
  { intros r Hr. exists r. rewrite Hr. split; [reflexivity|]. split; [reflexivity|].
    apply melee_inv_refl. }
  rewrite (handle_melee_loop_S (S fuel) p w ins), (handle_melee_loop_S fuel p w ins).
  destruct (melee_characters p w) as [|m0 ms] eqn:Hchars; [apply Hdone; reflexivity|].
  rewrite <- Hchars.
  destruct ins as [|i rest]; [apply Hdone; reflexivity|].
  simpl in Hlen.
  assert (Hskip : exists r,
            handle_melee_loop fuel p w rest = Some r /\
            handle_melee_loop (S fuel) p w rest = Some r /\
            melee_inv p w (res_state r)) by (apply IH; lia).
  destruct i as [z|s].
  - destruct ((0 <=? z) && _); [|exact Hskip].
    destruct (melee_characters p w !! Z.to_nat z) as [sel|] eqn:Hsel; [|exact Hskip].
    assert (Hin : sel ∈ melee_characters p w)
      by (apply list_elem_of_lookup; eexists; exact Hsel).
    pose proof (perform_selected_melee_action_inv p sel w rest Hin) as Hinv.
    destruct (perform_selected_melee_action p sel w rest) as [rest' w'|e w'] eqn:Hact.
    + pose proof (perform_selected_melee_action_consumes _ _ _ _ _ _ Hact) as Hc.
      destruct (IH rest' w' ltac:(lia)) as (r & R1 & R2 & R3).
      exists r. split; [exact R1|]. split; [exact R2|].
      exact (melee_inv_trans _ _ _ _ Hinv R3).
    + eexists. split; [reflexivity|]. split; [reflexivity|exact Hinv].
  - destruct (bool_decide (s = "pass")); [apply Hdone; reflexivity|exact Hskip].
Qed.

(** X22.  The melee phase always comes to an end on the lines it is
    given, and more fuel does not change its result.  Whatever the
    outcome, no card's action points have gone up, none has gone from a
    non-negative value to a negative one, and only melee cards of the
    acting player's field zone have spent any; hands, walls, battlement
    zones and decks are untouched and no field zone has gained a card. *)
Theorem handle_melee_actions_spec (p : pid) (w : GameState) (ins : list Inp) :
  exists r,
    handle_melee_actions p w ins = Some r /\
    (forall extra, handle_melee_loop (S (length ins) + extra) p w ins = Some r) /\
    melee_inv p w (res_state r).
Proof.
  unfold handle_melee_actions.
  destruct (handle_melee_loop_spec p (S (length ins)) ins w ltac:(lia)) as (r & R1 & _ & R3).
  exists r. split; [exact R1|]. split; [|exact R3].
  intros extra. induction extra as [|extra IHe].
  - rewrite Nat.add_0_r. exact R1.
  - destruct (handle_melee_loop_spec p (S (length ins) + extra) ins w ltac:(lia))
      as (r' & Q1 & Q2 & _).
    rewrite Nat.add_succ_r, Q2. rewrite <- Q1. exact IHe.
Qed.

(** On the example the attacker spends its only action point and the
    phase ends before the third line is read. *)
Lemma handle_melee_actions_witness :
  exists w',
    handle_melee_actions P0 C2_example.w_field X_melee_example.ins
    = Some (Ok [Word "again"] w') /\
    Card.action_point (get_card w' 0%nat) = 0 /\
    melee_inv P0 C2_example.w_field w'.
Proof.
  destruct (handle_melee_actions_spec P0 C2_example.w_field X_melee_example.ins)
    as (r & R1 & _ & R3).
  assert (E : handle_melee_actions P0 C2_example.w_field X_melee_example.ins
              = Some (Ok [Word "again"]
                        (res_state (default (Raise EOFError C2_example.w_field)
                           (handle_melee_actions P0 C2_example.w_field X_melee_example.ins)))))
    by reflexivity.
  rewrite E in R1. injection R1 as <-.
  eexists. split; [exact E|]. split; [reflexivity|exact R3].
Defined.
